(** * powerful_ocr: a shallow embedding of the cache, retry, splitter,
    preprocessing and correction code, with the properties checked on it.

    Conventions of the embedding.
    - Python [int] is [Z]; Python [float] is an exact rational [Q] (the
      idealisation is named wherever a statement depends on it).
    - Python [str] is [string]: the bytes of its UTF-8 encoding.
    - [datetime] is a count of microseconds in [Z]; [timedelta] likewise.
    - A function that can raise returns a [Result]; a [while] loop that may
      not terminate takes fuel and returns [None] when the fuel runs out. *)

From Stdlib Require Import ZArith QArith Qminmax Qround Qabs List String Ascii Bool Lia.
From Stdlib Require Import Permutation Sorted DecimalString DecimalZ.
Import ListNotations.

Open Scope string_scope.
Open Scope Z_scope.

(** ** Python values shared by the modules *)

(** The outcome of a call that may raise. *)
Inductive Result (A : Type) : Type :=
| Ok (a : A)
| Raise (msg : string).
Arguments Ok {A} a.
Arguments Raise {A} msg.

(** [str(n)] for an [int]. *)
Definition str_of_int (n : Z) : string :=
  NilZero.string_of_int (Z.to_int n).

(** [n * "0"]. *)
Fixpoint zeros (n : nat) : string :=
  match n with
  | O => ""
  | S n' => String "0" (zeros n')
  end.

(** [f"{n:0{w}d}"]: the sign first, then zeros up to width [w]. *)
Definition format_0d (w : nat) (n : Z) : string :=
  if n <? 0 then
    let d := str_of_int (- n) in
    "-" ++ zeros (w - 1 - String.length d) ++ d
  else
    let d := str_of_int n in
    zeros (w - String.length d) ++ d.

(** [sep.join(parts)]. *)
Fixpoint join (sep : string) (parts : list string) : string :=
  match parts with
  | [] => ""
  | [p] => p
  | p :: rest => p ++ sep ++ join sep rest
  end.

(** [int(x)] of a float: truncation towards zero. *)
Definition int_of_float (x : Q) : Z :=
  if Qle_bool 0 x then Qfloor x else Qceiling x.

(** Python truthiness of an [Optional[str]]: [None] and [""] are false. *)
Definition truthy (o : option string) : bool :=
  match o with
  | Some (String _ _) => true
  | _ => false
  end.

Definition LF : string := String (ascii_of_nat 10) "".

(** [s[n:]]. *)
Fixpoint drop_bytes (n : nat) (s : string) : string :=
  match n, s with
  | S n', String _ rest => drop_bytes n' rest
  | _, _ => s
  end.

(** [s[::-1]] on the bytes. *)
Fixpoint rev_bytes (s : string) : string :=
  match s with
  | EmptyString => EmptyString
  | String a rest => rev_bytes rest ++ String a EmptyString
  end.

Definition between (lo n hi : nat) : bool := (lo <=? n)%nat && (n <=? hi)%nat.

(** The code points [str.isspace] accepts, by the bytes [n m k] of their
    UTF-8 encoding: U+0009-000D, U+001C-0020; U+0085, U+00A0; U+1680,
    U+2000-200A, U+2028, U+2029, U+202F, U+205F, U+3000. *)
Definition space1 (n : nat) : bool := between 9 n 13 || between 28 n 32.

Definition space2 (n m : nat) : bool :=
  (n =? 194)%nat && ((m =? 133)%nat || (m =? 160)%nat).

Definition space3 (n m k : nat) : bool :=
  (n =? 225)%nat && (m =? 154)%nat && (k =? 128)%nat
  || (n =? 226)%nat && (m =? 128)%nat
     && (between 128 k 138 || (k =? 168)%nat || (k =? 169)%nat || (k =? 175)%nat)
  || (n =? 226)%nat && (m =? 129)%nat && (k =? 159)%nat
  || (n =? 227)%nat && (m =? 128)%nat && (k =? 128)%nat.

(** The number of bytes of the white-space character [s] starts with, 0
    when it starts with none.  With [backwards] the string is read from
    its end (it was reversed), so a character's bytes come last first. *)
Definition space_width (backwards : bool) (s : string) : nat :=
  match s with
  | String a rest =>
      let x := nat_of_ascii a in
      if space1 x then 1%nat
      else
        match rest with
        | String b rest2 =>
            let y := nat_of_ascii b in
            if (if backwards then space2 y x else space2 x y) then 2%nat
            else
              match rest2 with
              | String c _ =>
                  let z := nat_of_ascii c in
                  if (if backwards then space3 z y x else space3 x y z)
                  then 3%nat else 0%nat
              | EmptyString => 0%nat
              end
        | EmptyString => 0%nat
        end
  | EmptyString => 0%nat
  end.

(** Drop white space from the front, at most [fuel] characters of it. *)
Fixpoint lstrip_upto (fuel : nat) (backwards : bool) (s : string) : string :=
  match fuel with
  | O => s
  | S fuel' =>
      match space_width backwards s with
      | O => s
      | n => lstrip_upto fuel' backwards (drop_bytes n s)
      end
  end.

(** [s.strip()]. *)
Definition py_strip (s : string) : string :=
  let front := lstrip_upto (String.length s) false s in
  rev_bytes (lstrip_upto (String.length front) true (rev_bytes front)).

(** [sorted(items, key=...)]: Python's sort is stable, items with equal
    keys keep their order.  [le x y] says that [x] may stand before [y];
    for [reverse=True] it is the reversed comparison of the keys, under
    which equal items keep their order as well. *)
Section Sorting.
Context {A : Type} (le : A -> A -> bool).

Fixpoint insert_by (x : A) (l : list A) : list A :=
  match l with
  | [] => [x]
  | y :: l' => if le x y then x :: y :: l' else y :: insert_by x l'
  end.

Definition sort_by (l : list A) : list A := fold_right insert_by [] l.
End Sorting.

(** [items[k:]] with Python's reading of a negative [k]. *)
Definition slice_from {A : Type} (k : Z) (l : list A) : list A :=
  if k <? 0 then skipn (Z.to_nat (Z.of_nat (List.length l) + k)) l
  else skipn (Z.to_nat k) l.

(** [items[:k]], likewise. *)
Definition slice_to {A : Type} (k : Z) (l : list A) : list A :=
  if k <? 0 then firstn (Z.to_nat (Z.of_nat (List.length l) + k)) l
  else firstn (Z.to_nat k) l.

(** A Python [dict] with string keys: the items in insertion order.
    Assigning to a key that is present keeps its place. *)
Section Dict.
Context {V : Type}.

Fixpoint dict_get (k : string) (d : list (string * V)) : option V :=
  match d with
  | [] => None
  | (k', v) :: d' => if (k =? k')%string then Some v else dict_get k d'
  end.

Fixpoint dict_set (k : string) (v : V) (d : list (string * V))
  : list (string * V) :=
  match d with
  | [] => [(k, v)]
  | (k', v') :: d' =>
      if (k =? k')%string then (k, v) :: d' else (k', v') :: dict_set k v d'
  end.

Fixpoint dict_del (k : string) (d : list (string * V)) : list (string * V) :=
  match d with
  | [] => []
  | (k', v') :: d' =>
      if (k =? k')%string then d' else (k', v') :: dict_del k d'
  end.

Definition dict_has (k : string) (d : list (string * V)) : bool :=
  match dict_get k d with
  | Some _ => true
  | None => false
  end.
End Dict.

(** [x in xs] for a list of strings. *)
Definition str_in (x : string) (xs : list string) : bool :=
  existsb (String.eqb x) xs.

(** ** file_splitter.py *)

Module Splitter.

Inductive SplitStrategy : Type :=
| BY_PAGES | BY_SIZE | BY_MEMORY | INTELLIGENT | ADAPTIVE.

Record SplitConfig : Type := mkSplitConfig {
  strategy : SplitStrategy;
  max_pages_per_chunk : Z;
  max_size_per_chunk_mb : Z;
  max_memory_usage_mb : Z;
  min_pages_per_chunk : Z;
  overlap_pages : Z;
  preserve_structure : bool;
  parallel_processing : bool;
  max_parallel_chunks : Z
}.

Definition default_config : SplitConfig :=
  mkSplitConfig ADAPTIVE 50 100 512 5 0 true true 4.

Record ChunkInfo : Type := mkChunkInfo {
  chunk_id : string;
  start_page : Z;
  end_page : Z;
  page_count : Z;
  estimated_size_mb : Q;
  file_path : option string;
  status : string;
  ocr_result : option string;
  error_message : option string
}.

(** [ChunkInfo(chunk_id=..., start_page=..., end_page=..., page_count=...,
    estimated_size_mb=...)] with the dataclass defaults. *)
Definition new_chunk (id : string) (s e n : Z) (size : Q) : ChunkInfo :=
  mkChunkInfo id s e n size None "pending" None None.

(** The [analysis] dict of [analyze_pdf], the keys the planners read. *)
Record Analysis : Type := mkAnalysis {
  file_size_mb : Q;
  an_page_count : Z;
  avg_page_size_mb : Q;
  has_images : bool;
  estimated_memory_mb : Q
}.

(** [f"chunk_{chunk_id:03d}"]. *)
Definition chunk_name (n : Z) : string := "chunk_" ++ format_0d 3 n.

(** The [while start_page <= page_count] loop that [_split_by_pages],
    [_split_by_size] and [_split_by_memory] each contain, the same text in
    the three of them but for the name of the window ([max_pages],
    [pages_per_chunk], [safe_pages]).  [None]: the fuel ran out. *)
Fixpoint split_loop (fuel : nat) (window overlap pages : Z) (avg : Q)
    (start chunk_no : Z) : option (list ChunkInfo) :=
  if start <=? pages then
    match fuel with
    | O => None
    | S fuel' =>
        let end_ := Z.min (start + window - 1) pages in
        let actual_pages := end_ - start + 1 in
        let c := new_chunk (chunk_name chunk_no) start end_ actual_pages
                   (inject_Z actual_pages * avg)%Q in
        match split_loop fuel' window overlap pages avg
                (end_ + 1 - overlap) (chunk_no + 1) with
        | Some rest => Some (c :: rest)
        | None => None
        end
    end
  else Some [].

Definition _split_by_pages (fuel : nat) (cfg : SplitConfig) (a : Analysis)
  : option (list ChunkInfo) :=
  split_loop fuel (max_pages_per_chunk cfg) (overlap_pages cfg)
    (an_page_count a) (avg_page_size_mb a) 1 1.

(** [pages_per_chunk] of [_split_by_size]. *)
Definition pages_per_chunk (cfg : SplitConfig) (a : Analysis) : Z :=
  Z.max (min_pages_per_chunk cfg)
    (if Qlt_le_dec 0 (avg_page_size_mb a)
     then int_of_float (inject_Z (max_size_per_chunk_mb cfg) / avg_page_size_mb a)%Q
     else max_pages_per_chunk cfg).

Definition _split_by_size (fuel : nat) (cfg : SplitConfig) (a : Analysis)
  : option (list ChunkInfo) :=
  split_loop fuel (pages_per_chunk cfg a) (overlap_pages cfg)
    (an_page_count a) (avg_page_size_mb a) 1 1.

(** [safe_pages] of [_split_by_memory]. *)
Definition safe_pages (cfg : SplitConfig) (a : Analysis) : Z :=
  let memory_per_page :=
    if 0 <? an_page_count a
    then (estimated_memory_mb a / inject_Z (an_page_count a))%Q
    else 2%Q in
  Z.max (min_pages_per_chunk cfg)
    (if Qlt_le_dec 0 memory_per_page
     then int_of_float (inject_Z (max_memory_usage_mb cfg) / memory_per_page)%Q
     else 10).

Definition _split_by_memory (fuel : nat) (cfg : SplitConfig) (a : Analysis)
  : option (list ChunkInfo) :=
  split_loop fuel (safe_pages cfg a) (overlap_pages cfg)
    (an_page_count a) (avg_page_size_mb a) 1 1.

(** Consecutive chunks tile the pages [from .. to_]: each starts where the
    one before ended, none is empty, the last ends at [to_]. *)
Fixpoint tiles (from to_ : Z) (cs : list ChunkInfo) : Prop :=
  match cs with
  | [] => from = to_ + 1
  | c :: rest =>
      start_page c = from /\ start_page c <= end_page c /\ end_page c <= to_ /\
      tiles (end_page c + 1) to_ rest
  end.

(** Page [p] lies in chunk [c]. *)
Definition covers (c : ChunkInfo) (p : Z) : bool :=
  (start_page c <=? p) && (p <=? end_page c).

(** The ids are [chunk_name k], [chunk_name (k+1)], ... *)
Fixpoint numbered_from (k : Z) (cs : list ChunkInfo) : Prop :=
  match cs with
  | [] => True
  | c :: rest => chunk_id c = chunk_name k /\ numbered_from (k + 1) rest
  end.

(** [sorted(chunks, key=lambda x: x.chunk_id)]: strings compare byte by
    byte, which on UTF-8 is the order of the code points; chunks with the
    same id keep their order (the sort is stable). *)
Definition id_leb (c d : ChunkInfo) : bool :=
  (chunk_id c <=? chunk_id d)%string.

Definition sorted_by_id (chunks : list ChunkInfo) : list ChunkInfo :=
  sort_by id_leb chunks.

(** [c] may stand before [d] in the order of chunk ids. *)
Definition id_le (c d : ChunkInfo) : Prop := id_leb c d = true.

(** [chunk.status == "failed"]. *)
Definition has_failed_status (c : ChunkInfo) : bool :=
  (status c =? "failed")%string.

(** [chunk.status == "completed" and chunk.ocr_result]. *)
Definition succeeded (c : ChunkInfo) : bool :=
  (status c =? "completed")%string && truthy (ocr_result c).

(** The [elif chunk.status == "failed"] branch is taken. *)
Definition listed_failed (c : ChunkInfo) : bool :=
  negb (succeeded c) && (status c =? "failed")%string.

Definition result_text (c : ChunkInfo) : string :=
  match ocr_result c with
  | Some t => t
  | None => ""
  end.

(** The [for chunk in sorted_chunks] loop of [merge_ocr_results]:
    [(successful_results, failed_chunks)]. *)
Fixpoint collect (cs : list ChunkInfo) : list string * list string :=
  match cs with
  | [] => ([], [])
  | c :: rest =>
      let '(ok, failed) := collect rest in
      if succeeded c then (result_text c :: ok, failed)
      else if (status c =? "failed")%string then (ok, chunk_id c :: failed)
      else (ok, failed)
  end.

(** [f"\n\n---\n\n# 文档段落 {i + 1}\n\n"]. *)
Definition section_header (i : nat) : string :=
  LF ++ LF ++ "---" ++ LF ++ LF ++ "# 文档段落 " ++ str_of_int (Z.of_nat i + 1)
  ++ LF ++ LF.

(** The [for i, result in enumerate(results)] loop of [_intelligent_merge],
    [many] being [len(results) > 1]. *)
Fixpoint merged_sections (many : bool) (i : nat) (results : list string)
  : list string :=
  match results with
  | [] => []
  | r :: rest =>
      (if many then section_header i ++ py_strip r else py_strip r)
      :: merged_sections many (S i) rest
  end.

Definition summary (results failed_chunks : list string) : string :=
  LF ++ LF ++ "---" ++ LF ++ LF ++ "## 处理摘要" ++ LF ++ LF
  ++ "- 成功处理段落: " ++ str_of_int (Z.of_nat (List.length results)) ++ LF
  ++ "- 失败段落: " ++ str_of_int (Z.of_nat (List.length failed_chunks)) ++ LF
  ++ "- 失败的段落ID: " ++ join ", " failed_chunks ++ LF.

Definition _intelligent_merge (results failed_chunks : list string) : string :=
  let merged_content :=
    join "" (merged_sections (1 <? List.length results)%nat 0 results) in
  match failed_chunks with
  | [] => merged_content
  | _ :: _ => merged_content ++ summary results failed_chunks
  end.

Definition merge_ocr_results (chunks : list ChunkInfo) (preserve : bool)
  : Result string :=
  match chunks with
  | [] => Ok ""
  | _ :: _ =>
      let sorted_chunks := sorted_by_id chunks in
      let '(successful_results, failed_chunks) := collect sorted_chunks in
      match successful_results with
      | [] => Raise "没有成功的OCR结果可以合并"
      | _ :: _ =>
          Ok (if preserve
              then _intelligent_merge successful_results failed_chunks
              else join (LF ++ LF) successful_results)
      end
  end.

(** [needle in haystack] for strings. *)
Definition occurs_in (needle haystack : string) : Prop :=
  exists before after, haystack = before ++ needle ++ after.

(** The chunks of the specification's merge example, in insertion order. *)
Definition merge_example : list ChunkInfo :=
  [ mkChunkInfo "chunk_002" 51 100 50 1 None "completed" (Some "B") None;
    mkChunkInfo "chunk_001" 1 50 50 1 None "completed" (Some "A") None;
    mkChunkInfo "chunk_003" 101 150 50 1 None "failed" None (Some "timeout") ].

(** What a plan shows of each chunk: id, first page, last page. *)
Definition plan_rows (cs : list ChunkInfo) : list (string * Z * Z) :=
  map (fun c => (chunk_id c, start_page c, end_page c)) cs.

(** A 237-page document of 10 MB. *)
Definition analysis_237 : Analysis :=
  mkAnalysis 10 237 (10 # 237) false 524.

(** A 10-page document of 1 MB, and a configuration asking for windows of
    five pages that overlap by two. *)
Definition analysis_10 : Analysis :=
  mkAnalysis 1 10 (1 # 10) false 70.

Definition overlap_config : SplitConfig :=
  mkSplitConfig BY_PAGES 5 100 512 5 2 true true 4.

(** *** Analysis of a PDF and the choice of a plan *)

(** [x > y] on floats. *)
Definition Qgtb (x y : Q) : bool := negb (Qle_bool x y).

(** A page as [_detect_images] reads it: [None] when [page['/Resources']]
    raises; otherwise [None] when the resources hold no ['/XObject'], else
    the ['/Subtype'] of each object there ([None] where that lookup
    raises). *)
Definition PdfPage : Type := option (option (list (option string))).

(** A PDF a [PdfReader] opens: the size of the file in bytes and its
    pages. *)
Record Pdf : Type := mkPdf {
  pdf_size : Z;
  pdf_pages : list PdfPage
}.

(** [for obj in xobjects]: the images counted, [None] when a lookup
    raised. *)
Fixpoint count_images (objs : list (option string)) : option Z :=
  match objs with
  | [] => Some 0
  | None :: _ => None
  | Some subtype :: rest =>
      match count_images rest with
      | Some n => Some (if (subtype =? "/Image")%string then n + 1 else n)
      | None => None
      end
  end.

(** [for i in range(sample_pages)] over the pages sampled. *)
Fixpoint images_on (pages : list PdfPage) : option Z :=
  match pages with
  | [] => Some 0
  | None :: _ => None
  | Some None :: rest => images_on rest
  | Some (Some objs) :: rest =>
      match count_images objs, images_on rest with
      | Some a, Some b => Some (a + b)
      | _, _ => None
      end
  end.

(** [_detect_images]: any exception, the division by zero of a document
    without pages among them, gives [False]. *)
Definition _detect_images (pages : list PdfPage) : bool :=
  let sample_pages := Z.min 5 (Z.of_nat (List.length pages)) in
  match images_on (firstn (Z.to_nat sample_pages) pages) with
  | Some image_count =>
      if sample_pages =? 0 then false
      else Qgtb (inject_Z image_count / inject_Z sample_pages) 2
  | None => false
  end.

(** [_estimate_memory_usage]. *)
Definition _estimate_memory_usage (pages : list PdfPage) : Z :=
  let page_count := Z.of_nat (List.length pages) in
  let base_memory := 50 in
  let memory_per_page := 2 in
  let total_memory := base_memory + page_count * memory_per_page in
  Z.min total_memory 2048.

Definition _should_split (cfg : SplitConfig) (file_size_mb : Q) (page_count : Z)
    (estimated_memory_mb : Q) : bool :=
  Qgtb file_size_mb (inject_Z (max_size_per_chunk_mb cfg))
  || (max_pages_per_chunk cfg <? page_count)
  || Qgtb estimated_memory_mb (inject_Z (max_memory_usage_mb cfg)).

Definition _recommend_strategy (cfg : SplitConfig) (file_size_mb : Q)
    (page_count : Z) (estimated_memory_mb : Q) (has_images : bool) : SplitStrategy :=
  if Qgtb estimated_memory_mb (inject_Z (max_memory_usage_mb cfg * 2)) then BY_MEMORY
  else if has_images then BY_SIZE
  else if 200 <? page_count then BY_PAGES
  else ADAPTIVE.

(** The [analysis] dict in full: the numbers the planners read, and the
    two keys [create_split_plan] reads ([recommended_strategy] is [None]
    when a caller's dict lacks the key). *)
Record AnalysisDict : Type := mkAnalysisDict {
  numbers : Analysis;
  needs_splitting : bool;
  recommended_strategy : option SplitStrategy
}.

(** [analyze_pdf] of a PDF that the reader opens. *)
Definition analyze_pdf (cfg : SplitConfig) (pdf : Pdf) : AnalysisDict :=
  let file_size_mb := (inject_Z (pdf_size pdf) / inject_Z (1024 * 1024))%Q in
  let page_count := Z.of_nat (List.length (pdf_pages pdf)) in
  let avg_page_size_mb :=
    if 0 <? page_count then (file_size_mb / inject_Z page_count)%Q else 0%Q in
  let has_images := _detect_images (pdf_pages pdf) in
  let estimated_memory_mb := inject_Z (_estimate_memory_usage (pdf_pages pdf)) in
  mkAnalysisDict
    (mkAnalysis file_size_mb page_count avg_page_size_mb has_images
       estimated_memory_mb)
    (_should_split cfg file_size_mb page_count estimated_memory_mb)
    (Some (_recommend_strategy cfg file_size_mb page_count estimated_memory_mb
             has_images)).

Definition _split_adaptively (fuel : nat) (cfg : SplitConfig) (a : Analysis)
  : option (list ChunkInfo) :=
  if has_images a && Qgtb (file_size_mb a) 200 then _split_by_size fuel cfg a
  else if 100 <? an_page_count a then _split_by_pages fuel cfg a
  else _split_by_memory fuel cfg a.

Definition _split_intelligently (fuel : nat) (cfg : SplitConfig) (a : Analysis)
  : option (list ChunkInfo) :=
  _split_adaptively fuel cfg a.

(** [create_split_plan(pdf_path, analysis)]; [analysis] is [None] when the
    caller passes none. *)
Definition create_split_plan (fuel : nat) (cfg : SplitConfig) (pdf : Pdf)
    (analysis : option AnalysisDict) : option (list ChunkInfo) :=
  let analysis :=
    match analysis with
    | None => analyze_pdf cfg pdf
    | Some a => a
    end in
  let a := numbers analysis in
  if negb (needs_splitting analysis) then
    Some [new_chunk "chunk_001" 1 (an_page_count a) (an_page_count a)
            (file_size_mb a)]
  else
    let strategy :=
      match recommended_strategy analysis with
      | Some s => s
      | None => strategy cfg
      end in
    match strategy with
    | BY_PAGES => _split_by_pages fuel cfg a
    | BY_SIZE => _split_by_size fuel cfg a
    | BY_MEMORY => _split_by_memory fuel cfg a
    | INTELLIGENT => _split_intelligently fuel cfg a
    | ADAPTIVE => _split_adaptively fuel cfg a
    end.

(** The configuration with another [strategy]. *)
Definition with_strategy (cfg : SplitConfig) (s : SplitStrategy) : SplitConfig :=
  mkSplitConfig s (max_pages_per_chunk cfg) (max_size_per_chunk_mb cfg)
    (max_memory_usage_mb cfg) (min_pages_per_chunk cfg) (overlap_pages cfg)
    (preserve_structure cfg) (parallel_processing cfg) (max_parallel_chunks cfg).

(** What a plan is asked to be: the chunks tile the pages [1 .. n], each
    records its own length, and the ids count up from [chunk_001]. *)
Definition well_formed_plan (n : Z) (cs : list ChunkInfo) : Prop :=
  tiles 1 n cs /\
  Forall (fun c => page_count c = end_page c - start_page c + 1) cs /\
  numbered_from 1 cs.

(** The plan a window of [w] pages gives for [n] pages, in closed form:
    chunk [i] (from 0) is named [i + 1], runs from page [1 + i * w] to page
    [min((i + 1) * w, n)], and its size is estimated from its length. *)
Definition windows_of (w n : Z) (avg : Q) (cs : list ChunkInfo) : Prop :=
  Z.of_nat (List.length cs) = (n + w - 1) / w /\
  forall (i : nat) (c : ChunkInfo),
    nth_error cs i = Some c ->
    chunk_id c = chunk_name (Z.of_nat i + 1) /\
    start_page c = 1 + Z.of_nat i * w /\
    end_page c = Z.min ((Z.of_nat i + 1) * w) n /\
    page_count c = end_page c - start_page c + 1 /\
    estimated_size_mb c = (inject_Z (page_count c) * avg)%Q.

(** A PDF of [n] pages without images, [size] bytes long. *)
Definition plain_pdf (n : nat) (size : Z) : Pdf :=
  mkPdf size (repeat (Some None) n).

End Splitter.

(** ** backend.py: the plan of a task *)

Module Backend.
Import Splitter.

(** [task.split_config], the dict made from a [SplitConfigRequest]. *)
Record SplitConfigRequest : Type := mkSplitConfigRequest {
  rq_strategy : SplitStrategy;
  rq_max_pages_per_chunk : Z;
  rq_max_size_per_chunk_mb : Z;
  rq_max_memory_usage_mb : Z;
  rq_enable_parallel : bool;
  rq_preserve_structure : bool
}.

(** The [SplitConfig(...)] that [process_with_splitting] builds: the keys
    it does not pass keep the dataclass defaults. *)
Definition split_config_of (rq : SplitConfigRequest) : SplitConfig :=
  mkSplitConfig (rq_strategy rq) (rq_max_pages_per_chunk rq)
    (rq_max_size_per_chunk_mb rq) (rq_max_memory_usage_mb rq) 5 0
    (rq_preserve_structure rq) (rq_enable_parallel rq) 4.

(** The [for chunk in chunks] loop of [process_with_splitting]: each chunk
    cut down to the requested pages, dropped when nothing of it is left.
    The division raises when a chunk that is kept has [page_count] 0. *)
Fixpoint filtered_chunks (chunks : list ChunkInfo) (start_page_ end_page_ : Z)
  : Result (list ChunkInfo) :=
  match chunks with
  | [] => Ok []
  | chunk :: rest =>
      let chunk_start := Z.max (start_page chunk) start_page_ in
      let chunk_end := Z.min (end_page chunk) end_page_ in
      if chunk_start <=? chunk_end then
        if page_count chunk =? 0 then Raise "ZeroDivisionError"
        else
          let c :=
            new_chunk (chunk_id chunk) chunk_start chunk_end
              (chunk_end - chunk_start + 1)
              (estimated_size_mb chunk * inject_Z (chunk_end - chunk_start + 1)
               / inject_Z (page_count chunk))%Q in
          match filtered_chunks rest start_page_ end_page_ with
          | Ok cs => Ok (c :: cs)
          | Raise e => Raise e
          end
      else filtered_chunks rest start_page_ end_page_
  end.

(** [process_with_splitting] up to [task.chunks = filtered_chunks] and the
    check that follows: the chunks the task will process.  [None]: the
    planning loop did not end within [fuel] turns. *)
Definition task_chunks (fuel : nat) (rq : SplitConfigRequest) (pdf : Pdf)
    (start_page_ end_page_ : Z) : option (Result (list ChunkInfo)) :=
  let config := split_config_of rq in
  let analysis := analyze_pdf config pdf in
  match create_split_plan fuel config pdf (Some analysis) with
  | None => None
  | Some chunks =>
      match filtered_chunks chunks start_page_ end_page_ with
      | Raise e => Some (Raise e)
      | Ok [] => Some (Raise "没有需要处理的页面")
      | Ok cs => Some (Ok cs)
      end
  end.

End Backend.
(** ** cache_manager.py *)

Module Cache.

Inductive CacheStatus : Type :=
| PENDING | PROCESSING | COMPLETED | FAILED | EXPIRED | CORRUPTED.

Definition status_eqb (a b : CacheStatus) : bool :=
  match a, b with
  | PENDING, PENDING | PROCESSING, PROCESSING | COMPLETED, COMPLETED
  | FAILED, FAILED | EXPIRED, EXPIRED | CORRUPTED, CORRUPTED => true
  | _, _ => false
  end.

(** A processing configuration, [Dict[str, Any]]: the keys with their
    values as JSON text. *)
Definition Config : Type := list (string * string).

Record CacheMetadata : Type := mkCacheMetadata {
  file_path : string;
  file_hash : string;
  file_size : Z;
  file_mtime : Q;
  cache_key : string;
  md_cache_version : string;
  created_time : Z;
  last_accessed : Z;
  access_count : Z;
  processing_config : Config;
  ocr_service : string;
  terminology_hash : string;
  page_range : Z * Z;
  status : CacheStatus;
  error_message : option string;
  retry_count : Z;
  max_retries : Z;
  processing_time : Q;
  output_size : Z
}.

Record CacheConfig : Type := mkCacheConfig {
  cache_dir : string;
  max_cache_size_gb : Q;
  max_cache_age_days : Z;
  max_entries : Z;
  cleanup_interval_hours : Z;
  enable_compression : bool;
  cache_version : string;
  auto_cleanup : bool;
  preserve_recent : Z
}.

Definition default_config : CacheConfig :=
  mkCacheConfig "cache" 5 30 1000 24 true "v1.0" true 100.

(** What [Path.stat()] reports of a file, the two fields the cache reads. *)
Record Stat : Type := mkStat {
  st_size : Z;
  st_mtime : Q
}.

(** A source file as the file system answers for its path: [stat] is
    [None] when the file does not exist ([Path.stat()] raises), [head] is
    what reading its first MiB returns, [None] when the read fails. *)
Record SourceFile : Type := mkSourceFile {
  path : string;
  name : string;
  stat : option Stat;
  head : option string
}.

(** A payload file under [cache/data]: the text unpickling it returns
    ([None] when unpickling fails) and its size in bytes. *)
Record Payload : Type := mkPayload {
  content : option string;
  size_on_disk : Z
}.

(** The manager: its configuration, [self.metadata], and the payload files
    on disk by cache key. *)
Record CacheManager : Type := mkCacheManager {
  config : CacheConfig;
  metadata : list (string * CacheMetadata);
  payloads : list (string * Payload)
}.

Definition with_metadata (m : CacheManager) (md : list (string * CacheMetadata))
  : CacheManager :=
  mkCacheManager (config m) md (payloads m).

Definition with_payloads (m : CacheManager) (ps : list (string * Payload))
  : CacheManager :=
  mkCacheManager (config m) (metadata m) ps.

(** [timedelta(days=d)] in microseconds. *)
Definition days (d : Z) : Z := d * 86400 * 1000000.

(** The [stats] dict of [cleanup]. *)
Record Stats : Type := mkStats {
  removed_expired : Z;
  removed_corrupted : Z;
  removed_old : Z;
  removed_failed : Z;
  total_removed : Z;
  bytes_freed : Z
}.

Definition set_status (s : CacheStatus) (md : CacheMetadata) : CacheMetadata :=
  mkCacheMetadata (file_path md) (file_hash md) (file_size md) (file_mtime md)
    (cache_key md) (md_cache_version md) (created_time md) (last_accessed md)
    (access_count md) (processing_config md) (ocr_service md)
    (terminology_hash md) (page_range md) s (error_message md)
    (retry_count md) (max_retries md) (processing_time md) (output_size md).

(** [metadata.last_accessed = now; metadata.access_count += 1]. *)
Definition touch (now : Z) (md : CacheMetadata) : CacheMetadata :=
  mkCacheMetadata (file_path md) (file_hash md) (file_size md) (file_mtime md)
    (cache_key md) (md_cache_version md) (created_time md) now
    (access_count md + 1) (processing_config md) (ocr_service md)
    (terminology_hash md) (page_range md) (status md) (error_message md)
    (retry_count md) (max_retries md) (processing_time md) (output_size md).

(** [status = FAILED; error_message = msg; retry_count += 1]. *)
Definition fail_with (msg : string) (md : CacheMetadata) : CacheMetadata :=
  mkCacheMetadata (file_path md) (file_hash md) (file_size md) (file_mtime md)
    (cache_key md) (md_cache_version md) (created_time md) (last_accessed md)
    (access_count md) (processing_config md) (ocr_service md)
    (terminology_hash md) (page_range md) FAILED (Some msg)
    (retry_count md + 1) (max_retries md) (processing_time md) (output_size md).

(** The library functions the manager calls are parameters of the model:
    nothing below depends on what they compute. *)
Section Manager.

(** [hashlib.md5(data).hexdigest()] and [hashlib.sha256(data).hexdigest()]. *)
Variable md5 : string -> string.
Variable sha256 : string -> string.
(** How an f-string writes a float. *)
Variable str_float : Q -> string.
(** [json.dumps(config, sort_keys=True)]. *)
Variable json_config : Config -> string.
(** [json.dumps(key_data, sort_keys=True)] of the six entries [file_hash],
    [config], [ocr_service], [terminology], [page_range], [version]. *)
Variable json_key_data :
  string -> string -> string -> string -> Z * Z -> string -> string.
(** The size of the payload file that pickling (and compressing, when
    [compress] is set) a result writes. *)
Variable stored_size : bool -> string -> Z.
(** [len(result.encode('utf-8'))]. *)
Definition utf8_len (s : string) : Z := Z.of_nat (String.length s).

Definition _calculate_file_hash (f : SourceFile) : Result string :=
  match stat f with
  | None => Raise "FileNotFoundError"
  | Some st =>
      let file_info :=
        name f ++ ":" ++ str_of_int (st_size st) ++ ":" ++ str_float (st_mtime st) in
      match head f with
      | Some chunk => Ok (md5 (file_info ++ chunk))
      | None => Ok (md5 file_info)
      end
  end.

Definition _generate_cache_key (cfg : CacheConfig) (f : SourceFile)
    (conf : Config) (service terminology : string) (pages : Z * Z)
  : Result string :=
  match _calculate_file_hash f with
  | Raise e => Raise e
  | Ok fh =>
      let config_str := match conf with [] => "" | _ :: _ => json_config conf end in
      let th := md5 terminology in
      Ok (sha256 (json_key_data fh config_str service th pages (cache_version cfg)))
  end.

Definition _is_expired (cfg : CacheConfig) (now : Z) (md : CacheMetadata) : bool :=
  days (max_cache_age_days cfg) <? now - created_time md.

(** [abs(a - b) > 1] on floats. *)
Definition differs_by_more_than_1 (a b : Q) : bool :=
  negb (Qle_bool (Qabs (a - b)) 1).

Definition has_cache (m : CacheManager) (now : Z) (f : SourceFile)
    (conf : Config) (service terminology : string) (pages : Z * Z)
  : Result bool :=
  match _generate_cache_key (config m) f conf service terminology pages with
  | Raise e => Raise e
  | Ok key =>
      match dict_get key (metadata m) with
      | None => Ok false
      | Some md =>
          if negb (status_eqb (status md) COMPLETED) then Ok false
          else
            match stat f with
            | None => Ok false
            | Some st =>
                if negb (st_size st =? file_size md)
                   || differs_by_more_than_1 (st_mtime st) (file_mtime md)
                then Ok false
                else if negb (dict_has key (payloads m)) then Ok false
                else if _is_expired (config m) now md then Ok false
                else Ok true
            end
      end
  end.

Definition get_cache (m : CacheManager) (now : Z) (f : SourceFile)
    (conf : Config) (service terminology : string) (pages : Z * Z)
  : Result (option string * CacheManager) :=
  match has_cache m now f conf service terminology pages with
  | Raise e => Raise e
  | Ok false => Ok (None, m)
  | Ok true =>
      match _generate_cache_key (config m) f conf service terminology pages with
      | Raise e => Raise e
      | Ok key =>
          match dict_get key (payloads m) with
          | Some (mkPayload (Some result) _) =>
              match dict_get key (metadata m) with
              | Some md =>
                  Ok (Some result,
                      with_metadata m (dict_set key (touch now md) (metadata m)))
              | None => Ok (None, m)
              end
          | _ =>
              match dict_get key (metadata m) with
              | Some md =>
                  Ok (None,
                      with_metadata m (dict_set key (set_status CORRUPTED md) (metadata m)))
              | None => Ok (None, m)
              end
          end
      end
  end.

(** Ascending and descending order of [last_accessed], for [sorted]. *)
Definition older_first (a b : string * CacheMetadata) : bool :=
  last_accessed (snd a) <=? last_accessed (snd b).

Definition newer_first (a b : string * CacheMetadata) : bool :=
  last_accessed (snd b) <=? last_accessed (snd a).

(** [if cache_path.exists(): cache_path.unlink()] and
    [del self.metadata[cache_key]]. *)
Definition drop_entry (m : CacheManager) (key : string) : CacheManager :=
  mkCacheManager (config m) (dict_del key (metadata m)) (dict_del key (payloads m)).

(** [_cleanup_old_entries]; the flag tells that [sorted_items[i]] raised
    [IndexError] (more removals asked for than there are entries). *)
Definition _cleanup_old_entries (m : CacheManager) : CacheManager * bool :=
  let n := Z.of_nat (List.length (metadata m)) in
  if n <=? max_entries (config m) then (m, false)
  else
    let sorted_items := sort_by older_first (metadata m) in
    let remove_count := n - max_entries (config m) in
    let victims := firstn (Z.to_nat remove_count) sorted_items in
    (fold_left drop_entry (map fst victims) m, n <? remove_count).

Definition new_metadata (cfg : CacheConfig) (now : Z) (f : SourceFile) (st : Stat)
    (fh key : string) (conf : Config) (service terminology : string)
    (pages : Z * Z) (s : CacheStatus) (time : Q) (size : Z) : CacheMetadata :=
  mkCacheMetadata (path f) fh (st_size st) (st_mtime st) key (cache_version cfg)
    now now 0 conf service (md5 terminology) pages s None 0 3 time size.

Definition set_cache (m : CacheManager) (now : Z) (f : SourceFile)
    (conf : Config) (service terminology : string) (pages : Z * Z)
    (result : string) (time : Q) : bool * CacheManager :=
  match _generate_cache_key (config m) f conf service terminology pages with
  | Raise _ => (false, m)
  | Ok key =>
      let written :=
        dict_set key
          (mkPayload (Some result) (stored_size (enable_compression (config m)) result))
          (payloads m) in
      match stat f, _calculate_file_hash f with
      | Some st, Ok fh =>
          let md := new_metadata (config m) now f st fh key conf service
                      terminology pages COMPLETED time (utf8_len result) in
          let m1 := mkCacheManager (config m) (dict_set key md (metadata m)) written in
          if max_entries (config m) <? Z.of_nat (List.length (metadata m1)) then
            let '(m2, raised) := _cleanup_old_entries m1 in
            (negb raised, m2)
          else (true, m1)
      | _, _ => (false, with_payloads m written)
      end
  end.

Definition mark_processing (m : CacheManager) (now : Z) (f : SourceFile)
    (conf : Config) (service terminology : string) (pages : Z * Z)
  : Result (string * CacheManager) :=
  match _generate_cache_key (config m) f conf service terminology pages with
  | Raise e => Raise e
  | Ok key =>
      match stat f, _calculate_file_hash f with
      | Some st, Ok fh =>
          let md := new_metadata (config m) now f st fh key conf service
                      terminology pages PROCESSING 0 0 in
          Ok (key, with_metadata m (dict_set key md (metadata m)))
      | _, Raise e => Raise e
      | None, _ => Raise "FileNotFoundError"
      end
  end.

Definition mark_failed (m : CacheManager) (key msg : string) : CacheManager :=
  match dict_get key (metadata m) with
  | Some md => with_metadata m (dict_set key (fail_with msg md) (metadata m))
  | None => m
  end.

Definition can_retry (m : CacheManager) (key : string) : bool :=
  match dict_get key (metadata m) with
  | None => true
  | Some md => retry_count md <? max_retries md
  end.

(** Why the first loop of [cleanup] removes an entry, if it does. *)
Inductive Reason : Type := Expired | Missing | Failed | Corrupted.

Definition verdict (m : CacheManager) (now : Z) (item : string * CacheMetadata)
  : option Reason :=
  let '(key, md) := item in
  if _is_expired (config m) now md then Some Expired
  else if negb (dict_has key (payloads m)) then Some Missing
  else if status_eqb (status md) CORRUPTED || status_eqb (status md) FAILED then
    if status_eqb (status md) FAILED && (max_retries md <=? retry_count md)
    then Some Failed
    else if status_eqb (status md) CORRUPTED then Some Corrupted
    else None
  else None.

Definition count (r : Reason) (s : Stats) : Stats :=
  match r with
  | Expired =>
      mkStats (removed_expired s + 1) (removed_corrupted s) (removed_old s)
        (removed_failed s) (total_removed s) (bytes_freed s)
  | Missing | Corrupted =>
      mkStats (removed_expired s) (removed_corrupted s + 1) (removed_old s)
        (removed_failed s) (total_removed s) (bytes_freed s)
  | Failed =>
      mkStats (removed_expired s) (removed_corrupted s) (removed_old s)
        (removed_failed s + 1) (total_removed s) (bytes_freed s)
  end.

Definition add_bytes (n : Z) (s : Stats) : Stats :=
  mkStats (removed_expired s) (removed_corrupted s) (removed_old s)
    (removed_failed s) (total_removed s) (bytes_freed s + n).

Definition add_old (n : Z) (s : Stats) : Stats :=
  mkStats (removed_expired s) (removed_corrupted s) (removed_old s + n)
    (removed_failed s) (total_removed s) (bytes_freed s).

Definition add_total (n : Z) (s : Stats) : Stats :=
  mkStats (removed_expired s) (removed_corrupted s) (removed_old s)
    (removed_failed s) (total_removed s + n) (bytes_freed s).

(** The first loop of [cleanup] removes the item: it is expired, its
    payload is missing, it is corrupted, or it failed with its retries
    used up. *)
Definition doomed (m : CacheManager) (now : Z) (item : string * CacheMetadata)
  : bool :=
  match verdict m now item with
  | Some _ => true
  | None => false
  end.

(** The entries that the first loop of [cleanup] lets stand. *)
Definition remaining (m : CacheManager) (now : Z) : list (string * CacheMetadata) :=
  filter (fun item => negb (doomed m now item)) (metadata m).

(** How many entries of [l] were accessed at least as recently as [e]
    ([e] itself counts when it is in [l]). *)
Definition as_recent_as (e : string * CacheMetadata)
    (l : list (string * CacheMetadata)) : nat :=
  List.length (filter (fun x => last_accessed (snd e) <=? last_accessed (snd x)) l).

Definition no_stats : Stats := mkStats 0 0 0 0 0 0.

(** One turn of [for cache_key, metadata in self.metadata.items()]. *)
Definition examine (m : CacheManager) (now : Z)
    (acc : list string * Stats) (item : string * CacheMetadata)
  : list string * Stats :=
  let '(to_remove, stats) := acc in
  match verdict m now item with
  | None => acc
  | Some r =>
      let freed :=
        match dict_get (fst item) (payloads m) with
        | Some p => size_on_disk p
        | None => 0
        end in
      ((to_remove ++ [fst item])%list, add_bytes freed (count r stats))
  end.

(** The entries the first loop of [cleanup] lets stand. *)
Definition survivors (m : CacheManager) (to_remove : list string)
  : list (string * CacheMetadata) :=
  filter (fun item => negb (str_in (fst item) to_remove)) (metadata m).

Definition cleanup (m : CacheManager) (now : Z) : Stats * CacheManager :=
  let '(to_remove, stats) :=
    fold_left (examine m now) (metadata m) ([], no_stats) in
  let remaining_items :=
    Z.of_nat (List.length (metadata m)) - Z.of_nat (List.length to_remove) in
  let '(to_remove, stats) :=
    if max_entries (config m) <? remaining_items then
      let sorted_items := sort_by newer_first (survivors m to_remove) in
      let keep_count := Z.min (max_entries (config m)) (preserve_recent (config m)) in
      let old := map fst (slice_from keep_count sorted_items) in
      ((to_remove ++ old)%list, add_old (Z.of_nat (List.length old)) stats)
    else (to_remove, stats) in
  (add_total (Z.of_nat (List.length to_remove)) stats,
   fold_left drop_entry to_remove m).

End Manager.

(** Stand-ins for the library functions, to run the model on examples: the
    text itself in place of its digest, plain separators in place of JSON. *)
Definition toy_hash (s : string) : string := s.

Definition toy_float (q : Q) : string :=
  str_of_int (Qnum q) ++ "/" ++ str_of_int (Zpos (Qden q)).

Definition toy_json_config (conf : Config) : string :=
  join ";" (map (fun kv => fst kv ++ "=" ++ snd kv) conf).

Definition toy_json_key_data (fh conf service th : string) (pages : Z * Z)
    (version : string) : string :=
  join "|" [fh; conf; service; th; str_of_int (fst pages); str_of_int (snd pages);
            version].

Definition toy_stored_size (compress : bool) (s : string) : Z :=
  Z.of_nat (String.length s).

(** A PDF of 2048 bytes, last modified at second 1000, and the same file
    after its modification time moved on by two seconds. *)
Definition report_pdf : SourceFile :=
  mkSourceFile "input/report.pdf" "report.pdf" (Some (mkStat 2048 1000)) (Some "%PDF-1.7").

Definition report_pdf_touched : SourceFile :=
  mkSourceFile "input/report.pdf" "report.pdf" (Some (mkStat 2048 1002)) (Some "%PDF-1.7").

Definition empty_manager : CacheManager := mkCacheManager default_config [] [].

(** A manager holding [n] completed entries [e1 .. en] with their payloads,
    entry [ei] created at time 0 and last accessed at time [i]. *)
Definition numbered_entry (i : nat) : string * CacheMetadata :=
  let key := "e" ++ str_of_int (Z.of_nat i) in
  (key,
   mkCacheMetadata ("doc" ++ str_of_int (Z.of_nat i) ++ ".pdf") key 1000 0 key "v1.0"
     0 (Z.of_nat i) 0 [] "dashscope" "" (1, 3) COMPLETED None 0 3 0 4).

Definition numbered_manager_with (cfg : CacheConfig) (n : nat) : CacheManager :=
  mkCacheManager cfg
    (map numbered_entry (seq 1 n))
    (map (fun i => (fst (numbered_entry i), mkPayload (Some "text") 40)) (seq 1 n)).

Definition numbered_manager (n : nat) : CacheManager :=
  numbered_manager_with default_config n.

(** The manager after [set_cache] has stored a result for each of the
    files [doc1.pdf .. docn.pdf], the [i]-th at second [i] (with the
    stand-ins for the digests). *)
Definition numbered_file (i : nat) : SourceFile :=
  let name := "doc" ++ str_of_int (Z.of_nat i) ++ ".pdf" in
  mkSourceFile ("input/" ++ name) name (Some (mkStat 2048 1000)) (Some "%PDF-1.7").

Definition store_numbered (m : CacheManager) (i : nat) : CacheManager :=
  snd (set_cache toy_hash toy_hash toy_float toy_json_config toy_json_key_data
         toy_stored_size m (Z.of_nat i * 1000000) (numbered_file i) [] "dashscope"
         "" (1, 3) "text" 0).

Definition filled_by_set_cache (n : nat) : CacheManager :=
  fold_left store_numbered (seq 1 n) empty_manager.

(** A small configuration: at most three entries, two of them protected. *)
Definition small_config : CacheConfig :=
  mkCacheConfig "cache" 5 30 3 24 true "v1.0" true 2.

(** *** Statistics *)

(** [status.value]. *)
Definition status_value (s : CacheStatus) : string :=
  match s with
  | PENDING => "pending"
  | PROCESSING => "processing"
  | COMPLETED => "completed"
  | FAILED => "failed"
  | EXPIRED => "expired"
  | CORRUPTED => "corrupted"
  end.

(** The dict [get_stats] returns; the two dates as the [datetime] values
    whose [isoformat()] it holds, [None] for an empty cache. *)
Record CacheStats : Type := mkCacheStats {
  total_entries : Z;
  total_size_mb : Q;
  status_counts : list (string * Z);
  oldest_cache : option Z;
  newest_cache : option Z;
  total_processing_time : Q;
  total_access_count : Z;
  stats_config : CacheConfig
}.

(** The running values of the loop of [get_stats]. *)
Record Tally : Type := mkTally {
  t_size : Z;
  t_counts : list (string * Z);
  t_oldest : option Z;
  t_newest : option Z;
  t_time : Q;
  t_access : Z
}.

(** [counts.get(key, 0)]. *)
Definition counts_get (key : string) (counts : list (string * Z)) : Z :=
  match dict_get key counts with
  | Some n => n
  | None => 0
  end.

(** One turn of [for metadata in self.metadata.values()].  The payload is
    looked up under the key the entry records of itself. *)
Definition tally (m : CacheManager) (acc : Tally) (md : CacheMetadata) : Tally :=
  let total_size :=
    match dict_get (cache_key md) (payloads m) with
    | Some p => t_size acc + size_on_disk p
    | None => t_size acc
    end in
  let status := status_value (status md) in
  let counted := counts_get status (t_counts acc) in
  let oldest :=
    match t_oldest acc with
    | None => Some (created_time md)
    | Some o => if created_time md <? o then Some (created_time md) else Some o
    end in
  let newest :=
    match t_newest acc with
    | None => Some (created_time md)
    | Some n => if n <? created_time md then Some (created_time md) else Some n
    end in
  mkTally total_size (dict_set status (counted + 1) (t_counts acc)) oldest newest
    (t_time acc + processing_time md)%Q (t_access acc + access_count md).

Definition get_stats (m : CacheManager) : CacheStats :=
  let t := fold_left (tally m) (map snd (metadata m)) (mkTally 0 [] None None 0 0) in
  mkCacheStats (Z.of_nat (List.length (metadata m)))
    (inject_Z (t_size t) / 1024 / 1024)%Q (t_counts t) (t_oldest t) (t_newest t)
    (t_time t) (t_access t) (config m).

(** The manager under another [max_cache_size_gb]. *)
Definition with_size_limit (m : CacheManager) (gb : Q) : CacheManager :=
  mkCacheManager
    (mkCacheConfig (cache_dir (config m)) gb (max_cache_age_days (config m))
       (max_entries (config m)) (cleanup_interval_hours (config m))
       (enable_compression (config m)) (cache_version (config m))
       (auto_cleanup (config m)) (preserve_recent (config m)))
    (metadata m) (payloads m).

(** The sum of the values of a dict of counts. *)
Definition sum_counts (d : list (string * Z)) : Z :=
  fold_right (fun kv acc => snd kv + acc) 0 d.

(** How many entries have the status [s]. *)
Definition entries_with (s : CacheStatus) (m : CacheManager) : Z :=
  Z.of_nat (List.length (filter (fun it => status_eqb (status (snd it)) s) (metadata m))).

(** [mark_failed] called [n] times running. *)
Fixpoint mark_failed_times (n : nat) (m : CacheManager) (key msg : string)
  : CacheManager :=
  match n with
  | O => m
  | S n' => mark_failed_times n' (mark_failed m key msg) key msg
  end.

(** The empty cache after a result for [report.pdf] has been stored at
    time 0, and the same cache with the payload file damaged so that it
    can no longer be unpickled (with the stand-ins for the digests). *)
Definition stored_report : CacheManager :=
  snd (set_cache toy_hash toy_hash toy_float toy_json_config toy_json_key_data
         toy_stored_size empty_manager 0 report_pdf [] "dashscope" "" (1, 3)
         "result text" (5 # 2)).

Definition damaged_report : CacheManager :=
  mkCacheManager (config stored_report) (metadata stored_report)
    (map (fun kv => (fst kv, mkPayload None 10)) (payloads stored_report)).

End Cache.

(** ** retry_manager.py *)

Module Retry.

Inductive RetryReason : Type :=
| NETWORK_ERROR | API_RATE_LIMIT | API_ERROR | TIMEOUT
| MEMORY_ERROR | FILE_ERROR | PROCESSING_ERROR | UNKNOWN_ERROR.

Definition reason_eqb (a b : RetryReason) : bool :=
  match a, b with
  | NETWORK_ERROR, NETWORK_ERROR | API_RATE_LIMIT, API_RATE_LIMIT
  | API_ERROR, API_ERROR | TIMEOUT, TIMEOUT | MEMORY_ERROR, MEMORY_ERROR
  | FILE_ERROR, FILE_ERROR | PROCESSING_ERROR, PROCESSING_ERROR
  | UNKNOWN_ERROR, UNKNOWN_ERROR => true
  | _, _ => false
  end.

Record RetryConfig : Type := mkRetryConfig {
  max_retries : Z;
  base_delay : Q;
  max_delay : Q;
  exponential_base : Q;
  jitter : bool;
  retry_on_errors : list RetryReason;
  enable_circuit_breaker : bool;
  circuit_failure_threshold : Z;
  circuit_recovery_time : Z
}.

(** [RetryConfig()] once [RetryManager.__init__] has filled in
    [retry_on_errors]. *)
Definition default_config : RetryConfig :=
  mkRetryConfig 3 1 300 2 true
    [NETWORK_ERROR; API_RATE_LIMIT; TIMEOUT; API_ERROR] true 5 300.

Definition without_jitter (cfg : RetryConfig) : RetryConfig :=
  mkRetryConfig (max_retries cfg) (base_delay cfg) (max_delay cfg)
    (exponential_base cfg) false (retry_on_errors cfg)
    (enable_circuit_breaker cfg) (circuit_failure_threshold cfg)
    (circuit_recovery_time cfg).

(** An exception: the name of its type and [str(error)]. *)
Record PyError : Type := mkPyError {
  type_name : string;
  message : string
}.

(** [_calculate_delay]; [rnd] is what [random.uniform(0.5, 1.5)] returns
    when it is called. *)
Definition _calculate_delay (cfg : RetryConfig) (attempt_number : Z)
    (error_type : RetryReason) (rnd : Q) : Q :=
  let delay :=
    if reason_eqb error_type API_RATE_LIMIT
    then (base_delay cfg * exponential_base cfg ^ attempt_number * 2)%Q
    else (base_delay cfg * exponential_base cfg ^ attempt_number)%Q in
  let delay := Qmin delay (max_delay cfg) in
  if jitter cfg then (delay * rnd)%Q else delay.

(** [s.lower()], on the ASCII letters. *)
Definition lower_byte (a : ascii) : ascii :=
  let n := nat_of_ascii a in
  if between 65 n 90 then ascii_of_nat (n + 32) else a.

Fixpoint lower (s : string) : string :=
  match s with
  | EmptyString => EmptyString
  | String a rest => String (lower_byte a) (lower rest)
  end.

(** [needle in haystack]. *)
Fixpoint contains (needle haystack : string) : bool :=
  if String.prefix needle haystack then true
  else
    match haystack with
    | EmptyString => false
    | String _ rest => contains needle rest
    end.

(** [any(keyword in text for keyword in keywords)]. *)
Definition any_in (keywords : list string) (text : string) : bool :=
  existsb (fun k => contains k text) keywords.

Definition _classify_error (error : PyError) : RetryReason :=
  let error_str := lower (message error) in
  let error_type := lower (type_name error) in
  if any_in ["connection"; "network"; "timeout"; "unreachable"] error_str
  then NETWORK_ERROR
  else if any_in ["rate limit"; "too many requests"; "429"] error_str
  then API_RATE_LIMIT
  else if any_in ["api"; "invalid"; "unauthorized"; "401"; "403"; "500"; "502"; "503"]
            error_str
  then API_ERROR
  else if contains "timeout" error_str || contains "timeouterror" error_type
  then TIMEOUT
  else if contains "memory" error_str || contains "memoryerror" error_type
  then MEMORY_ERROR
  else if any_in ["file"; "directory"; "permission"] error_str
          || contains "ioerror" error_type
  then FILE_ERROR
  else UNKNOWN_ERROR.

Definition _should_retry (cfg : RetryConfig) (error : PyError) (attempt_number : Z)
  : bool :=
  if max_retries cfg <=? attempt_number then false
  else existsb (reason_eqb (_classify_error error)) (retry_on_errors cfg).

(** *** CircuitBreaker *)

Inductive BreakerState : Type := closed | open | half_open.

Record CircuitBreaker : Type := mkCircuitBreaker {
  failure_threshold : Z;
  recovery_time : Z;
  failure_count : Z;
  last_failure_time : option Z;
  state : BreakerState
}.

(** [CircuitBreaker(failure_threshold, recovery_time)]. *)
Definition new_breaker (threshold recovery : Z) : CircuitBreaker :=
  mkCircuitBreaker threshold recovery 0 None closed.

(** [timedelta.seconds]: the seconds left over once the whole days are
    taken out, between 0 and 86399 ([delta] in microseconds). *)
Definition timedelta_seconds (delta : Z) : Z :=
  (delta mod (86400 * 1000000)) / 1000000.

(** [timedelta.total_seconds()], rounded down to whole seconds. *)
Definition whole_seconds (delta : Z) : Z := delta / 1000000.

Definition seconds (n : Z) : Z := n * 1000000.

(** What one [call] does: the breaker afterwards, whether the wrapped
    function was invoked, and what the call returned or raised. *)
Record Called (A : Type) : Type := mkCalled {
  breaker : CircuitBreaker;
  invoked : bool;
  outcome : Result A
}.
Arguments mkCalled {A}.
Arguments breaker {A}.
Arguments invoked {A}.
Arguments outcome {A}.

Definition with_state (cb : CircuitBreaker) (s : BreakerState) : CircuitBreaker :=
  mkCircuitBreaker (failure_threshold cb) (recovery_time cb) (failure_count cb)
    (last_failure_time cb) s.

(** The [try] block of [call]: [func] is invoked; [after] is the time
    read in the [except] branch. *)
Definition attempt_call {A : Type} (cb : CircuitBreaker) (after : Z)
    (func : unit -> Result A) : Called A :=
  match func tt with
  | Ok result =>
      match state cb with
      | half_open =>
          mkCalled
            (mkCircuitBreaker (failure_threshold cb) (recovery_time cb) 0
               (last_failure_time cb) closed)
            true (Ok result)
      | _ => mkCalled cb true (Ok result)
      end
  | Raise e =>
      let count := failure_count cb + 1 in
      mkCalled
        (mkCircuitBreaker (failure_threshold cb) (recovery_time cb) count
           (Some after)
           (if failure_threshold cb <=? count then open else state cb))
        true (Raise e)
  end.

(** [CircuitBreaker.call]; [now] is the time read on entry. *)
Definition call {A : Type} (cb : CircuitBreaker) (now after : Z)
    (func : unit -> Result A) : Called A :=
  match state cb with
  | open =>
      match last_failure_time cb with
      | None => mkCalled cb false (Raise "TypeError")
      | Some last =>
          if timedelta_seconds (now - last) <? recovery_time cb
          then mkCalled cb false (Raise "Circuit breaker is open")
          else attempt_call (with_state cb half_open) after func
      end
  | _ => attempt_call cb after func
  end.

(** A run of calls through one breaker: each call is given its two clock
    readings and its wrapped function. *)
Fixpoint calls {A : Type} (cb : CircuitBreaker)
    (l : list (Z * Z * (unit -> Result A))) : CircuitBreaker :=
  match l with
  | [] => cb
  | (now, after, func) :: rest => calls (breaker (call cb now after func)) rest
  end.

Definition failing : unit -> Result string := fun _ => Raise "connection refused".
Definition succeeding : unit -> Result string := fun _ => Ok "text".

(** Five failing calls, one a second, from second 0 to second 4. *)
Definition five_failures : list (Z * Z * (unit -> Result string)) :=
  map (fun i => (seconds (Z.of_nat i), seconds (Z.of_nat i), failing)) (seq 0 5).

(** *** Checkpointed processing *)

Record RetryAttempt : Type := mkRetryAttempt {
  attempt_number : Z;
  timestamp : Z;
  error_type : RetryReason;
  error_message : string;
  delay_before_retry : Q;
  success : bool
}.

(** A key of [partial_results]: an [int] in memory, a [str] once the
    state has been through JSON. *)
Inductive PyKey : Type :=
| KInt (n : Z)
| KStr (s : string).

Definition key_eqb (a b : PyKey) : bool :=
  match a, b with
  | KInt x, KInt y => x =? y
  | KStr x, KStr y => (x =? y)%string
  | _, _ => false
  end.

Fixpoint pk_get (k : PyKey) (d : list (PyKey * string)) : option string :=
  match d with
  | [] => None
  | (k', v) :: d' => if key_eqb k k' then Some v else pk_get k d'
  end.

Fixpoint pk_set (k : PyKey) (v : string) (d : list (PyKey * string))
  : list (PyKey * string) :=
  match d with
  | [] => [(k, v)]
  | (k', v') :: d' =>
      if key_eqb k k' then (k, v) :: d' else (k', v') :: pk_set k v d'
  end.

Record ProcessingState : Type := mkProcessingState {
  ps_file_path : string;
  ps_cache_key : string;
  total_pages : Z;
  completed_pages : list Z;
  failed_pages : list Z;
  current_page : option Z;
  start_time : Z;
  last_update : Z;
  retry_attempts : list RetryAttempt;
  ps_config : Cache.Config;
  ps_ocr_service : string;
  terminology_terms : string;
  ps_page_range : Z * Z;
  partial_results : list (PyKey * string)
}.

(** How [json.dump] writes a dict key: an [int] as its digits. *)
Definition json_key (k : PyKey) : string :=
  match k with
  | KInt n => str_of_int n
  | KStr s => s
  end.

(** [partial_results] as [json.load] returns what [json.dump] wrote:
    every key a string; of two equal keys the later value stands. *)
Definition through_json (d : list (PyKey * string)) : list (PyKey * string) :=
  fold_left (fun acc kv => pk_set (KStr (json_key (fst kv))) (snd kv) acc) d [].

(** The state [_load_processing_state] returns for what
    [_save_processing_state] wrote. *)
Definition saved (s : ProcessingState) : ProcessingState :=
  mkProcessingState (ps_file_path s) (ps_cache_key s) (total_pages s)
    (completed_pages s) (failed_pages s) (current_page s) (start_time s)
    (last_update s) (retry_attempts s) (ps_config s) (ps_ocr_service s)
    (terminology_terms s) (ps_page_range s) (through_json (partial_results s)).

(** What a call of [process_func] does. *)
Inductive PageOutcome : Type :=
| Returned (result : option string)
| Raised (e : PyError).

(** [process_func] as the manager meets it: what its [n]-th call of a run
    (from 0) does when asked for [page]. *)
Definition PageProcessor : Type := nat -> Z -> PageOutcome.

(** The cache and the files of [recovery_states/], by cache key. *)
Record World : Type := mkWorld {
  cache : Cache.CacheManager;
  states : list (string * ProcessingState)
}.

Definition add_attempt (s : ProcessingState) (a : RetryAttempt) : ProcessingState :=
  mkProcessingState (ps_file_path s) (ps_cache_key s) (total_pages s)
    (completed_pages s) (failed_pages s) (current_page s) (start_time s)
    (last_update s) (retry_attempts s ++ [a])%list (ps_config s) (ps_ocr_service s)
    (terminology_terms s) (ps_page_range s) (partial_results s).

(** [state.current_page = page_num; state.last_update = now]. *)
Definition start_page (s : ProcessingState) (page now : Z) : ProcessingState :=
  mkProcessingState (ps_file_path s) (ps_cache_key s) (total_pages s)
    (completed_pages s) (failed_pages s) (Some page) (start_time s)
    now (retry_attempts s) (ps_config s) (ps_ocr_service s)
    (terminology_terms s) (ps_page_range s) (partial_results s).

(** [xs.remove(x)]: the first occurrence goes. *)
Fixpoint remove_first (x : Z) (xs : list Z) : list Z :=
  match xs with
  | [] => []
  | y :: rest => if x =? y then rest else y :: remove_first x rest
  end.

Definition int_in (x : Z) (xs : list Z) : bool := existsb (Z.eqb x) xs.

(** The [if page_result:] branch. *)
Definition page_done (s : ProcessingState) (page : Z) (result : string)
  : ProcessingState :=
  mkProcessingState (ps_file_path s) (ps_cache_key s) (total_pages s)
    (completed_pages s ++ [page])%list
    (if int_in page (failed_pages s) then remove_first page (failed_pages s)
     else failed_pages s)
    (current_page s) (start_time s) (last_update s) (retry_attempts s)
    (ps_config s) (ps_ocr_service s) (terminology_terms s) (ps_page_range s)
    (pk_set (KInt page) result (partial_results s)).

(** The [else] branch. *)
Definition page_failed (s : ProcessingState) (page : Z) : ProcessingState :=
  mkProcessingState (ps_file_path s) (ps_cache_key s) (total_pages s)
    (completed_pages s) (failed_pages s ++ [page])%list
    (current_page s) (start_time s) (last_update s) (retry_attempts s)
    (ps_config s) (ps_ocr_service s) (terminology_terms s) (ps_page_range s)
    (partial_results s).

(** [range(a, b + 1)]. *)
Definition page_numbers (a b : Z) : list Z :=
  map (fun i => a + Z.of_nat i) (seq 0 (Z.to_nat (b + 1 - a))).

(** [str(xs)] for a list of ints. *)
Definition str_of_ints (xs : list Z) : string :=
  "[" ++ join ", " (map str_of_int xs) ++ "]".

Section Recovery.

Variable md5 : string -> string.
Variable sha256 : string -> string.
Variable str_float : Q -> string.
Variable json_config : Cache.Config -> string.
Variable json_key_data :
  string -> string -> string -> string -> Z * Z -> string -> string.
Variable stored_size : bool -> string -> Z.

(** The manager's configuration, the clock (read as one instant during a
    run) and the jitter factor drawn. *)
Variable cfg : RetryConfig.
Variable now : Z.
Variable rnd : Q.
Variable process_func : PageProcessor.

(** [_process_page_with_retry]: the [while attempt <= max_retries] loop,
    [fuel] bounding its turns; [n] counts the calls of [process_func]. *)
Fixpoint _process_page_with_retry (fuel : nat) (attempt page : Z)
    (s : ProcessingState) (n : nat) : option string * ProcessingState * nat :=
  match fuel with
  | O => (None, s, n)
  | S fuel' =>
      if attempt <=? max_retries cfg then
        match process_func n page with
        | Returned result =>
            let s' :=
              if 0 <? attempt
              then add_attempt s
                     (mkRetryAttempt attempt now UNKNOWN_ERROR "成功" 0 true)
              else s in
            (result, s', S n)
        | Raised e =>
            let error_type := _classify_error e in
            let delay :=
              if (attempt <? max_retries cfg) && _should_retry cfg e attempt
              then _calculate_delay cfg attempt error_type rnd
              else 0%Q in
            let s' :=
              add_attempt s
                (mkRetryAttempt attempt now error_type (message e) delay false) in
            if negb (_should_retry cfg e attempt) then (None, s', S n)
            else _process_page_with_retry fuel' (attempt + 1) page s' (S n)
        end
      else (None, s, n)
  end.

(** Turns enough for the loop: attempts 0 to [max_retries]. *)
Definition attempts_fuel : nat := Z.to_nat (max_retries cfg + 1).

(** One turn of [for page_num in range(start_page, end_page + 1)]:
    the state in memory, the checkpoint files, the calls made. *)
Definition process_page (key : string)
    (acc : ProcessingState * list (string * ProcessingState) * nat) (page : Z)
  : ProcessingState * list (string * ProcessingState) * nat :=
  let '(s, disk, n) := acc in
  if int_in page (completed_pages s) then acc
  else
    let s1 := start_page s page now in
    let disk1 := dict_set key (saved s1) disk in
    let '(page_result, s2, n') := _process_page_with_retry attempts_fuel 0 page s1 n in
    let s3 :=
      match page_result with
      | Some (String a rest) => page_done s2 page (String a rest)
      | _ => page_failed s2 page
      end in
    (s3, dict_set key (saved s3) disk1, n').

(** The texts of the pages of the range that [partial_results] holds
    under their number. *)
Definition collected (s : ProcessingState) (pages : list Z) : list string :=
  flat_map (fun p => match pk_get (KInt p) (partial_results s) with
                     | Some t => [t]
                     | None => []
                     end) pages.

(** The [try] block of [process_with_recovery], entered with the state
    [s0] (loaded or new) and the cache [c]: the loop over the pages, then
    the merge or the failure.  The exception raised for a partial result
    is caught by the block's own [except], which marks the entry failed
    once more and raises it again. *)
Definition process_pages (w : World) (c : Cache.CacheManager) (key : string)
    (s0 : ProcessingState) (f : Cache.SourceFile) (conf : Cache.Config)
    (service terminology : string) (pages : Z * Z) : Result string * World :=
  let '(start_, end_) := pages in
  let total := end_ - start_ + 1 in
  let '(s, disk, _) :=
    fold_left (process_page key) (page_numbers start_ end_) (s0, states w, O) in
  if Z.of_nat (List.length (completed_pages s)) =? total then
    let combined_result := join (LF ++ LF) (collected s (page_numbers start_ end_)) in
    let processing_time := (inject_Z (now - start_time s) / 1000000)%Q in
    let c' :=
      snd (Cache.set_cache md5 sha256 str_float json_config json_key_data
             stored_size c now f conf service terminology pages
             combined_result processing_time) in
    (Ok combined_result, mkWorld c' (dict_del key disk))
  else
    let error_msg :=
      "部分页面处理失败: 成功 "
      ++ str_of_int (Z.of_nat (List.length (completed_pages s))) ++ "/"
      ++ str_of_int total ++ " 页, 失败页面: " ++ str_of_ints (failed_pages s) in
    let c' := Cache.mark_failed c key error_msg in
    let c'' := Cache.mark_failed c' key ("处理失败: " ++ error_msg) in
    (Raise error_msg, mkWorld c'' disk).

Definition process_with_recovery (w : World) (f : Cache.SourceFile)
    (conf : Cache.Config) (service terminology : string) (pages : Z * Z)
  : Result string * World :=
  match Cache._generate_cache_key md5 sha256 str_float json_config json_key_data
          (Cache.config (cache w)) f conf service terminology pages with
  | Raise e => (Raise e, w)
  | Ok key =>
      match Cache.get_cache md5 sha256 str_float json_config json_key_data
              (cache w) now f conf service terminology pages with
      | Raise e => (Raise e, w)
      | Ok (Some (String a rest), c1) => (Ok (String a rest), mkWorld c1 (states w))
      | Ok (_, c1) =>
          match dict_get key (states w) with
          | Some s => process_pages w c1 key s f conf service terminology pages
          | None =>
              let fresh :=
                mkProcessingState (Cache.path f) key (snd pages - fst pages + 1)
                  [] [] None now now [] conf service terminology pages [] in
              match Cache.mark_processing md5 sha256 str_float json_config
                      json_key_data c1 now f conf service terminology pages with
              | Ok (_, c2) =>
                  process_pages w c2 key fresh f conf service terminology pages
              | Raise e => (Raise e, mkWorld c1 (states w))
              end
          end
      end
  end.

End Recovery.

(** *** A two-page job that fails on page 2 and is then resumed *)

(** Page 1 gives "A"; page 2 raises an error that is not retried. *)
Definition fails_on_page_2 : PageProcessor :=
  fun _ page =>
    if page =? 2 then Raised (mkPyError "ValueError" "glyph table is damaged")
    else Returned (Some "A").

(** On the second run page 2 gives "B". *)
Definition page_2_recovered : PageProcessor :=
  fun _ page => if page =? 2 then Returned (Some "B") else Returned (Some "A").

Definition run (w : World) (now : Z) (p : PageProcessor) : Result string * World :=
  process_with_recovery Cache.toy_hash Cache.toy_hash Cache.toy_float
    Cache.toy_json_config Cache.toy_json_key_data Cache.toy_stored_size
    default_config now 1 p w Cache.report_pdf [] "dashscope" "" (1, 2).

Definition empty_world : World := mkWorld Cache.empty_manager [].

(** *** execute_with_retry *)

(** What a call of the wrapped function does. *)
Inductive Outcome (A : Type) : Type :=
| Gave (a : A)
| Threw (e : PyError).
Arguments Gave {A} a.
Arguments Threw {A} e.

Definition as_result {A : Type} (o : Outcome A) : Result A :=
  match o with
  | Gave a => Ok a
  | Threw e => Raise (message e)
  end.

(** [_get_circuit_breaker]: the breaker of the service, made and kept on
    first use. *)
Definition _get_circuit_breaker (cfg : RetryConfig)
    (breakers : list (string * CircuitBreaker)) (service_key : string)
  : CircuitBreaker * list (string * CircuitBreaker) :=
  match dict_get service_key breakers with
  | Some cb => (cb, breakers)
  | None =>
      let cb := new_breaker (circuit_failure_threshold cfg) (circuit_recovery_time cfg) in
      (cb, dict_set service_key cb breakers)
  end.

(** What a run of [execute_with_retry] leaves: what it returned or
    raised, the breakers, how often the wrapped function was invoked, and
    the delays slept, in order. *)
Record Executed (A : Type) : Type := mkExecuted {
  returned : Result A;
  breakers_after : list (string * CircuitBreaker);
  invocations : nat;
  slept : list Q
}.
Arguments mkExecuted {A}.
Arguments returned {A}.
Arguments breakers_after {A}.
Arguments invocations {A}.
Arguments slept {A}.

(** [str(last_error)]. *)
Definition str_of_error (e : option PyError) : string :=
  match e with
  | Some err => message err
  | None => "None"
  end.

Section Execute.

Variable A : Type.
Variable cfg : RetryConfig.
Variable service_key : string.
Variable context : string.
(** During attempt [i] of a run (the loop makes one attempt per turn):
    what [func] does if it is invoked, the clock readings of the breaker
    (on entry, and on a failure), and the jitter drawn. *)
Variable func : Z -> Outcome A.
Variable clock : Z -> Z * Z.
Variable rnd : Z -> Q.

(** The [try] block of one turn: the breakers afterwards, whether [func]
    was invoked, and what the block returned or raised.  An exception of
    the breaker itself is an [Exception] with the breaker's message. *)
Definition try_once (attempt : Z) (breakers : list (string * CircuitBreaker))
  : list (string * CircuitBreaker) * bool * Outcome A :=
  if enable_circuit_breaker cfg then
    let '(cb, breakers) := _get_circuit_breaker cfg breakers service_key in
    let c := call cb (fst (clock attempt)) (snd (clock attempt))
               (fun _ => as_result (func attempt)) in
    (dict_set service_key (breaker c) breakers, invoked c,
     if invoked c then func attempt
     else match outcome c with
          | Raise msg => Threw (mkPyError "Exception" msg)
          | Ok a => Gave a
          end)
  else (breakers, true, func attempt).

(** [raise Exception(f"{context}失败，已重试 {attempt} 次: {last_error}")]. *)
Definition gave_up (attempt : Z) (last_error : option PyError) : string :=
  context ++ "失败，已重试 " ++ str_of_int attempt ++ " 次: " ++ str_of_error last_error.

(** The [while attempt <= max_retries] loop, [fuel] bounding its turns.
    [time.sleep] raises [ValueError] for a negative delay; raised inside
    the [except] block, it leaves the function. *)
Fixpoint execute_loop (fuel : nat) (attempt : Z) (last_error : option PyError)
    (breakers : list (string * CircuitBreaker)) (calls_made : nat) (delays : list Q)
  : option (Executed A) :=
  if attempt <=? max_retries cfg then
    match fuel with
    | O => None
    | S fuel' =>
        let '(breakers, was_invoked, o) := try_once attempt breakers in
        let calls_made := if was_invoked then S calls_made else calls_made in
        match o with
        | Gave a => Some (mkExecuted (Ok a) breakers calls_made delays)
        | Threw e =>
            let error_type := _classify_error e in
            if negb (_should_retry cfg e attempt) then
              Some (mkExecuted (Raise (gave_up attempt (Some e))) breakers
                      calls_made delays)
            else if attempt <? max_retries cfg then
              let delay := _calculate_delay cfg attempt error_type (rnd attempt) in
              if Qle_bool 0 delay then
                execute_loop fuel' (attempt + 1) (Some e) breakers calls_made
                  (delays ++ [delay])%list
              else
                Some (mkExecuted (Raise "sleep length must be non-negative") breakers
                        calls_made delays)
            else execute_loop fuel' (attempt + 1) (Some e) breakers calls_made delays
        end
    end
  else Some (mkExecuted (Raise (gave_up attempt last_error)) breakers calls_made delays).

Definition execute_with_retry (fuel : nat) (breakers : list (string * CircuitBreaker))
  : option (Executed A) :=
  execute_loop fuel 0 None breakers O [].

(** The error of attempt [i] is one the configuration retries. *)
Definition retried (i : Z) : Prop :=
  exists e, func i = Threw e /\
            existsb (reason_eqb (_classify_error e)) (retry_on_errors cfg) = true.

(** The delays slept before attempt [k]: one after each attempt before
    it. *)
Definition delays_before (k : Z) : list Q :=
  map (fun i =>
         match func i with
         | Threw e => _calculate_delay cfg i (_classify_error e) (rnd i)
         | Gave _ => 0%Q
         end)
      (page_numbers 0 (k - 1)).

End Execute.

Arguments try_once {A}.
Arguments execute_loop {A}.
Arguments execute_with_retry {A}.
Arguments retried {A}.
Arguments delays_before {A}.

(** How many of the calls fail. *)
Definition failures {A : Type} (l : list (Z * Z * (unit -> Result A))) : Z :=
  Z.of_nat (List.length
              (filter (fun c => match snd c tt with
                                | Raise _ => true
                                | Ok _ => false
                                end) l)).

(** *** Checkpoints on disk *)

(** The keys of a dict are page numbers. *)
Definition int_keys (d : list (PyKey * string)) : Prop :=
  Forall (fun kv => exists p, fst kv = KInt p) d.

End Retry.

(** ** image_preprocessor.py *)

Module Preprocessor.

Inductive PreprocessingMode : Type :=
| NONE | BASIC | DOCUMENT | PHOTO | AGGRESSIVE.

Record PreprocessingConfig : Type := mkPreprocessingConfig {
  mode : PreprocessingMode;
  enable_noise_reduction : bool;
  enable_sharpening : bool;
  enable_contrast_enhancement : bool;
  enable_deskewing : bool;
  enable_perspective_correction : bool;
  noise_reduction_strength : Q;
  sharpening_strength : Q;
  contrast_factor : Q;
  brightness_factor : Q;
  deskewing_threshold : Q;
  perspective_detection_threshold : Q;
  output_dpi : Z;
  binarization : bool;
  grayscale : bool
}.

(** [PreprocessingConfig(mode=m)]: the dataclass defaults. *)
Definition config_with_mode (m : PreprocessingMode) : PreprocessingConfig :=
  mkPreprocessingConfig m true true true true true 1 1 (12 # 10) 1
    (1 # 2) (2 # 100) 300 false false.

(** [create_preprocessor_config(mode)] without further keyword arguments. *)
Definition create_preprocessor_config (m : PreprocessingMode) : PreprocessingConfig :=
  config_with_mode m.

(** A PIL image: its mode, its size and its pixels row by row, each pixel
    the list of its band values (three for RGB, four for RGBA, one for L). *)
Record PILImage : Type := mkPILImage {
  im_mode : string;
  im_size : Z * Z;
  im_pixels : list (list Z)
}.

(** An OpenCV image (a numpy array): [colour] when it has three axes
    ([len(shape) == 3], the bands in BGR order), otherwise one band. *)
Record CvImage : Type := mkCvImage {
  colour : bool;
  cv_size : Z * Z;
  cv_pixels : list (list Z)
}.

(** [cv2.COLOR_RGB2BGR] and [cv2.COLOR_BGR2RGB] on a pixel: the bands in
    reverse order. *)
Definition swap_bands (p : list Z) : list Z := rev p.

(** [cv2.COLOR_RGBA2BGR] on a pixel: alpha dropped, the rest reversed. *)
Definition drop_alpha_swap (p : list Z) : list Z := rev (firstn 3 p).

(** The [stats] dict of [preprocess_image], without the clock reading. *)
Record PreprocessStats : Type := mkPreprocessStats {
  original_size : Z * Z;
  operations_applied : list string;
  processed_size : Z * Z;
  quality_score : Q
}.

Definition set_geometry (c : PreprocessingConfig) (deskew perspective : bool)
  : PreprocessingConfig :=
  mkPreprocessingConfig (mode c) (enable_noise_reduction c) (enable_sharpening c)
    (enable_contrast_enhancement c) deskew perspective
    (noise_reduction_strength c) (sharpening_strength c) (contrast_factor c)
    (brightness_factor c) (deskewing_threshold c)
    (perspective_detection_threshold c) (output_dpi c) (binarization c)
    (grayscale c).

Definition set_strengths (c : PreprocessingConfig) (noise sharpen contrast : Q)
  : PreprocessingConfig :=
  mkPreprocessingConfig (mode c) (enable_noise_reduction c) (enable_sharpening c)
    (enable_contrast_enhancement c) (enable_deskewing c)
    (enable_perspective_correction c) noise sharpen contrast
    (brightness_factor c) (deskewing_threshold c)
    (perspective_detection_threshold c) (output_dpi c) (binarization c)
    (grayscale c).

Definition set_brightness (c : PreprocessingConfig) (b : Q) : PreprocessingConfig :=
  mkPreprocessingConfig (mode c) (enable_noise_reduction c) (enable_sharpening c)
    (enable_contrast_enhancement c) (enable_deskewing c)
    (enable_perspective_correction c) (noise_reduction_strength c)
    (sharpening_strength c) (contrast_factor c) b (deskewing_threshold c)
    (perspective_detection_threshold c) (output_dpi c) (binarization c)
    (grayscale c).

Definition set_binarization (c : PreprocessingConfig) (b : bool)
  : PreprocessingConfig :=
  mkPreprocessingConfig (mode c) (enable_noise_reduction c) (enable_sharpening c)
    (enable_contrast_enhancement c) (enable_deskewing c)
    (enable_perspective_correction c) (noise_reduction_strength c)
    (sharpening_strength c) (contrast_factor c) (brightness_factor c)
    (deskewing_threshold c) (perspective_detection_threshold c) (output_dpi c) b
    (grayscale c).

(** [_apply_mode_preset]: the configuration it leaves in [self.config]. *)
Definition _apply_mode_preset (c : PreprocessingConfig) : PreprocessingConfig :=
  match mode c with
  | NONE =>
      mkPreprocessingConfig (mode c) false false false false false
        (noise_reduction_strength c) (sharpening_strength c) (contrast_factor c)
        (brightness_factor c) (deskewing_threshold c)
        (perspective_detection_threshold c) (output_dpi c) (binarization c)
        (grayscale c)
  | BASIC =>
      set_geometry (set_strengths c (8 # 10) (8 # 10) (11 # 10)) false false
  | DOCUMENT =>
      set_binarization
        (set_geometry
           (set_brightness (set_strengths c 1 (12 # 10) (13 # 10)) (105 # 100))
           true (enable_perspective_correction c))
        true
  | PHOTO =>
      set_geometry (set_strengths c (12 # 10) 1 (12 # 10)) true true
  | AGGRESSIVE =>
      set_binarization
        (set_geometry
           (set_brightness (set_strengths c (15 # 10) 2 (15 # 10)) (11 # 10))
           true true)
        true
  end.

(** The OpenCV and PIL operations are parameters of the model. *)
Section Pipeline.

(** [pil_image.convert('RGB')]. *)
Variable convert_rgb : PILImage -> PILImage.
(** [_detect_skew_angle], [_rotate_image], [_correct_perspective]. *)
Variable _detect_skew_angle : CvImage -> Q.
Variable _rotate_image : CvImage -> Q -> CvImage.
Variable _correct_perspective : CvImage -> option CvImage.
(** [f"{angle:.1f}"]. *)
Variable format_angle : Q -> string.
(** [_reduce_noise], [_enhance_contrast], [_sharpen_image],
    [_binarize_image], each under the configuration in force. *)
Variable _reduce_noise : PreprocessingConfig -> CvImage -> CvImage.
Variable _enhance_contrast : PreprocessingConfig -> CvImage -> CvImage.
Variable _sharpen_image : PreprocessingConfig -> CvImage -> CvImage.
Variable _binarize_image : CvImage -> CvImage.
(** [cv2.cvtColor(image, cv2.COLOR_BGR2GRAY)]. *)
Variable to_gray : CvImage -> CvImage.
(** [_adjust_dpi] and [_calculate_quality_score]. *)
Variable _adjust_dpi : PreprocessingConfig -> PILImage -> PILImage.
Variable _calculate_quality_score : CvImage -> Q.

Definition _pil_to_cv2 (im : PILImage) : CvImage :=
  if (im_mode im =? "RGB")%string then
    mkCvImage true (im_size im) (map swap_bands (im_pixels im))
  else if (im_mode im =? "RGBA")%string then
    mkCvImage true (im_size im) (map drop_alpha_swap (im_pixels im))
  else if (im_mode im =? "L")%string then
    mkCvImage false (im_size im) (im_pixels im)
  else
    let rgb := convert_rgb im in
    mkCvImage true (im_size rgb) (map swap_bands (im_pixels rgb)).

Definition _cv2_to_pil (cv : CvImage) : PILImage :=
  if colour cv then mkPILImage "RGB" (cv_size cv) (map swap_bands (cv_pixels cv))
  else mkPILImage "L" (cv_size cv) (cv_pixels cv).

Definition _correct_geometry (c : PreprocessingConfig) (image : CvImage)
  : CvImage * list string :=
  let '(image, corrections) :=
    if enable_deskewing c then
      let angle := _detect_skew_angle image in
      if Qle_bool (Qabs angle) (deskewing_threshold c) then (image, [])
      else (_rotate_image image angle,
            ["deskewing_" ++ format_angle angle ++ "deg"])
    else (image, []) in
  if enable_perspective_correction c then
    match _correct_perspective image with
    | Some corrected => (corrected, (corrections ++ ["perspective_correction"])%list)
    | None => (image, corrections)
    end
  else (image, corrections).

(** One optional stage of the pipeline: when [enabled], apply [op] and
    note [name]. *)
Definition stage (enabled : bool) (op : CvImage -> CvImage) (name : string)
    (acc : CvImage * list string) : CvImage * list string :=
  if enabled then (op (fst acc), (snd acc ++ [name])%list) else acc.

(** [preprocess_image(image, config)]: the processed image, the stats, and
    the configuration left in [self.config]. *)
Definition preprocess_image (self_config : PreprocessingConfig) (image : PILImage)
    (config : option PreprocessingConfig)
  : PILImage * PreprocessStats * PreprocessingConfig :=
  let c0 := match config with Some c => c | None => self_config end in
  let cv_image := _pil_to_cv2 image in
  let c := _apply_mode_preset c0 in
  let acc :=
    if enable_deskewing c || enable_perspective_correction c
    then _correct_geometry c cv_image
    else (cv_image, []) in
  let acc := stage (enable_noise_reduction c) (_reduce_noise c) "noise_reduction" acc in
  let acc := stage (enable_contrast_enhancement c) (_enhance_contrast c)
               "contrast_enhancement" acc in
  let acc := stage (enable_sharpening c) (_sharpen_image c) "sharpening" acc in
  let acc := stage (binarization c) _binarize_image "binarization" acc in
  let acc := stage (grayscale c && colour (fst acc)) to_gray "grayscale_conversion" acc in
  let processed := _cv2_to_pil (fst acc) in
  let '(processed, ops) :=
    if output_dpi c =? 300 then (processed, snd acc)
    else (_adjust_dpi c processed, (snd acc ++ ["dpi_adjustment"])%list) in
  (processed,
   mkPreprocessStats (im_size image) ops (im_size processed)
     (_calculate_quality_score (fst acc)),
   c).

End Pipeline.

(** Stand-ins for the library operations, to run the model on examples
    in which none of them is reached. *)
Definition same_cv (cv : CvImage) : CvImage := cv.

Definition preprocess_plain (c : PreprocessingConfig) (image : PILImage)
  : PILImage * PreprocessStats * PreprocessingConfig :=
  preprocess_image (fun im => im) (fun _ => 0%Q) (fun cv _ => cv) (fun _ => None)
    (fun _ => "0.0") (fun _ => same_cv) (fun _ => same_cv) (fun _ => same_cv)
    same_cv same_cv (fun _ im => im) (fun _ => 50%Q)
    (config_with_mode DOCUMENT) image (Some c).

(** A 2 x 1 image with an alpha band. *)
Definition rgba_image : PILImage :=
  mkPILImage "RGBA" (2, 1) [[10; 20; 30; 255]; [40; 50; 60; 128]].


End Preprocessor.

(** ** main.py: the text-correction stage *)

Module Correction.

(** A usage dict: token counters by name. *)
Definition Usage : Type := list (string * Z).

Definition zero_usage : Usage :=
  [("input_tokens", 0); ("output_tokens", 0); ("total_tokens", 0)].

(** [usage.get(name, 0)]. *)
Definition usage_get (name : string) (u : Usage) : Z :=
  match dict_get name u with
  | Some n => n
  | None => 0
  end.

(** The text both prompts share, before and after the terminology note. *)
Definition prompt_head : string := "请对以下OCR识别的文本进行专业的处理和Markdown格式化：

## 处理要求

### 1. 文本纠错
- 修正OCR识别错误、错别字和格式问题
- 修复逻辑不通顺的地方，保持原文意思
- 补充缺失的标点符号和段落结构

### 2. 智能结构识别
- 自动识别文档的层级结构（标题、章节、段落等）
- 识别列表、表格、引用等特殊内容
- 保持原文的逻辑顺序和信息完整性

### 3. 专业Markdown格式化
- **标题层级**：使用 # ## ### #### 标记不同级别标题
- **段落结构**：合理分段，保持良好的可读性
- **列表格式**：使用 - 或 1. 格式化列表项
- **强调内容**：使用 **粗体** 和 *斜体* 突出重点
- **引用格式**：使用 > 标记引用内容
- **代码格式**：使用 ` 或 ``` 标记代码片段
- **表格格式**：识别并格式化表格内容

".

Definition prompt_tail : string := "

## 输出要求
- **直接输出**：只输出处理后的Markdown文档，不要添加任何说明
- **语法规范**：确保符合标准Markdown语法
- **结构清晰**：层次分明，便于阅读和编辑
- **内容完整**：保持原文的所有重要信息

---

**待处理文本**：
".

(** The reply of [gemini_client.chat.completions.create]: the content of
    each choice's message ([None] when it has none) and the usage block,
    each counter [None] when the attribute is missing. *)
Record ChatUsage : Type := mkChatUsage {
  prompt_tokens : option Z;
  completion_tokens : option Z;
  total_tokens : option Z
}.

Record ChatResponse : Type := mkChatResponse {
  choices : list (option string);
  usage : option ChatUsage
}.

(** The reply of [model.generate_content]: [response.text], which raises
    when the reply holds no text, and [response.usage_metadata], [None]
    when reading it raises. *)
Record GenResponse : Type := mkGenResponse {
  text : Result string;
  usage_metadata : option ChatUsage
}.

(** The two services: what a request with a given prompt does. *)
Definition Primary : Type := string -> Result ChatResponse.
Definition Fallback : Type := string -> Result GenResponse.

(** The network calls a run makes, in order, each with its prompt. *)
Inductive NetCall : Type :=
| PrimaryCall (prompt : string)
| FallbackCall (prompt : string).

(** [getattr(obj, name, 0)]. *)
Definition attr_or_0 (a : option Z) : Z :=
  match a with
  | Some n => n
  | None => 0
  end.

(** [try: body  except Exception: handler]. *)
Definition catch {A : Type} (body : Result A) (handler : string -> Result A)
  : Result A :=
  match body with
  | Ok a => Ok a
  | Raise e => handler e
  end.

(** [len(s.split())]: the runs of characters that are not white space. *)
Fixpoint words_upto (fuel : nat) (in_word : bool) (s : string) : nat :=
  match fuel with
  | O => O
  | S fuel' =>
      match s with
      | EmptyString => O
      | String _ rest =>
          match space_width false s with
          | O => ((if in_word then 0 else 1) + words_upto fuel' true rest)%nat
          | n => words_upto fuel' false (drop_bytes n s)
          end
      end
  end.

Definition word_count (s : string) : Z :=
  Z.of_nat (words_upto (String.length s) false s).

Definition primary_prompt (ocr_text terminology_terms : string) : string :=
  let terminology_instruction :=
    match terminology_terms with
    | EmptyString => ""
    | String _ _ =>
        LF ++ LF ++ "**专有名词参考**：" ++ terminology_terms ++ LF
        ++ "请根据上述专有名词列表纠正文本中出现的相关词汇。"
    end in
  prompt_head ++ terminology_instruction ++ prompt_tail ++ ocr_text.

Definition fallback_prompt (ocr_text terminology_terms : string) : string :=
  let terminology_prompt :=
    match py_strip terminology_terms with
    | EmptyString => ""
    | String _ _ =>
        LF ++ LF ++ "专有名词参考（请确保这些词汇在纠错时保持正确）：" ++ LF
        ++ terminology_terms
    end in
  prompt_head ++ terminology_prompt ++ prompt_tail ++ ocr_text.

(** [correct_text_with_gemini]: its whole body stands in a [try] whose
    [except Exception] returns the input text and an empty usage dict. *)
Definition correct_text_with_gemini (primary : Primary)
    (ocr_text terminology_terms : string) : Result (string * Usage) :=
  catch
    (match primary (primary_prompt ocr_text terminology_terms) with
     | Raise e => Raise e
     | Ok response =>
         let usage_stats :=
           match usage response with
           | Some u =>
               [("input_tokens", attr_or_0 (prompt_tokens u));
                ("output_tokens", attr_or_0 (completion_tokens u));
                ("total_tokens", attr_or_0 (total_tokens u))]
           | None => []
           end in
         match choices response with
         | [] => Raise "IndexError"
         | None :: _ => Raise "AttributeError"
         | Some content :: _ => Ok (py_strip content, usage_stats)
         end
     end)
    (fun _ => Ok (ocr_text, [])).

(** The fallback block of [correct_text_with_gemini_streaming]. *)
Definition official_service (fallback : Fallback)
    (ocr_text terminology_terms : string) : Result (string * Usage) :=
  catch
    (let prompt := fallback_prompt ocr_text terminology_terms in
     match fallback prompt with
     | Raise e => Raise e
     | Ok response =>
         match text response with
         | Raise e => Raise e
         | Ok corrected_text =>
             let token_usage :=
               match usage_metadata response with
               | Some u =>
                   [("input_tokens", attr_or_0 (prompt_tokens u));
                    ("output_tokens", attr_or_0 (completion_tokens u));
                    ("total_tokens", attr_or_0 (total_tokens u))]
               | None =>
                   let estimated_input := word_count prompt in
                   let estimated_output := word_count corrected_text in
                   [("input_tokens", estimated_input);
                    ("output_tokens", estimated_output);
                    ("total_tokens", estimated_input + estimated_output)]
               end in
             Ok (corrected_text, token_usage)
         end
     end)
    (fun _ => Ok (ocr_text, zero_usage)).

Definition is_empty (s : string) : bool :=
  match s with
  | EmptyString => true
  | String _ _ => false
  end.

(** [correct_text_with_gemini_streaming] without a progress callback:
    what it returns or raises, and the network calls made on the way.
    [api_key] and [base_url] are [GEMINI_API_KEY] and [GEMINI_BASE_URL]. *)
Definition correct_text_with_gemini_streaming (api_key base_url : string)
    (primary : Primary) (fallback : Fallback)
    (ocr_text terminology_terms : string)
  : Result (string * Usage) * list NetCall :=
  if is_empty api_key || is_empty base_url then (Ok (ocr_text, zero_usage), [])
  else
    let first := PrimaryCall (primary_prompt ocr_text terminology_terms) in
    match correct_text_with_gemini primary ocr_text terminology_terms with
    | Ok r => (Ok r, [first])
    | Raise _ =>
        (official_service fallback ocr_text terminology_terms,
         [first; FallbackCall (fallback_prompt ocr_text terminology_terms)])
    end.

(** Both services out of reach. *)
Definition primary_down : Primary := fun _ => Raise "Connection error.".
Definition fallback_down : Fallback := fun _ => Raise "503 Service Unavailable".

(** The official service answering. *)
Definition fallback_up : Fallback :=
  fun _ => Ok (mkGenResponse (Ok "# Corrected") None).

End Correction.
(** ** main.py: choosing the pages and processing a file *)

Module Main.
Import Correction.

(** *** select_page_range *)

Section Interactive.

(** [int(s)]: [None] when it raises [ValueError]. *)
Variable int_of_str : string -> option Z.

(** [int(text) if text else default] for a line the user typed, already
    stripped. *)
Definition typed_or (default : Z) (text : string) : option Z :=
  if is_empty text then Some default else int_of_str text.

(** The [while True] loop of [select_page_range]: [inputs] are the lines
    the user types, one for each [input()]; when they run out [input()]
    raises [EOFError], which the loop does not catch. *)
Fixpoint select_loop (total_pages : Z) (inputs : list string) : Result (Z * Z) :=
  match inputs with
  | [] => Raise "EOFError"
  | start_input :: rest =>
      match typed_or 1 (py_strip start_input) with
      | None => select_loop total_pages rest
      | Some start_page =>
          if negb ((1 <=? start_page) && (start_page <=? total_pages))
          then select_loop total_pages rest
          else
            match rest with
            | [] => Raise "EOFError"
            | end_input :: rest' =>
                match typed_or start_page (py_strip end_input) with
                | None => select_loop total_pages rest'
                | Some end_page =>
                    if negb ((start_page <=? end_page) && (end_page <=? total_pages))
                    then select_loop total_pages rest'
                    else Ok (start_page, end_page)
                end
            end
      end
  end.

(** [select_page_range]; [total_pages] is what [get_pdf_page_count]
    returns, 0 for a file it cannot read. *)
Definition select_page_range (total_pages : Z) (inputs : list string)
  : Result (Z * Z) :=
  if total_pages =? 0 then Ok (1, 1) else select_loop total_pages inputs.

End Interactive.

(** *** process_single_file *)

(** The token counters of a run. *)
Record Counters : Type := mkCounters {
  ocr_input_tokens : Z;
  ocr_output_tokens : Z;
  ocr_total_tokens : Z;
  gemini_input_tokens : Z;
  gemini_output_tokens : Z;
  gemini_total_tokens : Z;
  run_total_tokens : Z
}.

Definition no_tokens : Counters := mkCounters 0 0 0 0 0 0 0.

(** The total of a run is the OCR total plus the correction total. *)
Definition balanced (c : Counters) : Prop :=
  run_total_tokens c = ocr_total_tokens c + gemini_total_tokens c.

(** [usage.get('total_tokens', input_tokens + output_tokens)]. *)
Definition total_or_sum (u : Usage) : Z :=
  match dict_get "total_tokens" u with
  | Some n => n
  | None => usage_get "input_tokens" u + usage_get "output_tokens" u
  end.

(** The [if ocr_usage:] block; an empty dict is false. *)
Definition count_ocr (u : Usage) (c : Counters) : Counters :=
  match u with
  | [] => c
  | _ :: _ =>
      mkCounters (ocr_input_tokens c + usage_get "input_tokens" u)
        (ocr_output_tokens c + usage_get "output_tokens" u)
        (ocr_total_tokens c + total_or_sum u)
        (gemini_input_tokens c) (gemini_output_tokens c) (gemini_total_tokens c)
        (run_total_tokens c + total_or_sum u)
  end.

(** The [if gemini_usage:] block. *)
Definition count_gemini (u : Usage) (c : Counters) : Counters :=
  match u with
  | [] => c
  | _ :: _ =>
      mkCounters (ocr_input_tokens c) (ocr_output_tokens c) (ocr_total_tokens c)
        (gemini_input_tokens c + usage_get "input_tokens" u)
        (gemini_output_tokens c + usage_get "output_tokens" u)
        (gemini_total_tokens c + total_or_sum u)
        (run_total_tokens c + total_or_sum u)
  end.

(** What a run leaves: the texts gathered, the counters, and the files
    written under [ocr_output/], latest first. *)
Record Progress : Type := mkProgress {
  all_pages_text : list string;
  counters : Counters;
  written : list (string * string)
}.

Section ProcessFile.

(** An image, as [pdf2image] returns it. *)
Variable Image : Type.
(** [service_key in ocr_manager.available_services]. *)
Variable available : string -> bool.
(** [get_images_for_page(pdf, page_idx, ...)] and [pil_to_data_uri]. *)
Variable get_images_for_page : Z -> Result (list Image).
Variable pil_to_data_uri : Image -> Result string.
(** [ocr_service.process_image(data_uri)]. *)
Variable process_image : string -> Result (string * Usage).
(** The correction service. *)
Variable primary : Primary.
(** [path.write_text(text)]: whether writing the file succeeds. *)
Variable can_write : string -> bool.
(** [pdf_path.stem]. *)
Variable stem : string.

Definition page_file_name (page_idx : Z) : string :=
  stem ++ "_page_" ++ str_of_int (page_idx + 1) ++ ".md".

(** The body of the loop for one page: any exception leaves the page out
    and the loop goes on; counters raised before the exception stay. *)
Definition process_file_page (terminology_terms : string) (acc : Progress)
    (page_idx : Z) : Progress :=
  match get_images_for_page page_idx with
  | Raise _ => acc
  | Ok [] => acc
  | Ok (img :: _) =>
      match pil_to_data_uri img with
      | Raise _ => acc
      | Ok data_uri =>
          match process_image data_uri with
          | Raise _ => acc
          | Ok (ocr_text, ocr_usage) =>
              let c := count_ocr ocr_usage (counters acc) in
              match correct_text_with_gemini primary ocr_text terminology_terms with
              | Raise _ => mkProgress (all_pages_text acc) c (written acc)
              | Ok (corrected_text, gemini_usage) =>
                  let c := count_gemini gemini_usage c in
                  if can_write (page_file_name page_idx) then
                    mkProgress (all_pages_text acc ++ [corrected_text])%list c
                      ((page_file_name page_idx, corrected_text) :: written acc)
                  else mkProgress (all_pages_text acc) c (written acc)
              end
          end
      end
  end.

(** [range(start_page - 1, end_page)]. *)
Definition page_indexes (start_page end_page : Z) : list Z :=
  map (fun i => start_page - 1 + Z.of_nat i)
    (seq 0 (Z.to_nat (end_page - (start_page - 1)))).

(** [process_single_file]: what it returns or raises, and the progress
    made. *)
Definition process_single_file (start_page end_page : Z)
    (terminology_terms ocr_service_key : string) : Result string * Progress :=
  if negb (available ocr_service_key) then
    (Raise ("OCR服务 '" ++ ocr_service_key ++ "' 不可用"), mkProgress [] no_tokens [])
  else
    let done :=
      fold_left (process_file_page terminology_terms)
        (page_indexes start_page end_page)
        (mkProgress [] no_tokens []) in
    let combined_text := join (LF ++ LF) (all_pages_text done) in
    let combined_file := stem ++ "_combined.md" in
    if can_write combined_file then
      (Ok combined_text,
       mkProgress (all_pages_text done) (counters done)
         ((combined_file, combined_text) :: written done))
    else (Raise "OSError", done).

(** The pages of the range that come through: an image, its data URI,
    an OCR result, and a page file that can be written. *)
Definition ocr_text_of (page_idx : Z) : option string :=
  match get_images_for_page page_idx with
  | Ok (img :: _) =>
      match pil_to_data_uri img with
      | Ok data_uri =>
          match process_image data_uri with
          | Ok (ocr_text, _) =>
              if can_write (page_file_name page_idx) then Some ocr_text else None
          | Raise _ => None
          end
      | Raise _ => None
      end
  | _ => None
  end.

End ProcessFile.

End Main.
(** ** Facts about the shared Python operations *)

Module PyFacts.

Section SortFacts.
Context {A : Type} (le : A -> A -> bool).

Lemma insert_by_perm (x : A) (l : list A) :
  Permutation (insert_by le x l) (x :: l).
Proof.
  induction l as [|y l IH]; cbn; [reflexivity|].
  destruct (le x y); [reflexivity|].
  rewrite IH. apply perm_swap.
Qed.

Lemma sort_by_perm (l : list A) : Permutation (sort_by le l) l.
Proof.
  induction l as [|x l IH]; cbn; [reflexivity|].
  fold (sort_by le l). rewrite insert_by_perm. now constructor.
Qed.

Lemma sort_by_length (l : list A) : List.length (sort_by le l) = List.length l.
Proof. apply Permutation_length, sort_by_perm. Qed.

Hypothesis le_total : forall x y, le x y = true \/ le y x = true.
Hypothesis le_trans : forall x y z, le x y = true -> le y z = true -> le x z = true.

Lemma insert_by_sorted (x : A) (l : list A) :
  StronglySorted (fun a b => le a b = true) l ->
  StronglySorted (fun a b => le a b = true) (insert_by le x l).
Proof.
  induction l as [|y l IH]; intros Hs; cbn.
  - repeat constructor.
  - apply StronglySorted_inv in Hs. destruct Hs as (Hl & Hy).
    destruct (le x y) eqn:Hxy.
    + constructor; [constructor; assumption|].
      constructor; [exact Hxy|].
      eapply Forall_impl; [|exact Hy]. intros z. now apply le_trans.
    + constructor; [now apply IH|].
      assert (Hyx : le y x = true) by (destruct (le_total x y); congruence).
      eapply Permutation_Forall; [symmetry; apply insert_by_perm|].
      constructor; assumption.
Qed.

Lemma sort_by_sorted (l : list A) :
  StronglySorted (fun a b => le a b = true) (sort_by le l).
Proof.
  induction l as [|x l IH]; cbn; [constructor|].
  now apply insert_by_sorted.
Qed.
End SortFacts.

Lemma filter_perm {A : Type} (f : A -> bool) (l l' : list A) :
  Permutation l l' -> Permutation (filter f l) (filter f l').
Proof.
  induction 1 as [|x l l' _ IH|x y l|l l' l'' _ IH1 _ IH2]; cbn.
  - constructor.
  - destruct (f x); [now constructor|assumption].
  - destruct (f x), (f y); try reflexivity. apply perm_swap.
  - now transitivity (filter f l').
Qed.

Lemma filter_sorted {A : Type} (R : A -> A -> Prop) (f : A -> bool) (l : list A) :
  StronglySorted R l -> StronglySorted R (filter f l).
Proof.
  induction 1 as [|c l _ IH Hc]; cbn; [constructor|].
  destruct (f c); [|assumption].
  constructor; [assumption|].
  rewrite Forall_forall in *. intros d Hd. apply filter_In in Hd. now apply Hc.
Qed.

Lemma string_leb_trans (a b c : string) :
  (a <=? b)%string = true -> (b <=? c)%string = true -> (a <=? c)%string = true.
Proof.
  unfold String.leb. revert b c.
  induction a as [|x a IH]; intros b c Hab Hbc.
  - destruct c; reflexivity.
  - destruct b as [|y b]; [discriminate|].
    destruct c as [|z c]; [discriminate|].
    cbn [String.compare] in *. unfold Ascii.compare in *.
    destruct (N.compare_spec (N_of_ascii x) (N_of_ascii y)) as [Exy|Lxy|Gxy];
      try discriminate;
      destruct (N.compare_spec (N_of_ascii y) (N_of_ascii z)) as [Eyz|Lyz|Gyz];
      try discriminate.
    + rewrite Exy, Eyz, N.compare_refl. now apply (IH b c).
    + rewrite Exy. now rewrite (proj2 (N.compare_lt_iff _ _) Lyz).
    + rewrite <- Eyz. now rewrite (proj2 (N.compare_lt_iff _ _) Lxy).
    + now rewrite (proj2 (N.compare_lt_iff _ _) (N.lt_trans _ _ _ Lxy Lyz)).
Qed.

End PyFacts.

(** ** Properties of the splitter's planning loop *)

Module SplitterFacts.
Import Splitter.

(** A run that ended keeps its result when given more fuel. *)
Lemma split_loop_more_fuel (w ov pages : Z) (avg : Q) :
  forall (f1 f2 : nat) (s k : Z) (cs : list ChunkInfo),
    split_loop f1 w ov pages avg s k = Some cs ->
    (f1 <= f2)%nat ->
    split_loop f2 w ov pages avg s k = Some cs.
Proof.
  induction f1 as [|f1 IH]; intros f2 s k cs Hrun Hle.
  - cbn in Hrun. destruct (s <=? pages) eqn:E; [discriminate|].
    destruct f2; cbn; rewrite E; exact Hrun.
  - destruct f2 as [|f2]; [lia|].
    cbn [split_loop] in *. destruct (s <=? pages); [|exact Hrun].
    destruct (split_loop f1 w ov pages avg _ _) as [r1|] eqn:E1; [|discriminate].
    rewrite (IH f2 _ _ r1 E1) by lia. exact Hrun.
Qed.

(** With no overlap and a window of at least one page the loop ends within
    [pages + 1 - start] iterations, and its chunks tile [start .. pages]. *)
Lemma split_loop_tiles (w pages : Z) (avg : Q) :
  1 <= w ->
  forall (fuel : nat) (s k : Z),
    s <= pages + 1 ->
    (Z.to_nat (pages + 1 - s) <= fuel)%nat ->
    exists cs,
      split_loop fuel w 0 pages avg s k = Some cs /\
      tiles s pages cs /\
      Forall (fun c => page_count c = end_page c - start_page c + 1 /\
                       1 <= page_count c <= w) cs /\
      numbered_from k cs.
Proof.
  intros Hw fuel. induction fuel as [|fuel IH]; intros s k Hs Hfuel.
  - assert (s = pages + 1) by lia. subst s.
    exists []. cbn. rewrite (proj2 (Z.leb_gt _ _)) by lia.
    repeat split; auto.
  - cbn [split_loop]. destruct (s <=? pages) eqn:Hle.
    + apply Z.leb_le in Hle.
      set (e := Z.min (s + w - 1) pages).
      assert (He : s <= e <= pages) by (unfold e; lia).
      destruct (IH (e + 1 - 0) (k + 1)) as (rest & Hrun & Htiles & Hall & Hnum).
      * lia.
      * lia.
      * rewrite Hrun. eexists. split; [reflexivity|].
        replace (e + 1 - 0) with (e + 1) in Htiles by lia.
        cbn. repeat split; auto; try lia.
        constructor; auto. cbn. unfold e. lia.
    + apply Z.leb_gt in Hle. exists []. cbn. repeat split; auto. lia.
Qed.

(** No chunk of a tiling reaches back before the page it starts from. *)
Lemma tiles_none_before (cs : list ChunkInfo) :
  forall from to_ p,
    tiles from to_ cs -> p < from ->
    filter (fun c => covers c p) cs = [].
Proof.
  induction cs as [|c rest IH]; intros from to_ p Ht Hp; [reflexivity|].
  cbn in Ht. destruct Ht as (Hs & Hse & _ & Hrest). cbn [filter].
  unfold covers at 1.
  rewrite (proj2 (Z.leb_gt _ _)) by lia. cbn.
  apply (IH (end_page c + 1) to_); auto. lia.
Qed.

(** In a tiling every page of the range lies in exactly one chunk. *)
Lemma tiles_cover_once (cs : list ChunkInfo) :
  forall from to_ p,
    tiles from to_ cs -> from <= p <= to_ ->
    List.length (filter (fun c => covers c p) cs) = 1%nat.
Proof.
  induction cs as [|c rest IH]; intros from to_ p Ht Hp; cbn in Ht.
  - lia.
  - destruct Ht as (Hs & Hse & Het & Hrest). cbn [filter].
    unfold covers at 1.
    destruct (Z_le_gt_dec p (end_page c)) as [Hin|Hout].
    + rewrite (proj2 (Z.leb_le _ _)) by lia.
      rewrite (proj2 (Z.leb_le _ _)) by lia. cbn.
      rewrite (tiles_none_before rest (end_page c + 1) to_ p Hrest); [reflexivity|lia].
    + rewrite (proj2 (Z.leb_gt p _)) by lia. rewrite andb_false_r.
      apply (IH (end_page c + 1) to_); auto. lia.
Qed.

Lemma numbered_from_nth (cs : list ChunkInfo) :
  forall k i c,
    numbered_from k cs -> nth_error cs i = Some c ->
    chunk_id c = chunk_name (k + Z.of_nat i).
Proof.
  induction cs as [|d rest IH]; intros k i c Hn Hnth.
  - destruct i; discriminate.
  - destruct Hn as (Hd & Hrest). destruct i as [|i]; cbn in Hnth.
    + injection Hnth as <-. rewrite Hd. f_equal. lia.
    + rewrite (IH (k + 1) i c Hrest Hnth). f_equal. lia.
Qed.

(** [:03d] writes every number from 0 to 999 with exactly three digits. *)
Lemma format_0d_three_digits (n : Z) :
  0 <= n <= 999 -> String.length (format_0d 3 n) = 3%nat.
Proof.
  intros Hn.
  assert (Hall : forallb (fun i => Nat.eqb (String.length (format_0d 3 (Z.of_nat i))) 3)
                   (seq 0 1000) = true) by (vm_compute; reflexivity).
  rewrite forallb_forall in Hall.
  specialize (Hall (Z.to_nat n)).
  rewrite Z2Nat.id in Hall by lia.
  apply Nat.eqb_eq, Hall, in_seq. lia.
Qed.

Lemma chunk_name_length (n : Z) :
  0 <= n <= 999 -> String.length (chunk_name n) = 9%nat.
Proof.
  intros Hn. unfold chunk_name.
  change (String.length ("chunk_" ++ format_0d 3 n))
    with (6 + String.length (format_0d 3 n))%nat.
  now rewrite format_0d_three_digits.
Qed.


(** The 237-page plan of the specification, as computed. *)
Example split_by_pages_237 :
  option_map plan_rows (_split_by_pages 237 default_config analysis_237) =
  Some [("chunk_001", 1, 50); ("chunk_002", 51, 100); ("chunk_003", 101, 150);
        ("chunk_004", 151, 200); ("chunk_005", 201, 237)].
Proof. vm_compute. reflexivity. Qed.


(** With an overlap of at least one page the loop never ends: the start of
    the next window never passes the last page. *)
Lemma split_loop_overlap_diverges (w ov pages : Z) (avg : Q) :
  1 <= ov ->
  forall (fuel : nat) (s k : Z),
    s <= pages -> split_loop fuel w ov pages avg s k = None.
Proof.
  intros Hov fuel. induction fuel as [|fuel IH]; intros s k Hs; cbn [split_loop];
    rewrite (proj2 (Z.leb_le _ _)) by lia; [reflexivity|].
  rewrite IH; [reflexivity|]. lia.
Qed.

(** C10 at a failing input.  Ten pages, windows of five pages, an overlap
    of two (smaller than each of the three computed windows): none of the
    three planning loops returns, whatever the fuel.  After the window
    9-10 the next start is 10 + 1 - 2 = 9 again. *)
Theorem split_loops_overlap_never_return :
  overlap_pages overlap_config < max_pages_per_chunk overlap_config /\
  overlap_pages overlap_config < pages_per_chunk overlap_config analysis_10 /\
  overlap_pages overlap_config < safe_pages overlap_config analysis_10 /\
  forall fuel : nat,
    _split_by_pages fuel overlap_config analysis_10 = None /\
    _split_by_size fuel overlap_config analysis_10 = None /\
    _split_by_memory fuel overlap_config analysis_10 = None.
Proof.
  split; [reflexivity|]. split; [reflexivity|]. split; [reflexivity|].
  intros fuel.
  unfold _split_by_pages, _split_by_size, _split_by_memory.
  repeat split; apply split_loop_overlap_diverges; cbn; lia.
Qed.

(** With [overlap_pages = 0] and a window of at least one page, each of
    the three planners returns, and every chunk has
    [start_page <= end_page]. *)
Theorem split_loops_terminate_without_overlap (cfg : SplitConfig) (a : Analysis) :
  overlap_pages cfg = 0 ->
  1 <= an_page_count a ->
  1 <= max_pages_per_chunk cfg ->
  1 <= min_pages_per_chunk cfg ->
  let fuel := Z.to_nat (an_page_count a) in
  (exists cs, _split_by_pages fuel cfg a = Some cs /\
              Forall (fun c => start_page c <= end_page c) cs) /\
  (exists cs, _split_by_size fuel cfg a = Some cs /\
              Forall (fun c => start_page c <= end_page c) cs) /\
  (exists cs, _split_by_memory fuel cfg a = Some cs /\
              Forall (fun c => start_page c <= end_page c) cs).
Proof.
  intros Hov Hpages Hmax Hmin fuel.
  assert (Hgen : forall w, 1 <= w ->
            exists cs, split_loop fuel w 0 (an_page_count a) (avg_page_size_mb a) 1 1
                       = Some cs /\
                       Forall (fun c => start_page c <= end_page c) cs).
  { intros w Hw.
    destruct (split_loop_tiles w (an_page_count a) (avg_page_size_mb a) Hw fuel 1 1)
      as (cs & Hrun & _ & Hall & _); [lia | unfold fuel; lia |].
    exists cs. split; [exact Hrun|].
    eapply Forall_impl; [|exact Hall]. cbn. intros c (Hc & Hc1 & _). lia. }
  unfold _split_by_pages, _split_by_size, _split_by_memory. rewrite Hov.
  repeat split; apply Hgen; auto.
  - unfold pages_per_chunk. lia.
  - unfold safe_pages. lia.
Qed.

Lemma split_loops_terminate_without_overlap_witness :
  let fuel := 237%nat in
  (exists cs, _split_by_pages fuel default_config analysis_237 = Some cs /\
              Forall (fun c => start_page c <= end_page c) cs) /\
  (exists cs, _split_by_size fuel default_config analysis_237 = Some cs /\
              Forall (fun c => start_page c <= end_page c) cs) /\
  (exists cs, _split_by_memory fuel default_config analysis_237 = Some cs /\
              Forall (fun c => start_page c <= end_page c) cs).
Proof.
  apply (split_loops_terminate_without_overlap default_config analysis_237);
    cbn; first [reflexivity | lia].
Defined.

End SplitterFacts.

(** ** Properties of the merge of the chunks' texts *)

Module MergeFacts.
Import Splitter.

Lemma app_assoc_str (a b c : string) : (a ++ b) ++ c = a ++ (b ++ c).
Proof. induction a as [|x a IH]; cbn; [reflexivity|now rewrite IH]. Qed.

Lemma occurs_in_refl (x : string) : occurs_in x x.
Proof.
  exists "", "". cbn. induction x as [|a x IH]; cbn; [reflexivity|now rewrite <- IH].
Qed.

Lemma occurs_in_app_l (x a b : string) : occurs_in x a -> occurs_in x (a ++ b).
Proof.
  intros (p & q & ->). exists p, (q ++ b). now rewrite !app_assoc_str.
Qed.

Lemma occurs_in_app_r (x a b : string) : occurs_in x b -> occurs_in x (a ++ b).
Proof.
  intros (p & q & ->). exists (a ++ p), q. now rewrite !app_assoc_str.
Qed.

(** What occurs in a part occurs in the joined whole. *)
Lemma occurs_in_join (sep x s : string) (l : list string) :
  In s l -> occurs_in x s -> occurs_in x (join sep l).
Proof.
  induction l as [|y l IH]; [contradiction|].
  intros [->|Hin] Hx; destruct l as [|z l]; cbn [join].
  - exact Hx.
  - apply occurs_in_app_l, Hx.
  - contradiction.
  - apply occurs_in_app_r, occurs_in_app_r, IH; assumption.
Qed.

Lemma occurs_in_sections (many : bool) (r : string) (results : list string) :
  forall i, In r results ->
            occurs_in (py_strip r) (join "" (merged_sections many i results)).
Proof.
  intros i Hin.
  assert (Hsec : exists s, In s (merged_sections many i results) /\
                           occurs_in (py_strip r) s).
  { revert i. induction results as [|y l IH]; intros i; [contradiction|].
    cbn [merged_sections]. destruct Hin as [->|Hin].
    - eexists. split; [left; reflexivity|].
      destruct many; [apply occurs_in_app_r|]; apply occurs_in_refl.
    - destruct (IH Hin (S i)) as (s & Hs & Hocc). exists s. split; [right|]; assumption. }
  destruct Hsec as (s & Hs & Hocc). now apply (occurs_in_join "" _ s).
Qed.

Lemma id_leb_total (c d : ChunkInfo) : id_leb c d = true \/ id_leb d c = true.
Proof. apply String.leb_total. Qed.

Lemma id_leb_trans (c d e : ChunkInfo) :
  id_leb c d = true -> id_leb d e = true -> id_leb c e = true.
Proof. apply PyFacts.string_leb_trans. Qed.

Lemma sorted_by_id_perm (cs : list ChunkInfo) : Permutation (sorted_by_id cs) cs.
Proof. apply PyFacts.sort_by_perm. Qed.

Lemma sorted_by_id_sorted (cs : list ChunkInfo) :
  StronglySorted id_le (sorted_by_id cs).
Proof. apply (PyFacts.sort_by_sorted id_leb id_leb_total id_leb_trans). Qed.

(** The loop of [merge_ocr_results] keeps, in order, the texts of the
    chunks that succeeded and the ids of those whose status is failed. *)
Lemma collect_filter (cs : list ChunkInfo) :
  collect cs = (map result_text (filter succeeded cs),
                map chunk_id (filter listed_failed cs)).
Proof.
  induction cs as [|c cs IH]; [reflexivity|].
  cbn [collect filter]. rewrite IH.
  replace (listed_failed c)
    with (negb (succeeded c) && (status c =? "failed")%string) by reflexivity.
  destruct (succeeded c); cbn [negb andb map]; [reflexivity|].
  destruct (status c =? "failed")%string; reflexivity.
Qed.

(** A chunk whose status is failed did not succeed, so it is listed. *)
Lemma listed_failed_status (c : ChunkInfo) :
  listed_failed c = (status c =? "failed")%string.
Proof.
  unfold listed_failed, succeeded.
  destruct (String.eqb_spec (status c) "failed") as [->|]; cbn; [reflexivity|].
  apply andb_false_r.
Qed.

(** C7. For a non-empty chunk list and [preserve_structure = true]: let
    [ordered] be the chunks that are completed with a non-empty result and
    [failed] those whose status is failed, both in the order of their ids
    (a sorted permutation of what the input holds, whatever order it came
    in).  When [ordered] is empty the merge raises; otherwise it returns
    the sections of the texts of [ordered], in that order, followed, when
    [failed] is not empty, by the processing summary; every such text
    (stripped) occurs in the output, and so does the id of every failed
    chunk. *)
Theorem merge_ocr_results_by_id (chunks : list ChunkInfo) :
  chunks <> [] ->
  exists ordered failed,
    Permutation ordered (filter succeeded chunks) /\
    StronglySorted id_le ordered /\
    Permutation failed (filter has_failed_status chunks) /\
    StronglySorted id_le failed /\
    match ordered with
    | [] => exists msg, merge_ocr_results chunks true = Raise msg
    | _ :: _ =>
        let texts := map result_text ordered in
        let body := join "" (merged_sections (1 <? List.length texts)%nat 0 texts) in
        let out := match failed with
                   | [] => body
                   | _ :: _ => body ++ summary texts (map chunk_id failed)
                   end in
        merge_ocr_results chunks true = Ok out /\
        (forall c, In c ordered -> occurs_in (py_strip (result_text c)) out) /\
        (forall c, In c failed ->
                   occurs_in (join ", " (map chunk_id failed)) out /\
                   occurs_in (chunk_id c) out)
    end.
Proof.
  intros Hne.
  exists (filter succeeded (sorted_by_id chunks)),
         (filter has_failed_status (sorted_by_id chunks)).
  split; [apply PyFacts.filter_perm, sorted_by_id_perm|].
  split; [apply PyFacts.filter_sorted, sorted_by_id_sorted|].
  split; [apply PyFacts.filter_perm, sorted_by_id_perm|].
  split; [apply PyFacts.filter_sorted, sorted_by_id_sorted|].
  assert (Hfail : filter listed_failed (sorted_by_id chunks)
                  = filter has_failed_status (sorted_by_id chunks)).
  { apply filter_ext. intros c. apply listed_failed_status. }
  unfold merge_ocr_results. destruct chunks as [|c0 chunks0]; [congruence|].
  rewrite collect_filter, Hfail.
  set (ordered := filter succeeded (sorted_by_id (c0 :: chunks0))).
  set (failed := filter has_failed_status (sorted_by_id (c0 :: chunks0))).
  destruct ordered as [|o ordered'] eqn:Hord; cbn [map].
  - eexists. reflexivity.
  - cbv zeta. unfold _intelligent_merge.
    set (texts := result_text o :: map result_text ordered').
    assert (Hbody : forall c, In c (o :: ordered') ->
              occurs_in (py_strip (result_text c))
                (join "" (merged_sections (1 <? List.length texts)%nat 0 texts))).
    { intros c Hc. apply occurs_in_sections.
      change texts with (map result_text (o :: ordered')). now apply in_map. }
    assert (Hsum : forall c, In c failed ->
              occurs_in (join ", " (map chunk_id failed))
                (summary texts (map chunk_id failed)) /\
              occurs_in (chunk_id c) (summary texts (map chunk_id failed))).
    { intros c Hc.
      assert (Hj : occurs_in (join ", " (map chunk_id failed))
                     (summary texts (map chunk_id failed))).
      { unfold summary. do 15 apply occurs_in_app_r.
        apply occurs_in_app_l, occurs_in_refl. }
      split; [exact Hj|].
      destruct Hj as (p & q & Hj). rewrite Hj.
      apply occurs_in_app_r, occurs_in_app_l.
      apply (occurs_in_join ", " _ (chunk_id c)); [now apply in_map|apply occurs_in_refl]. }
    destruct failed as [|f failed'] eqn:Hf; cbn [map].
    + split; [reflexivity|]. split; [exact Hbody|]. intros c [].
    + split; [reflexivity|]. split.
      * intros c Hc. apply occurs_in_app_l, Hbody, Hc.
      * intros c Hc. destruct (Hsum c Hc) as (H1 & H2).
        split; apply occurs_in_app_r; assumption.
Qed.

(** C7 on the specification's example: [chunk_002] ("B") and [chunk_001]
    ("A") completed and [chunk_003] failed, given in that order, merge
    into the section of "A", then that of "B", then the summary naming
    [chunk_003]. *)
Example merge_example_output :
  merge_ocr_results merge_example true =
  Ok (LF ++ LF ++ "---" ++ LF ++ LF ++ "# 文档段落 1" ++ LF ++ LF ++ "A"
      ++ LF ++ LF ++ "---" ++ LF ++ LF ++ "# 文档段落 2" ++ LF ++ LF ++ "B"
      ++ LF ++ LF ++ "---" ++ LF ++ LF ++ "## 处理摘要" ++ LF ++ LF
      ++ "- 成功处理段落: 2" ++ LF
      ++ "- 失败段落: 1" ++ LF
      ++ "- 失败的段落ID: chunk_003" ++ LF).
Proof. vm_compute. reflexivity. Qed.

Lemma merge_ocr_results_by_id_witness :
  exists ordered failed,
    map chunk_id ordered = ["chunk_001"; "chunk_002"] /\
    map result_text ordered = ["A"; "B"] /\
    map chunk_id failed = ["chunk_003"] /\
    exists out,
      merge_ocr_results merge_example true = Ok out /\
      occurs_in "A" out /\ occurs_in "B" out /\ occurs_in "chunk_003" out.
Proof.
  destruct (merge_ocr_results_by_id merge_example)
    as (ordered & failed & Hperm & Hsorted & Hfperm & _ & Hout).
  - discriminate.
  - exists ordered, failed.
    (* the two completed chunks, in the order of their ids *)
    assert (Hord : ordered = filter succeeded (sorted_by_id merge_example)).
    { cbn in Hperm. vm_compute.
      apply Permutation_sym, Permutation_length_2_inv in Hperm.
      destruct Hperm as [->| ->]; [exfalso|reflexivity].
      apply StronglySorted_inv in Hsorted. destruct Hsorted as (_ & Hle).
      apply Forall_inv in Hle. vm_compute in Hle. discriminate. }
    assert (Hfl : failed = filter has_failed_status merge_example).
    { cbn in Hfperm. now apply Permutation_sym, Permutation_length_1_inv in Hfperm. }
    subst ordered failed. cbn in Hout.
    destruct Hout as (Hrun & Htexts & Hids).
    split; [reflexivity|]. split; [reflexivity|]. split; [reflexivity|].
    eexists. split; [exact Hrun|].
    split; [|split].
    + apply (Htexts (mkChunkInfo "chunk_001" 1 50 50 1 None "completed" (Some "A") None)).
      left. reflexivity.
    + apply (Htexts (mkChunkInfo "chunk_002" 51 100 50 1 None "completed" (Some "B") None)).
      right. left. reflexivity.
    + apply (Hids (mkChunkInfo "chunk_003" 101 150 50 1 None "failed" None
                     (Some "timeout"))).
      left. reflexivity.
Defined.

End MergeFacts.

(** ** Properties of the result cache *)

Module CacheFacts.
Import Cache.

(** *** Dictionaries with distinct keys *)

Lemma filter_all {A : Type} (f : A -> bool) (l : list A) :
  (forall x, In x l -> f x = true) -> filter f l = l.
Proof.
  induction l as [|x l IH]; intros H; cbn; [reflexivity|].
  rewrite (H x (or_introl eq_refl)). f_equal. apply IH. intros y Hy. apply H. now right.
Qed.

Lemma filter_none {A : Type} (f : A -> bool) (l : list A) :
  (forall x, In x l -> f x = false) -> filter f l = [].
Proof.
  induction l as [|x l IH]; intros H; cbn; [reflexivity|].
  rewrite (H x (or_introl eq_refl)). apply IH. intros y Hy. apply H. now right.
Qed.

Lemma filter_and {A : Type} (f g : A -> bool) (l : list A) :
  filter f (filter g l) = filter (fun x => g x && f x) l.
Proof.
  induction l as [|x l IH]; cbn; [reflexivity|].
  destruct (g x); cbn; [destruct (f x)|]; now rewrite IH.
Qed.

Lemma filter_split_length {A : Type} (f : A -> bool) (l : list A) :
  (List.length (filter f l) + List.length (filter (fun x => negb (f x)) l)
   = List.length l)%nat.
Proof.
  induction l as [|x l IH]; cbn; [reflexivity|].
  destruct (f x); cbn; lia.
Qed.

Lemma str_in_In (x : string) (xs : list string) : str_in x xs = true <-> In x xs.
Proof.
  unfold str_in. rewrite existsb_exists. split.
  - intros (y & Hy & E). apply String.eqb_eq in E. now subst.
  - intros H. exists x. split; [assumption|apply String.eqb_refl].
Qed.

Lemma str_in_app (x : string) (xs ys : list string) :
  str_in x (xs ++ ys) = str_in x xs || str_in x ys.
Proof. apply existsb_app. Qed.

Section Keys.
Context {V : Type}.
Implicit Types d : list (string * V).

Lemma keys_filter (f : string * V -> bool) d :
  NoDup (map fst d) -> NoDup (map fst (filter f d)).
Proof.
  induction d as [|[k v] d IH]; cbn; intros H; [constructor|].
  inversion H as [|? ? Hk Hd]; subst.
  destruct (f (k, v)); cbn; [|now apply IH].
  constructor; [|now apply IH].
  intros Hin. apply Hk. apply in_map_iff in Hin. destruct Hin as (it & E & Hit).
  apply filter_In in Hit. apply in_map_iff. exists it. tauto.
Qed.

Lemma key_unique d (a b : string * V) :
  NoDup (map fst d) -> In a d -> In b d -> fst a = fst b -> a = b.
Proof.
  induction d as [|c d IH]; cbn; intros H Ha Hb E; [contradiction|].
  inversion H as [|? ? Hk Hd]; subst.
  destruct Ha as [->|Ha], Hb as [->|Hb]; auto.
  - exfalso. apply Hk. rewrite E. now apply in_map.
  - exfalso. apply Hk. rewrite <- E. now apply in_map.
Qed.

Lemma dict_del_filter (k : string) d :
  NoDup (map fst d) ->
  dict_del k d = filter (fun it => negb (fst it =? k)%string) d.
Proof.
  induction d as [|[k' v] d IH]; cbn; intros H; [reflexivity|].
  inversion H as [|? ? Hk Hd]; subst. rewrite (String.eqb_sym k' k).
  destruct (String.eqb_spec k k') as [->|Hne]; cbn.
  - symmetry. apply filter_all. intros [k2 v2] Hin. cbn.
    destruct (String.eqb_spec k2 k') as [->|]; [|reflexivity].
    exfalso. apply Hk. apply in_map_iff. now exists (k', v2).
  - f_equal. now apply IH.
Qed.

Lemma dict_get_In (k : string) (v : V) d :
  dict_get k d = Some v -> In (k, v) d.
Proof.
  induction d as [|[k' v'] d IH]; cbn; [discriminate|].
  destruct (String.eqb_spec k k') as [->|]; [|auto].
  intros [= ->]. now left.
Qed.

Lemma In_dict_get (k : string) (v : V) d :
  NoDup (map fst d) -> In (k, v) d -> dict_get k d = Some v.
Proof.
  induction d as [|[k' v'] d IH]; cbn; intros H Hin; [contradiction|].
  inversion H as [|? ? Hk Hd]; subst.
  destruct Hin as [[= -> ->]|Hin]; [now rewrite String.eqb_refl|].
  destruct (String.eqb_spec k k') as [->|]; [|auto].
  exfalso. apply Hk. apply in_map_iff. now exists (k', v).
Qed.

Lemma dict_get_set_same (k : string) (v : V) d : dict_get k (dict_set k v d) = Some v.
Proof.
  induction d as [|[k' v'] d IH]; cbn; [now rewrite String.eqb_refl|].
  destruct (String.eqb_spec k k') as [->|Hne]; cbn.
  - now rewrite String.eqb_refl.
  - destruct (String.eqb_spec k k'); [contradiction|exact IH].
Qed.

Lemma dict_get_set_other (k k2 : string) (v : V) d :
  k2 <> k -> dict_get k2 (dict_set k v d) = dict_get k2 d.
Proof.
  intros Hne. induction d as [|[k' v'] d IH]; cbn.
  - destruct (String.eqb_spec k2 k); [contradiction|reflexivity].
  - destruct (String.eqb_spec k k') as [->|Hkk']; cbn.
    + destruct (String.eqb_spec k2 k'); [contradiction|reflexivity].
    + destruct (String.eqb_spec k2 k'); [reflexivity|exact IH].
Qed.

Lemma dict_set_keys (k : string) (v : V) d :
  NoDup (map fst d) -> NoDup (map fst (dict_set k v d)).
Proof.
  induction d as [|[k' v'] d IH]; cbn; intros H.
  - constructor; [intros []|constructor].
  - inversion H as [|? ? Hk Hd]; subst.
    destruct (String.eqb_spec k k') as [->|Hne]; cbn; [exact H|].
    constructor; [|now apply IH].
    intros Hin. apply in_map_iff in Hin. destruct Hin as ([k2 v2] & E & Hin).
    cbn in E. subst k2.
    assert (Hg : dict_get k' (dict_set k v d) = dict_get k' d)
      by (apply dict_get_set_other; congruence).
    assert (Hnd : NoDup (map fst (dict_set k v d))) by now apply IH.
    rewrite (In_dict_get _ _ _ Hnd Hin) in Hg. symmetry in Hg.
    apply dict_get_In in Hg. apply Hk. apply in_map_iff. now exists (k', v2).
Qed.

Lemma dict_set_length (k : string) (v : V) d :
  List.length (dict_set k v d)
  = (if dict_has k d then List.length d else S (List.length d)).
Proof.
  unfold dict_has. induction d as [|[k' v'] d IH]; cbn; [reflexivity|].
  destruct (String.eqb_spec k k') as [->|Hne]; cbn; [reflexivity|].
  rewrite IH. now destruct (dict_get k d).
Qed.

Lemma dict_get_del_other (k k2 : string) d :
  k2 <> k -> dict_get k2 (dict_del k d) = dict_get k2 d.
Proof.
  intros Hne. induction d as [|[k' v'] d IH]; cbn; [reflexivity|].
  destruct (String.eqb_spec k k') as [->|Hkk']; cbn.
  - destruct (String.eqb_spec k2 k'); [contradiction|reflexivity].
  - destruct (String.eqb_spec k2 k'); [reflexivity|exact IH].
Qed.

Lemma dict_get_none_not_in (k : string) (v : V) d :
  dict_get k d = None -> ~ In (k, v) d.
Proof.
  induction d as [|[k' v'] d IH]; cbn; intros Hg Hin; [exact Hin|].
  destruct Hin as [E|Hin].
  - injection E as -> ->. now rewrite String.eqb_refl in Hg.
  - destruct (k =? k')%string; [discriminate|]. now apply IH.
Qed.

Lemma in_dict_set (k : string) (v : V) d (x : string * V) :
  In x (dict_set k v d) -> x = (k, v) \/ In x d.
Proof.
  induction d as [|[k' v'] d IH]; cbn.
  - intros [<-|[]]. now left.
  - destruct (k =? k')%string; cbn; intros [<-|Hin]; auto.
    destruct (IH Hin); auto.
Qed.

Lemma keys_app_disjoint (l1 l2 : list (string * V)) (a b : string * V) :
  NoDup (map fst (l1 ++ l2)) -> In a l1 -> In b l2 -> fst a <> fst b.
Proof.
  induction l1 as [|x l1 IH]; cbn; intros Hnd Ha Hb E; [contradiction|].
  inversion Hnd as [|? ? Hx Hrest]; subst.
  destruct Ha as [->|Ha]; [|now apply (IH Hrest Ha Hb)].
  apply Hx. rewrite E. apply in_map, in_or_app. now right.
Qed.

End Keys.

(** *** The three loops of [cleanup] *)

(** The first loop collects the keys of the doomed entries, in order. *)
Lemma examine_keys (m : CacheManager) (now : Z) (l : list (string * CacheMetadata)) :
  forall acc,
    fst (fold_left (examine m now) l acc)
    = (fst acc ++ map fst (filter (doomed m now) l))%list.
Proof.
  induction l as [|it l IH]; intros [tr st]; cbn [fold_left filter].
  - cbn. now rewrite app_nil_r.
  - rewrite IH. unfold examine. replace (doomed m now it)
      with (match verdict m now it with Some _ => true | None => false end)
      by reflexivity.
    destruct (verdict m now it); cbn [fst map]; [|reflexivity].
    now rewrite <- app_assoc.
Qed.

(** It counts no entry as removed for being old. *)
Lemma examine_removed_old (m : CacheManager) (now : Z) (l : list (string * CacheMetadata)) :
  forall acc,
    removed_old (snd (fold_left (examine m now) l acc)) = removed_old (snd acc).
Proof.
  induction l as [|it l IH]; intros [tr st]; cbn [fold_left]; [reflexivity|].
  rewrite IH. unfold examine. destruct (verdict m now it) as [[]|]; reflexivity.
Qed.

(** The last loop deletes from [self.metadata] exactly the listed keys. *)
Lemma drop_entries_metadata (ks : list string) :
  forall m,
    NoDup (map fst (metadata m)) ->
    metadata (fold_left drop_entry ks m)
    = filter (fun it => negb (str_in (fst it) ks)) (metadata m).
Proof.
  induction ks as [|k ks IH]; intros m Hnd; cbn [fold_left].
  - symmetry. now apply filter_all.
  - rewrite IH; cbn [drop_entry metadata].
    + rewrite dict_del_filter by assumption. rewrite filter_and.
      apply filter_ext. intros it. cbn. now destruct (fst it =? k)%string.
    + rewrite dict_del_filter by assumption. now apply keys_filter.
Qed.

(** With distinct keys, what the second loop sorts are the entries that
    are not doomed. *)
Lemma survivors_not_doomed (m : CacheManager) (now : Z) :
  NoDup (map fst (metadata m)) ->
  survivors m (map fst (filter (doomed m now) (metadata m)))
  = filter (fun it => negb (doomed m now it)) (metadata m).
Proof.
  intros Hnd. unfold survivors. apply filter_ext_in. intros it Hit. f_equal.
  destruct (doomed m now it) eqn:Hd.
  - apply str_in_In, in_map, filter_In. tauto.
  - destruct (str_in _ _) eqn:Hin; [|reflexivity].
    apply str_in_In, in_map_iff in Hin. destruct Hin as (it' & E & Hit').
    apply filter_In in Hit'. destruct Hit' as (Hit' & Hd').
    rewrite (key_unique _ _ _ Hnd Hit' Hit E) in Hd'. congruence.
Qed.

Lemma newer_first_total (a b : string * CacheMetadata) :
  newer_first a b = true \/ newer_first b a = true.
Proof. unfold newer_first. lia. Qed.

Lemma newer_first_trans (a b c : string * CacheMetadata) :
  newer_first a b = true -> newer_first b c = true -> newer_first a c = true.
Proof. unfold newer_first. lia. Qed.

Lemma sorted_app_order {A : Type} (R : A -> A -> Prop) (l1 l2 : list A) :
  StronglySorted R (l1 ++ l2) ->
  forall a b, In a l1 -> In b l2 -> R a b.
Proof.
  induction l1 as [|x l1 IH]; cbn; intros Hs a b Ha Hb; [contradiction|].
  apply StronglySorted_inv in Hs. destruct Hs as (Hs & Hx).
  destruct Ha as [->|Ha]; [|now apply IH].
  rewrite Forall_forall in Hx. apply Hx, in_or_app. now right.
Qed.

(** What [cleanup] leaves when the entries still standing after its first
    loop outnumber [max_entries]: the first [keep_count] of them in the
    order of last access, newest first. *)
Lemma cleanup_result (m : CacheManager) (now : Z) :
  NoDup (map fst (metadata m)) ->
  max_entries (config m) < Z.of_nat (List.length (remaining m now)) ->
  0 <= Z.min (max_entries (config m)) (preserve_recent (config m)) ->
  let keep := Z.to_nat (Z.min (max_entries (config m)) (preserve_recent (config m))) in
  let sorted := sort_by newer_first (remaining m now) in
  Permutation (metadata (snd (cleanup m now))) (firstn keep sorted) /\
  removed_old (fst (cleanup m now)) = Z.of_nat (List.length (skipn keep sorted)).
Proof.
  intros Hnd Hmany Hkeep keep sorted. unfold cleanup.
  destruct (fold_left (examine m now) (metadata m) ([], no_stats)) as [tr st] eqn:Hfold.
  assert (Htr : tr = map fst (filter (doomed m now) (metadata m))).
  { pose proof (examine_keys m now (metadata m) ([], no_stats)) as H.
    now rewrite Hfold in H. }
  assert (Hst : removed_old st = 0).
  { pose proof (examine_removed_old m now (metadata m) ([], no_stats)) as H.
    now rewrite Hfold in H. }
  assert (Hsurv : survivors m tr = remaining m now).
  { rewrite Htr. now apply survivors_not_doomed. }
  assert (Hlen : Z.of_nat (List.length (metadata m)) - Z.of_nat (List.length tr)
                 = Z.of_nat (List.length (remaining m now))).
  { rewrite Htr, length_map.
    pose proof (filter_split_length (doomed m now) (metadata m)) as H.
    unfold remaining. lia. }
  rewrite Hlen, (proj2 (Z.ltb_lt _ _) Hmany), Hsurv.
  fold sorted. unfold slice_from. rewrite (proj2 (Z.ltb_ge _ _)) by lia.
  fold keep. set (old := map fst (skipn keep sorted)). cbn [fst snd].
  assert (Hperm : Permutation sorted (remaining m now))
    by apply PyFacts.sort_by_perm.
  assert (Hkeys : NoDup (map fst sorted)).
  { eapply Permutation_NoDup; [apply Permutation_map, Permutation_sym, Hperm|].
    unfold remaining. now apply keys_filter. }
  split.
  - rewrite drop_entries_metadata by assumption.
    transitivity (filter (fun it => negb (str_in (fst it) old)) (remaining m now)).
    + rewrite <- Hsurv. unfold survivors. rewrite filter_and.
      apply Permutation_refl', filter_ext. intros it.
      now rewrite str_in_app, negb_orb.
    + rewrite (PyFacts.filter_perm _ _ _ (Permutation_sym Hperm)).
      enough (E : filter (fun it : string * CacheMetadata => negb (str_in (fst it) old))
                    (firstn keep sorted ++ skipn keep sorted)
                  = firstn keep sorted)
        by (rewrite firstn_skipn in E; now rewrite E).
      rewrite filter_app.
      rewrite <- (firstn_skipn keep sorted), map_app in Hkeys.
      rewrite filter_all, filter_none; [apply app_nil_r| |].
      * intros it Hit. apply negb_false_iff, str_in_In. now apply in_map.
      * intros it Hit. apply negb_true_iff.
        destruct (str_in (fst it) old) eqn:Hin; [|reflexivity].
        apply str_in_In in Hin. exfalso.
        revert Hkeys Hit Hin. generalize (firstn keep sorted). subst old.
        generalize (skipn keep sorted). clear. intros l2 l1 Hnd Hit Hin.
        induction l1 as [|x l1 IH]; [contradiction|].
        cbn in Hnd. inversion Hnd as [|? ? Hx Hrest]; subst.
        destruct Hit as [->|Hit]; [|now apply IH].
        apply Hx, in_or_app. now right.
  - cbn. rewrite Hst. subst old. now rewrite length_map.
Qed.


(** *** [set_cache], then [has_cache] and [get_cache] *)

Lemma older_first_total (a b : string * CacheMetadata) :
  older_first a b = true \/ older_first b a = true.
Proof. unfold older_first. lia. Qed.

Lemma older_first_trans (a b c : string * CacheMetadata) :
  older_first a b = true -> older_first b c = true -> older_first a c = true.
Proof. unfold older_first. lia. Qed.

Lemma drop_entries_config (ks : list string) :
  forall m, config (fold_left drop_entry ks m) = config m.
Proof. induction ks as [|k ks IH]; intros m; cbn; [reflexivity|now rewrite IH]. Qed.

Lemma drop_entries_payloads (ks : list string) (key : string) :
  ~ In key ks ->
  forall m, dict_get key (payloads (fold_left drop_entry ks m))
            = dict_get key (payloads m).
Proof.
  induction ks as [|k ks IH]; intros Hout m; cbn [fold_left]; [reflexivity|].
  rewrite IH by (intros H; apply Hout; now right).
  cbn. apply dict_get_del_other. intros ->. apply Hout. now left.
Qed.

(** The entry accessed strictly last is not among the [r] oldest, as long
    as [r] is less than the number of entries. *)
Lemma newest_not_evicted (d : list (string * CacheMetadata))
    (e : string * CacheMetadata) (r : nat) :
  NoDup (map fst d) ->
  In e d ->
  (forall x, In x d -> x <> e -> last_accessed (snd x) < last_accessed (snd e)) ->
  (r < List.length d)%nat ->
  ~ In (fst e) (map fst (firstn r (sort_by older_first d))).
Proof.
  intros Hnd He Hnew Hr Hin.
  set (sorted := sort_by older_first d) in *.
  assert (Hperm : Permutation sorted d) by apply PyFacts.sort_by_perm.
  assert (Hkeys : NoDup (map fst (firstn r sorted ++ skipn r sorted))).
  { rewrite firstn_skipn.
    eapply Permutation_NoDup; [apply Permutation_map, Permutation_sym, Hperm|exact Hnd]. }
  assert (Hsorted : StronglySorted (fun a b => older_first a b = true)
                      (firstn r sorted ++ skipn r sorted)).
  { rewrite firstn_skipn.
    apply (PyFacts.sort_by_sorted older_first older_first_total older_first_trans). }
  apply in_map_iff in Hin. destruct Hin as (x & Ex & Hx).
  assert (Hxd : In x d).
  { apply (Permutation_in _ Hperm). rewrite <- (firstn_skipn r sorted).
    apply in_or_app. now left. }
  assert (x = e) by now apply (key_unique d). subst x.
  destruct (skipn r sorted) as [|y rest] eqn:Hskip.
  - assert (Hl : List.length (skipn r sorted) = 0%nat) by now rewrite Hskip.
    rewrite length_skipn, (Permutation_length Hperm) in Hl. lia.
  - assert (Hy : In y (y :: rest)) by now left.
    pose proof (sorted_app_order _ _ _ Hsorted e y Hx Hy) as Hle.
    pose proof (keys_app_disjoint _ _ e y Hkeys Hx Hy) as Hne.
    assert (Hyd : In y d).
    { apply (Permutation_in _ Hperm). rewrite <- (firstn_skipn r sorted), Hskip.
      apply in_or_app. now right. }
    assert (Hlt : last_accessed (snd y) < last_accessed (snd e)).
    { apply Hnew; [exact Hyd|]. intros ->. now apply Hne. }
    unfold older_first in Hle. lia.
Qed.

Lemma same_mtime_within_tolerance (q : Q) : differs_by_more_than_1 q q = false.
Proof.
  unfold differs_by_more_than_1. apply negb_false_iff, Qle_bool_iff.
  apply Qabs_Qle_condition. split.
  - setoid_replace (q - q)%Q with 0%Q by ring. discriminate.
  - setoid_replace (q - q)%Q with 0%Q by ring. discriminate.
Qed.

Lemma changed_mtime_detected (a b : Q) :
  (1 < Qabs (a - b))%Q -> differs_by_more_than_1 a b = true.
Proof.
  intros H. unfold differs_by_more_than_1. apply negb_true_iff.
  destruct (Qle_bool (Qabs (a - b)) 1) eqn:E; [|reflexivity].
  apply Qle_bool_iff in E. exfalso. now apply (Qlt_not_le _ _ H).
Qed.

Section SetThenGet.

Variable md5 : string -> string.
Variable sha256 : string -> string.
Variable str_float : Q -> string.
Variable json_config : Config -> string.
Variable json_key_data :
  string -> string -> string -> string -> Z * Z -> string -> string.
Variable stored_size : bool -> string -> Z.

Local Abbreviation key_of :=
  (_generate_cache_key md5 sha256 str_float json_config json_key_data).
Local Abbreviation has_cache_ :=
  (has_cache md5 sha256 str_float json_config json_key_data).
Local Abbreviation get_cache_ :=
  (get_cache md5 sha256 str_float json_config json_key_data).
Local Abbreviation set_cache_ :=
  (set_cache md5 sha256 str_float json_config json_key_data stored_size).

(** The state a successful [set_cache] leaves. *)
Lemma set_cache_state (m m' : CacheManager) (now : Z) (f : SourceFile)
    (conf : Config) (service terminology : string) (pages : Z * Z)
    (result : string) (time : Q) :
  NoDup (map fst (metadata m)) ->
  1 <= max_entries (config m) ->
  (forall it, In it (metadata m) -> last_accessed (snd it) < now) ->
  set_cache_ m now f conf service terminology pages result time = (true, m') ->
  exists key st fh,
    key_of (config m) f conf service terminology pages = Ok key /\
    stat f = Some st /\
    config m' = config m /\
    dict_get key (metadata m')
    = Some (new_metadata md5 (config m) now f st fh key conf service terminology
              pages COMPLETED time (utf8_len result)) /\
    dict_get key (payloads m')
    = Some (mkPayload (Some result)
              (stored_size (enable_compression (config m)) result)) /\
    (forall k, k <> key -> dict_get k (metadata m) = None ->
               dict_get k (metadata m') = None).
Proof.
  intros Hnd Hmax Hclock Hset. unfold set_cache in Hset.
  destruct (key_of (config m) f conf service terminology pages) as [key|] eqn:Hkey;
    [|discriminate].
  assert (Hfh : exists st fh, stat f = Some st /\
                              _calculate_file_hash md5 str_float f = Ok fh).
  { unfold _generate_cache_key in Hkey.
    destruct (_calculate_file_hash md5 str_float f) as [fh|] eqn:E; [|discriminate].
    unfold _calculate_file_hash in E. destruct (stat f) as [st|]; [|discriminate].
    now exists st, fh. }
  destruct Hfh as (st & fh & Hst & Hfh). rewrite Hst, Hfh in Hset.
  exists key, st, fh. split; [reflexivity|]. split; [exact Hst|].
  set (md := new_metadata md5 (config m) now f st fh key conf service terminology
               pages COMPLETED time (utf8_len result)) in *.
  set (written := dict_set key _ (payloads m)) in *.
  set (m1 := mkCacheManager (config m) (dict_set key md (metadata m)) written) in *.
  assert (Hnd1 : NoDup (map fst (metadata m1))) by now apply dict_set_keys.
  destruct (max_entries (config m) <? Z.of_nat (List.length (metadata m1))) eqn:Hfull.
  - (* the count passed [max_entries]: the oldest entries go *)
    apply Z.ltb_lt in Hfull.
    unfold _cleanup_old_entries in Hset.
    change (config m1) with (config m) in Hset.
    rewrite (proj2 (Z.leb_gt _ _)) in Hset by lia.
    injection Hset as _ <-.
    set (r := Z.to_nat (Z.of_nat (List.length (metadata m1)) - max_entries (config m))).
    set (victims := map fst (firstn r (sort_by older_first (metadata m1)))).
    assert (Hsafe : ~ In key victims).
    { apply (newest_not_evicted (metadata m1) (key, md) r); auto.
      - apply dict_get_In, dict_get_set_same.
      - intros x Hx Hne. apply in_dict_set in Hx. destruct Hx as [->|Hx]; [congruence|].
        now apply Hclock.
      - unfold r. lia. }
    split; [now rewrite drop_entries_config|].
    split; [|split].
    + apply In_dict_get.
      * rewrite drop_entries_metadata by assumption. now apply keys_filter.
      * rewrite drop_entries_metadata by assumption. apply filter_In. split.
        -- apply dict_get_In, dict_get_set_same.
        -- change (negb (str_in key victims) = true).
           destruct (str_in key victims) eqn:E; [|reflexivity].
           now apply str_in_In in E.
    + rewrite drop_entries_payloads by assumption. apply dict_get_set_same.
    + intros k Hk Hnone.
      change (dict_get k (metadata (fold_left drop_entry victims m1)) = None).
      destruct (dict_get k (metadata (fold_left drop_entry victims m1))) as [x|] eqn:E;
        [|reflexivity].
      exfalso. apply dict_get_In in E.
      rewrite drop_entries_metadata in E by assumption.
      apply filter_In in E. destruct E as (E & _).
      apply in_dict_set in E. destruct E as [[= -> _]|E]; [congruence|].
      now apply (dict_get_none_not_in _ _ _ Hnone) in E.
  - injection Hset as <-. cbn [config metadata payloads m1].
    split; [reflexivity|]. split; [apply dict_get_set_same|].
    split; [apply dict_get_set_same|].
    intros k Hk Hnone. now rewrite dict_get_set_other.
Qed.


End SetThenGet.




(** The specification's example of 1050 insertions, made through
    [set_cache]: [set_cache] itself evicts the oldest entry whenever the
    count passes [max_entries], so 1000 entries stand when [cleanup] is
    called (those stored last, from the 51st on), and [cleanup] removes
    none of them. *)
Example cleanup_after_1050_set_cache :
  let m := filled_by_set_cache 1050 in
  let r := cleanup m (1051 * 1000000) in
  List.length (metadata m) = 1000%nat /\
  fst r = no_stats /\
  List.length (metadata (snd r)) = 1000%nat /\
  map (fun kv => last_accessed (snd kv)) (firstn 2 (metadata (snd r)))
  = [51 * 1000000; 52 * 1000000].
Proof. vm_compute. repeat split. Qed.

End CacheFacts.

(** ** Properties of the retry manager *)

Module RetryFacts.
Import Retry.

(** *** Back-off *)

Lemma clamp_le (x cap : Q) : (Qmin x cap <= cap)%Q.
Proof. apply Q.le_min_r. Qed.



(** The first delays of the default back-off, jitter off. *)
Example default_delays :
  map (fun n => Qred (_calculate_delay (without_jitter default_config) n TIMEOUT 1))
    [0; 1; 2; 3; 4; 8; 9; 50]
  = [1; 2; 4; 8; 16; 256; 300; 300]%Q.
Proof. vm_compute. reflexivity. Qed.

(** *** Circuit breaker *)

(** Five failures through a new breaker open it, whenever they happen. *)
Lemma five_failures_open (t1 t2 t3 t4 t5 : Z * Z) :
  let cb := calls (new_breaker 5 300)
              (map (fun t => (fst t, snd t, failing)) [t1; t2; t3; t4; t5]) in
  state cb = open /\ failure_count cb = 5 /\ last_failure_time cb = Some (snd t5).
Proof. cbn. repeat split. Qed.

(** While the breaker is open and fewer than [recovery_time] seconds (and
    less than a day) have passed since the last failure, a call is
    rejected, the wrapped function is not invoked and the breaker stays
    as it is. *)
Lemma open_breaker_rejects (cb : CircuitBreaker) (last now after : Z)
    (func : unit -> Result string) :
  state cb = open ->
  last_failure_time cb = Some last ->
  0 <= now - last < seconds 86400 ->
  whole_seconds (now - last) < recovery_time cb ->
  call cb now after func = mkCalled cb false (Raise "Circuit breaker is open").
Proof.
  intros Hs Hl Hday Hrec. unfold call. rewrite Hs, Hl.
  unfold timedelta_seconds, whole_seconds, seconds in *.
  rewrite Z.mod_small by lia.
  now rewrite (proj2 (Z.ltb_lt _ _) Hrec).
Qed.

(** Once [recovery_time] seconds have passed, and less than a day, the
    next call goes through to the wrapped function in [half_open] state;
    its success closes the breaker and sets the failure count to 0. *)
Lemma open_breaker_recovers (cb : CircuitBreaker) (last now after : Z)
    (func : unit -> Result string) (text : string) :
  state cb = open ->
  last_failure_time cb = Some last ->
  0 <= now - last < seconds 86400 ->
  recovery_time cb <= whole_seconds (now - last) ->
  func tt = Ok text ->
  let c := call cb now after func in
  invoked c = true /\ outcome c = Ok text /\
  state (breaker c) = closed /\ failure_count (breaker c) = 0.
Proof.
  intros Hs Hl Hday Hrec Hok. unfold call. rewrite Hs, Hl.
  unfold timedelta_seconds, whole_seconds, seconds in *.
  rewrite Z.mod_small by lia.
  rewrite (proj2 (Z.ltb_ge _ _) Hrec).
  unfold attempt_call. rewrite Hok. cbn. repeat split.
Qed.

(** C4 at a failing input.  Five failures, the last at second 4, open the
    breaker (threshold 5, recovery time 300 s).  A call one day and ten
    seconds later, 86410 s after the last failure, is still rejected
    without invoking the wrapped function: [timedelta.seconds] is 10, the
    whole day does not count. *)
Theorem breaker_still_open_a_day_later :
  let cb := calls (new_breaker 5 300) five_failures in
  let now := seconds 86414 in
  let c := call cb now now succeeding in
  state cb = open /\
  last_failure_time cb = Some (seconds 4) /\
  whole_seconds (now - seconds 4) = 86410 /\
  timedelta_seconds (now - seconds 4) = 10 /\
  invoked c = false /\
  outcome c = Raise "Circuit breaker is open" /\
  state (breaker c) = open.
Proof. vm_compute. repeat split. Qed.

(** The same breaker 300 seconds after the last failure lets the call
    through, and its success resets the breaker. *)
Example breaker_recovers_after_300s :
  let cb := calls (new_breaker 5 300) five_failures in
  let c := call cb (seconds 304) (seconds 304) succeeding in
  invoked c = true /\ outcome c = Ok "text" /\
  state (breaker c) = closed /\ failure_count (breaker c) = 0.
Proof. vm_compute. repeat split. Qed.

(** Within a day of the last failure the breaker does what C4 says: five
    failures open it, a call before [recovery_time] is rejected unseen by
    the wrapped function, a call from [recovery_time] on is let through,
    and its success closes the breaker with a failure count of 0. *)
Theorem breaker_trip_and_recovery_within_a_day (t1 t2 t3 t4 t5 : Z * Z)
    (now after : Z) (func : unit -> Result string) :
  let cb := calls (new_breaker 5 300)
              (map (fun t => (fst t, snd t, failing)) [t1; t2; t3; t4; t5]) in
  let elapsed := now - snd t5 in
  0 <= elapsed < seconds 86400 ->
  state cb = open /\
  (whole_seconds elapsed < 300 ->
   call cb now after func = mkCalled cb false (Raise "Circuit breaker is open")) /\
  (300 <= whole_seconds elapsed ->
   forall text, func tt = Ok text ->
     let c := call cb now after func in
     invoked c = true /\ outcome c = Ok text /\
     state (breaker c) = closed /\ failure_count (breaker c) = 0).
Proof.
  intros cb elapsed Hday.
  destruct (five_failures_open t1 t2 t3 t4 t5) as (Hopen & _ & Hlast).
  fold cb in Hopen, Hlast.
  split; [exact Hopen|]. split.
  - intros Hrec. now apply (open_breaker_rejects cb (snd t5)).
  - intros Hrec text Hok. now apply (open_breaker_recovers cb (snd t5)).
Qed.

Lemma breaker_trip_and_recovery_within_a_day_witness :
  let cb := calls (new_breaker 5 300) five_failures in
  state cb = open /\
  (whole_seconds (seconds 100 - seconds 4) < 300 ->
   call cb (seconds 100) (seconds 100) succeeding
   = mkCalled cb false (Raise "Circuit breaker is open")) /\
  (300 <= whole_seconds (seconds 304 - seconds 4) ->
   forall text, succeeding tt = Ok text ->
     let c := call cb (seconds 304) (seconds 304) succeeding in
     invoked c = true /\ outcome c = Ok text /\
     state (breaker c) = closed /\ failure_count (breaker c) = 0).
Proof.
  pose proof (breaker_trip_and_recovery_within_a_day
                (seconds 0, seconds 0) (seconds 1, seconds 1) (seconds 2, seconds 2)
                (seconds 3, seconds 3) (seconds 4, seconds 4)) as H.
  split; [|split].
  - apply (H (seconds 100) (seconds 100) succeeding). vm_compute. split; congruence.
  - apply (H (seconds 100) (seconds 100) succeeding). vm_compute. split; congruence.
  - apply (H (seconds 304) (seconds 304) succeeding). vm_compute. split; congruence.
Defined.

(** *** Checkpointed processing *)

(** C3 at a failing input.  A two-page job whose page 2 fails leaves a
    checkpoint with page 1 completed and its text under the key "1" (JSON
    has no integer keys); the cache entry is marked failed and the run
    raises.  The resumed run skips page 1, gets "B" for page 2, counts
    two completed pages, and returns and caches "B" alone: page 1's text
    is looked up under the integer 1 and not found. *)
Theorem resumed_run_loses_checkpointed_text :
  let first := run empty_world 0 fails_on_page_2 in
  let second := run (snd first) (seconds 1) page_2_recovered in
  fst first = Raise "部分页面处理失败: 成功 1/2 页, 失败页面: [2]" /\
  map (fun kv => (completed_pages (snd kv), failed_pages (snd kv),
                  partial_results (snd kv)))
      (states (snd first))
  = [([1], [2], [(KStr "1", "A")])] /\
  map (fun kv => Cache.status (snd kv)) (Cache.metadata (cache (snd first)))
  = [Cache.FAILED] /\
  fst second = Ok "B" /\
  fst second <> Ok ("A" ++ LF ++ LF ++ "B") /\
  states (snd second) = [] /\
  map (fun kv => Cache.content (snd kv)) (Cache.payloads (cache (snd second)))
  = [Some "B"].
Proof. vm_compute. repeat split. discriminate. Qed.

(** The same job run once with both pages succeeding returns both texts
    in page order. *)
Example unbroken_run_joins_pages :
  let r := run empty_world 0 page_2_recovered in
  fst r = Ok ("A" ++ LF ++ LF ++ "B") /\ states (snd r) = [] /\
  map (fun kv => Cache.content (snd kv)) (Cache.payloads (cache (snd r)))
  = [Some ("A" ++ LF ++ LF ++ "B")].
Proof. vm_compute. repeat split. Qed.

(** *** A run without a checkpoint *)

Lemma page_numbers_spec (a b p : Z) : In p (page_numbers a b) <-> a <= p <= b.
Proof.
  unfold page_numbers. rewrite in_map_iff. split.
  - intros (i & <- & Hi). apply in_seq in Hi. lia.
  - intros Hp. exists (Z.to_nat (p - a)). split; [lia|]. apply in_seq. lia.
Qed.

Lemma page_numbers_nodup (a b : Z) : NoDup (page_numbers a b).
Proof.
  unfold page_numbers. apply Finite.Injective_map_NoDup; [|apply seq_NoDup].
  intros i j H. lia.
Qed.

Lemma page_numbers_length (a b : Z) :
  a <= b -> Z.of_nat (List.length (page_numbers a b)) = b - a + 1.
Proof. intros H. unfold page_numbers. rewrite length_map, length_seq. lia. Qed.

Lemma int_in_In (x : Z) (xs : list Z) : int_in x xs = true <-> In x xs.
Proof.
  unfold int_in. rewrite existsb_exists. split.
  - intros (y & Hy & E). apply Z.eqb_eq in E. now subst.
  - intros H. exists x. split; [assumption|apply Z.eqb_refl].
Qed.

Lemma pk_get_set_same (k : PyKey) (v : string) (d : list (PyKey * string)) :
  pk_get k (pk_set k v d) = Some v.
Proof.
  assert (Hrefl : key_eqb k k = true)
    by (destruct k; cbn; [apply Z.eqb_refl|apply String.eqb_refl]).
  induction d as [|[k' v'] d IH]; cbn; [now rewrite Hrefl|].
  destruct (key_eqb k k') eqn:E; cbn; [now rewrite Hrefl|]. now rewrite E.
Qed.

Lemma pk_get_set_other (p q : Z) (v : string) (d : list (PyKey * string)) :
  p <> q -> pk_get (KInt p) (pk_set (KInt q) v d) = pk_get (KInt p) d.
Proof.
  intros Hne. induction d as [|[k' v'] d IH]; cbn.
  - now rewrite (proj2 (Z.eqb_neq _ _) Hne).
  - destruct k' as [r|t]; cbn; [|exact IH].
    destruct (Z.eqb_spec q r) as [<-|Hqr]; cbn.
    + now rewrite (proj2 (Z.eqb_neq _ _) Hne).
    + destruct (p =? r); [reflexivity|exact IH].
Qed.

Lemma dict_del_set {V : Type} (k : string) (v : V) (d : list (string * V)) :
  dict_del k (dict_set k v d) = dict_del k d.
Proof.
  induction d as [|[k' v'] d IH]; cbn; [now rewrite String.eqb_refl|].
  destruct (k =? k')%string eqn:E; cbn.
  - now rewrite String.eqb_refl.
  - now rewrite E, IH.
Qed.

Lemma dict_del_absent {V : Type} (k : string) (d : list (string * V)) :
  dict_get k d = None -> dict_del k d = d.
Proof.
  induction d as [|[k' v'] d IH]; cbn; [reflexivity|].
  destruct (k =? k')%string; [discriminate|]. intros H. now rewrite IH.
Qed.

Section FreshRun.

Variable md5 : string -> string.
Variable sha256 : string -> string.
Variable str_float : Q -> string.
Variable json_config : Cache.Config -> string.
Variable json_key_data :
  string -> string -> string -> string -> Z * Z -> string -> string.
Variable stored_size : bool -> string -> Z.
Variable cfg : RetryConfig.
Variable now : Z.
Variable rnd : Q.
Variable process_func : PageProcessor.

(** The text [process_func] returns for each page, at once and not empty. *)
Variable texts : Z -> string.

Local Abbreviation process_page_ := (process_page cfg now rnd process_func).

(** A page that the checkpoint lists as completed is skipped: nothing is
    called, nothing is written. *)
Lemma completed_page_skipped (key : string) (s : ProcessingState)
    (disk : list (string * ProcessingState)) (n : nat) (page : Z) :
  In page (completed_pages s) ->
  process_page_ key (s, disk, n) page = (s, disk, n).
Proof.
  intros H. unfold process_page. now rewrite (proj2 (int_in_In _ _) H).
Qed.

(** The loop over pages that all succeed at their first attempt. *)
Lemma pages_loop_all_succeed (key : string) (l : list Z) :
  0 <= max_retries cfg ->
  (forall n p, In p l -> process_func n p = Returned (Some (texts p)) /\ texts p <> "") ->
  NoDup l ->
  forall s disk n,
    (forall p, In p l -> ~ In p (completed_pages s)) ->
    failed_pages s = [] ->
    let '(s', disk', _) := fold_left (process_page_ key) l (s, disk, n) in
    completed_pages s' = (completed_pages s ++ l)%list /\
    failed_pages s' = [] /\
    start_time s' = start_time s /\
    dict_del key disk' = dict_del key disk /\
    (forall p, In p l -> pk_get (KInt p) (partial_results s') = Some (texts p)) /\
    (forall p, ~ In p l ->
               pk_get (KInt p) (partial_results s') = pk_get (KInt p) (partial_results s)).
Proof.
  intros Hretries Hok. induction l as [|page l IH]; intros Hnd s disk n Hnew Hfailed.
  - cbn. rewrite app_nil_r. repeat split; auto. intros p [].
  - inversion Hnd as [|? ? Hpage Hnd']; subst. cbn [fold_left].
    assert (Hstep : process_page_ key (s, disk, n) page
                    = (page_done (start_page s page now) page (texts page),
                       dict_set key (saved (page_done (start_page s page now) page
                                              (texts page)))
                         (dict_set key (saved (start_page s page now)) disk),
                       S n)).
    { unfold process_page.
      destruct (int_in page (completed_pages s)) eqn:E.
      - apply int_in_In in E. exfalso. apply (Hnew page); [now left|exact E].
      - unfold attempts_fuel.
        destruct (Z.to_nat (max_retries cfg + 1)) as [|fuel] eqn:Hfuel; [lia|].
        cbn [_process_page_with_retry].
        rewrite (proj2 (Z.leb_le _ _) Hretries).
        destruct (Hok n page (or_introl eq_refl)) as (-> & Hne). cbn.
        destruct (texts page) eqn:Ht; [congruence|reflexivity]. }
    rewrite Hstep.
    specialize (IH (fun n p Hp => Hok n p (or_intror Hp)) Hnd'
                  (page_done (start_page s page now) page (texts page))
                  (dict_set key (saved (page_done (start_page s page now) page
                                          (texts page)))
                     (dict_set key (saved (start_page s page now)) disk))
                  (S n)).
    destruct (fold_left (process_page_ key) l _) as [[s' disk'] n'].
    destruct IH as (Hc & Hf & Hst & Hdisk & Hin & Hout).
    + cbn. intros p Hp Hcontra. apply in_app_or in Hcontra.
      destruct Hcontra as [Hcontra|[->|[]]]; [|contradiction].
      apply (Hnew p); [now right|exact Hcontra].
    + cbn. now rewrite Hfailed.
    + cbn in Hc, Hst. rewrite Hc, <- app_assoc.
      split; [reflexivity|]. split; [exact Hf|]. split; [exact Hst|].
      split; [now rewrite Hdisk, !dict_del_set|]. split.
      * intros p [<-|Hp]; [|now apply Hin].
        rewrite (Hout page Hpage). cbn. apply pk_get_set_same.
      * intros p Hp. rewrite Hout by (intros H; apply Hp; now right).
        cbn. apply pk_get_set_other. intros ->. apply Hp. now left.
Qed.

Lemma collected_all (s : ProcessingState) (l : list Z) :
  (forall p, In p l -> pk_get (KInt p) (partial_results s) = Some (texts p)) ->
  collected s l = map texts l.
Proof.
  induction l as [|p l IH]; intros H; [reflexivity|].
  cbn. rewrite (H p (or_introl eq_refl)). cbn. f_equal.
  apply IH. intros q Hq. apply H. now right.
Qed.

(** A run with no cached result and no checkpoint, in which
    [process_func] returns a non-empty text for every page of
    [a .. b]: the texts are joined in ascending page order, the joined
    text is stored through [set_cache] (on the cache as
    [mark_processing] left it), no checkpoint file remains, and the
    joined text is returned. *)
Theorem fresh_run_joins_pages (w : World) (f : Cache.SourceFile)
    (conf : Cache.Config) (service terminology key : string) (a b : Z) :
  a <= b ->
  0 <= max_retries cfg ->
  Cache._generate_cache_key md5 sha256 str_float json_config json_key_data
    (Cache.config (cache w)) f conf service terminology (a, b) = Ok key ->
  Cache.has_cache md5 sha256 str_float json_config json_key_data (cache w) now f
    conf service terminology (a, b) = Ok false ->
  dict_get key (states w) = None ->
  (forall n p, a <= p <= b ->
               process_func n p = Returned (Some (texts p)) /\ texts p <> "") ->
  let r := process_with_recovery md5 sha256 str_float json_config json_key_data
             stored_size cfg now rnd process_func w f conf service terminology
             (a, b) in
  let combined := join (LF ++ LF) (map texts (page_numbers a b)) in
  fst r = Ok combined /\
  states (snd r) = states w /\
  exists c time,
    Cache.mark_processing md5 sha256 str_float json_config json_key_data (cache w)
      now f conf service terminology (a, b) = Ok (key, c) /\
    cache (snd r)
    = snd (Cache.set_cache md5 sha256 str_float json_config json_key_data
             stored_size c now f conf service terminology (a, b) combined time).
Proof.
  intros Hab Hretries Hkey Hmiss Hnew Hok.
  assert (Hmark : exists c,
             Cache.mark_processing md5 sha256 str_float json_config json_key_data
               (cache w) now f conf service terminology (a, b) = Ok (key, c)).
  { unfold Cache.mark_processing. rewrite Hkey.
    unfold Cache._generate_cache_key in Hkey.
    destruct (Cache._calculate_file_hash md5 str_float f) as [fh|] eqn:E; [|discriminate].
    pose proof E as E'. unfold Cache._calculate_file_hash in E'.
    destruct (Cache.stat f) as [st|]; [|discriminate].
    eexists. reflexivity. }
  destruct Hmark as (c & Hmark).
  cbv zeta. unfold process_with_recovery.
  rewrite Hkey. unfold Cache.get_cache. rewrite Hmiss, Hnew, Hmark.
  unfold process_pages. cbn [fst snd].
  pose proof (pages_loop_all_succeed key (page_numbers a b) Hretries) as Hloop.
  specialize (Hloop (fun n p Hp => Hok n p (proj1 (page_numbers_spec a b p) Hp))
                (page_numbers_nodup a b)
                (mkProcessingState (Cache.path f) key (b - a + 1) [] [] None now now
                   [] conf service terminology (a, b) [])
                (states w) O (fun p _ H => H) eq_refl).
  destruct (fold_left _ (page_numbers a b) _) as [[s disk] n].
  destruct Hloop as (Hc & _ & Hst & Hdisk & Hin & _).
  cbn in Hc, Hst. rewrite Hc, page_numbers_length, Z.eqb_refl by assumption.
  rewrite (collected_all s _ Hin). cbn [fst snd states cache].
  split; [reflexivity|]. split.
  - now rewrite Hdisk, dict_del_absent.
  - exists c. eexists. split; reflexivity.
Qed.

End FreshRun.

(** The two-page job of the example, run once on an empty world. *)
Lemma fresh_run_joins_pages_witness :
  let r := run empty_world 0 page_2_recovered in
  fst r = Ok ("A" ++ LF ++ LF ++ "B") /\ states (snd r) = [].
Proof.
  destruct (fresh_run_joins_pages Cache.toy_hash Cache.toy_hash Cache.toy_float
              Cache.toy_json_config Cache.toy_json_key_data Cache.toy_stored_size
              default_config 0 1 page_2_recovered
              (fun p => if p =? 2 then "B" else "A")
              empty_world Cache.report_pdf [] "dashscope" ""
              "report.pdf:2048:1000/1%PDF-1.7||dashscope||1|2|v1.0" 1 2)
    as (Hres & Hstates & _).
  - lia.
  - cbn. lia.
  - reflexivity.
  - reflexivity.
  - reflexivity.
  - intros n p Hp. assert (Hcases : p = 1 \/ p = 2) by lia.
    destruct Hcases as [-> | ->]; split; reflexivity || discriminate.
  - split; [exact Hres|exact Hstates].
Defined.

End RetryFacts.

(** ** Properties of the image preprocessor *)

Module PreprocessorFacts.
Import Preprocessor.

Lemma swap_bands_twice (px : list (list Z)) :
  map swap_bands (map swap_bands px) = px.
Proof.
  rewrite map_map. rewrite <- (map_id px) at 2. apply map_ext.
  intros p. apply rev_involutive.
Qed.

Lemma drop_alpha_then_swap (px : list (list Z)) :
  map swap_bands (map drop_alpha_swap px) = map (firstn 3) px.
Proof. rewrite map_map. apply map_ext. intros p. apply rev_involutive. Qed.

(** Mode [none] switches the five feature flags off and touches nothing
    else. *)
Lemma none_preset (c : PreprocessingConfig) :
  mode c = NONE ->
  let c' := _apply_mode_preset c in
  enable_noise_reduction c' = false /\ enable_sharpening c' = false /\
  enable_contrast_enhancement c' = false /\ enable_deskewing c' = false /\
  enable_perspective_correction c' = false /\
  binarization c' = binarization c /\ grayscale c' = grayscale c /\
  output_dpi c' = output_dpi c.
Proof. intros H. unfold _apply_mode_preset. rewrite H. cbn. repeat split. Qed.

Section Pipeline.

Variable convert_rgb : PILImage -> PILImage.
Variable _detect_skew_angle : CvImage -> Q.
Variable _rotate_image : CvImage -> Q -> CvImage.
Variable _correct_perspective : CvImage -> option CvImage.
Variable format_angle : Q -> string.
Variable _reduce_noise : PreprocessingConfig -> CvImage -> CvImage.
Variable _enhance_contrast : PreprocessingConfig -> CvImage -> CvImage.
Variable _sharpen_image : PreprocessingConfig -> CvImage -> CvImage.
Variable _binarize_image : CvImage -> CvImage.
Variable to_gray : CvImage -> CvImage.
Variable _adjust_dpi : PreprocessingConfig -> PILImage -> PILImage.
Variable _calculate_quality_score : CvImage -> Q.

Local Abbreviation preprocess :=
  (preprocess_image convert_rgb _detect_skew_angle _rotate_image
     _correct_perspective format_angle _reduce_noise _enhance_contrast
     _sharpen_image _binarize_image to_gray _adjust_dpi _calculate_quality_score).

(** C8, as the code has it.  With mode [none], binarization and
    grayscale off and [output_dpi = 300] (what
    [create_preprocessor_config("none")] gives), no operation is applied:
    an RGB or L image comes back identical, pixel for pixel; an RGBA
    image comes back as an RGB image, its alpha band dropped. *)
Theorem preprocess_none_identity (self_config c : PreprocessingConfig)
    (image : PILImage) :
  mode c = NONE ->
  binarization c = false ->
  grayscale c = false ->
  output_dpi c = 300 ->
  let '(processed, stats, _) := preprocess self_config image (Some c) in
  operations_applied stats = [] /\
  (im_mode image = "RGB" \/ im_mode image = "L" -> processed = image) /\
  (im_mode image = "RGBA" ->
   processed = mkPILImage "RGB" (im_size image) (map (firstn 3) (im_pixels image))).
Proof.
  intros Hmode Hbin Hgray Hdpi. unfold preprocess_image, _apply_mode_preset.
  rewrite Hmode. cbn -[_pil_to_cv2 _cv2_to_pil]. unfold stage.
  rewrite Hbin, Hgray, Hdpi. cbn -[_pil_to_cv2 _cv2_to_pil].
  split; [reflexivity|]. split.
  - intros [H|H]; unfold _pil_to_cv2, _cv2_to_pil; rewrite H; cbn.
    + rewrite swap_bands_twice. destruct image. cbn in *. now subst.
    + destruct image. cbn in *. now subst.
  - intros H. unfold _pil_to_cv2, _cv2_to_pil. rewrite H. cbn.
    now rewrite drop_alpha_then_swap.
Qed.

End Pipeline.

(** C8 on a 2 x 1 RGB image and on a 1 x 2 grey image, mode [none]. *)
Lemma preprocess_none_identity_witness :
  let rgb := mkPILImage "RGB" (2, 1) [[10; 20; 30]; [40; 50; 60]] in
  let grey := mkPILImage "L" (1, 2) [[7]; [200]] in
  let out := preprocess_plain (create_preprocessor_config NONE) in
  fst (fst (out rgb)) = rgb /\ operations_applied (snd (fst (out rgb))) = [] /\
  fst (fst (out grey)) = grey /\ operations_applied (snd (fst (out grey))) = [].
Proof.
  cbv zeta.
  pose proof (fun im =>
    preprocess_none_identity (fun im => im) (fun _ => 0%Q) (fun cv _ => cv)
      (fun _ => None) (fun _ => "0.0") (fun _ => same_cv) (fun _ => same_cv)
      (fun _ => same_cv) same_cv same_cv (fun _ im => im) (fun _ => 50%Q)
      (config_with_mode DOCUMENT) (create_preprocessor_config NONE) im
      eq_refl eq_refl eq_refl eq_refl) as H.
  pose proof (H (mkPILImage "RGB" (2, 1) [[10; 20; 30]; [40; 50; 60]])) as Hrgb.
  pose proof (H (mkPILImage "L" (1, 2) [[7]; [200]])) as Hgrey.
  unfold preprocess_plain.
  destruct (preprocess_image _ _ _ _ _ _ _ _ _ _ _ _ _
              (mkPILImage "RGB" _ _) _) as [[p1 s1] c1].
  destruct (preprocess_image _ _ _ _ _ _ _ _ _ _ _ _ _
              (mkPILImage "L" _ _) _) as [[p2 s2] c2].
  cbn [fst snd].
  destruct Hrgb as (Hops1 & Hid1 & _). destruct Hgrey as (Hops2 & Hid2 & _).
  repeat split; auto.
Defined.

(** C8 as stated fails on an image with an alpha band: mode [none]
    returns it as an RGB image, so not identical to the input. *)
Lemma preprocess_none_changes_rgba :
  let out := preprocess_plain (create_preprocessor_config NONE) rgba_image in
  fst (fst out) = mkPILImage "RGB" (2, 1) [[10; 20; 30]; [40; 50; 60]] /\
  fst (fst out) <> rgba_image /\
  operations_applied (snd (fst out)) = [].
Proof. vm_compute. repeat split. discriminate. Qed.

(** Mode [none] leaves a binarization flag that was set: the image is
    binarized and the operation is listed. *)
Example preprocess_none_keeps_binarization :
  let c := set_binarization (create_preprocessor_config NONE) true in
  operations_applied
    (snd (fst (preprocess_plain c (mkPILImage "L" (1, 1) [[7]]))))
  = ["binarization"].
Proof. vm_compute. reflexivity. Qed.

End PreprocessorFacts.

(** ** Properties of the text-correction stage *)

Module CorrectionFacts.
Import Correction.

(** [correct_text_with_gemini] swallows every exception of its body. *)
Lemma correct_text_with_gemini_returns (primary : Primary) (ocr_text terms : string) :
  exists r, correct_text_with_gemini primary ocr_text terms = Ok r.
Proof.
  unfold correct_text_with_gemini, catch.
  destruct (primary _) as [response|e]; [|eexists; reflexivity].
  destruct (choices response) as [|[content|] rest]; eexists; reflexivity.
Qed.

Lemma official_service_returns (fallback : Fallback) (ocr_text terms : string) :
  exists r, official_service fallback ocr_text terms = Ok r.
Proof.
  unfold official_service, catch.
  destruct (fallback _) as [response|e]; [|eexists; reflexivity].
  destruct (text response); eexists; reflexivity.
Qed.

(** So the fallback of the streaming variant is never reached. *)
Lemma fallback_never_called (api_key base_url : string) (primary : Primary)
    (fallback : Fallback) (ocr_text terms : string) (prompt : string) :
  ~ In (FallbackCall prompt)
      (snd (correct_text_with_gemini_streaming api_key base_url primary fallback
              ocr_text terms)).
Proof.
  unfold correct_text_with_gemini_streaming.
  destruct (is_empty api_key || is_empty base_url); [intros []|].
  destruct (correct_text_with_gemini_returns primary ocr_text terms) as (r & ->).
  cbn. intros [H|[]]. discriminate.
Qed.


(** What holds of C9 on the code.  The stage never raises.  With
    [GEMINI_API_KEY] or [GEMINI_BASE_URL] empty it returns the input text
    with three zero counters and makes no network call.  With both set
    and the primary call raising, it returns the input text with a usage
    dict in which every counter reads 0 (the dict is empty), after the
    one primary call. *)
Theorem correction_is_best_effort (api_key base_url : string) (primary : Primary)
    (fallback : Fallback) (ocr_text terms : string) :
  let run := correct_text_with_gemini_streaming api_key base_url primary fallback
               ocr_text terms in
  (exists out usage, fst run = Ok (out, usage)) /\
  (api_key = "" \/ base_url = "" -> run = (Ok (ocr_text, zero_usage), [])) /\
  (api_key <> "" /\ base_url <> "" ->
   forall e, primary (primary_prompt ocr_text terms) = Raise e ->
     exists usage,
       run = (Ok (ocr_text, usage), [PrimaryCall (primary_prompt ocr_text terms)]) /\
       forall name, usage_get name usage = 0).
Proof.
  cbv zeta. unfold correct_text_with_gemini_streaming. split; [|split].
  - destruct (is_empty api_key || is_empty base_url); [now exists ocr_text, zero_usage|].
    destruct (correct_text_with_gemini_returns primary ocr_text terms) as ([out u] & ->).
    now exists out, u.
  - intros [-> | ->]; cbn; [reflexivity|]. now rewrite orb_true_r.
  - intros (Hkey & Hurl) e He.
    destruct api_key; [congruence|]. destruct base_url; [congruence|]. cbn.
    unfold correct_text_with_gemini. rewrite He. cbn.
    exists []. split; [reflexivity|]. reflexivity.
Qed.

End CorrectionFacts.
(** ** Properties of the analysis and of the plans made from it *)

Module PlanFacts.
Import Splitter.

Lemma pages_per_chunk_min (cfg : SplitConfig) (a : Analysis) :
  min_pages_per_chunk cfg <= pages_per_chunk cfg a.
Proof. unfold pages_per_chunk. lia. Qed.

Lemma safe_pages_min (cfg : SplitConfig) (a : Analysis) :
  min_pages_per_chunk cfg <= safe_pages cfg a.
Proof. unfold safe_pages. lia. Qed.

Lemma split_loop_plan (w n : Z) (avg : Q) :
  1 <= w -> 0 <= n ->
  exists cs, split_loop (Z.to_nat n) w 0 n avg 1 1 = Some cs /\ well_formed_plan n cs.
Proof.
  intros Hw Hn.
  destruct (SplitterFacts.split_loop_tiles w n avg Hw (Z.to_nat n) 1 1)
    as (cs & Hrun & Ht & Hall & Hnum); [lia|lia|].
  exists cs. split; [exact Hrun|]. repeat split; auto.
  eapply Forall_impl; [|exact Hall]. cbn. intros c [H _]. exact H.
Qed.

(** With no overlap, windows of at least one page and at least one page to
    plan, every branch of [create_split_plan] returns a well-formed plan. *)
Lemma plan_well_formed (cfg : SplitConfig) (pdf : Pdf) (analysis : option AnalysisDict) :
  let d := match analysis with Some d => d | None => analyze_pdf cfg pdf end in
  let n := an_page_count (numbers d) in
  overlap_pages cfg = 0 ->
  1 <= max_pages_per_chunk cfg ->
  1 <= min_pages_per_chunk cfg ->
  1 <= n ->
  exists cs,
    create_split_plan (Z.to_nat n) cfg pdf analysis = Some cs /\
    well_formed_plan n cs.
Proof.
  intros d n Hov Hmax Hmin Hn.
  unfold create_split_plan. fold d. fold n.
  assert (Hsize := pages_per_chunk_min cfg (numbers d)).
  assert (Hmem := safe_pages_min cfg (numbers d)).
  destruct (needs_splitting d).
  - cbn [negb].
    unfold _split_intelligently, _split_adaptively, _split_by_pages,
      _split_by_size, _split_by_memory.
    rewrite Hov. fold n.
    destruct (match recommended_strategy d with
              | Some s => s
              | None => strategy cfg
              end);
      repeat match goal with
             | |- context [if ?b then _ else _] => destruct b
             end;
      apply split_loop_plan; lia.
  - cbn [negb]. eexists. split; [reflexivity|].
    unfold well_formed_plan. cbn. repeat split; auto; try lia.
    constructor; [cbn; lia|constructor].
Qed.

(** Whatever the analysis recommends and whatever strategy is configured,
    a plan made with [overlap_pages = 0] for a document of at least one
    page is returned (the loops end within [page_count] turns) and is a
    partition of the pages [1 .. page_count]: consecutive chunks without
    gap or overlap, none empty, numbered from [chunk_001], every page in
    exactly one of them. *)
Theorem create_split_plan_partitions (cfg : SplitConfig) (pdf : Pdf)
    (analysis : option AnalysisDict) :
  let d := match analysis with Some d => d | None => analyze_pdf cfg pdf end in
  let n := an_page_count (numbers d) in
  overlap_pages cfg = 0 ->
  1 <= max_pages_per_chunk cfg ->
  1 <= min_pages_per_chunk cfg ->
  1 <= n ->
  exists cs,
    create_split_plan (Z.to_nat n) cfg pdf analysis = Some cs /\
    well_formed_plan n cs /\
    forall p, 1 <= p <= n ->
              List.length (filter (fun c => covers c p) cs) = 1%nat.
Proof.
  intros d n Hov Hmax Hmin Hn.
  destruct (plan_well_formed cfg pdf analysis Hov Hmax Hmin Hn)
    as (cs & Hrun & Hwf).
  exists cs. repeat split; auto; try apply Hwf.
  intros p Hp. destruct Hwf as (Ht & _ & _).
  now apply (SplitterFacts.tiles_cover_once cs 1 n p).
Qed.

Lemma create_split_plan_partitions_witness :
  exists cs,
    create_split_plan 300 default_config (plain_pdf 300 1048576) None = Some cs /\
    well_formed_plan 300 cs /\
    forall p, 1 <= p <= 300 ->
              List.length (filter (fun c => covers c p) cs) = 1%nat.
Proof.
  apply (create_split_plan_partitions default_config (plain_pdf 300 1048576) None);
    vm_compute; try reflexivity; discriminate.
Defined.

(** The estimate of [_estimate_memory_usage] never exceeds 2048. *)
Lemma estimate_capped (pages : list PdfPage) : _estimate_memory_usage pages <= 2048.
Proof. unfold _estimate_memory_usage. lia. Qed.

Lemma Qgtb_inject_Z (a b : Z) : Qgtb (inject_Z a) (inject_Z b) = (b <? a).
Proof.
  unfold Qgtb, Qle_bool. cbn. rewrite !Z.mul_1_r.
  destruct (Z.leb_spec a b), (Z.ltb_spec b a); cbn; auto; lia.
Qed.

(** A plan made from the analysis that [analyze_pdf] itself returns: a
    document that needs no splitting gives the single chunk
    [chunk_001]; otherwise the planner is chosen by the estimated memory,
    then the images, then the page count, [by_memory] being what is left.
    The configured [strategy] is never consulted, since the analysis
    always carries a recommendation; and where [max_memory_usage_mb] is
    1024 or more the capped estimate never recommends [by_memory]. *)
Theorem analysed_plan_ignores_strategy (fuel : nat) (cfg : SplitConfig) (pdf : Pdf) :
  let d := analyze_pdf cfg pdf in
  let a := numbers d in
  create_split_plan fuel cfg pdf None
  = (if negb (needs_splitting d) then
       Some [new_chunk "chunk_001" 1 (an_page_count a) (an_page_count a)
               (file_size_mb a)]
     else if Qgtb (estimated_memory_mb a) (inject_Z (max_memory_usage_mb cfg * 2))
     then _split_by_memory fuel cfg a
     else if has_images a then _split_by_size fuel cfg a
     else if 100 <? an_page_count a then _split_by_pages fuel cfg a
     else _split_by_memory fuel cfg a) /\
  (forall s, create_split_plan fuel (with_strategy cfg s) pdf None
             = create_split_plan fuel cfg pdf None) /\
  (1024 <= max_memory_usage_mb cfg -> recommended_strategy d <> Some BY_MEMORY).
Proof.
  intros d a. split; [|split].
  - unfold create_split_plan. fold d. fold a.
    destruct (negb (needs_splitting d)); [reflexivity|].
    unfold d at 1. unfold analyze_pdf. cbn [recommended_strategy].
    unfold _recommend_strategy.
    change (inject_Z (_estimate_memory_usage (pdf_pages pdf)))
      with (estimated_memory_mb a).
    change (_detect_images (pdf_pages pdf)) with (has_images a).
    change (Z.of_nat (List.length (pdf_pages pdf))) with (an_page_count a).
    destruct (Qgtb (estimated_memory_mb a) _); [reflexivity|].
    destruct (has_images a) eqn:Himg; [reflexivity|].
    destruct (200 <? an_page_count a) eqn:H200.
    + apply Z.ltb_lt in H200.
      now rewrite (proj2 (Z.ltb_lt 100 (an_page_count a))) by lia.
    + unfold _split_adaptively. rewrite Himg. reflexivity.
  - intros s. reflexivity.
  - intros Hmem. unfold d, analyze_pdf. cbn [recommended_strategy].
    unfold _recommend_strategy. rewrite Qgtb_inject_Z.
    assert (Hcap := estimate_capped (pdf_pages pdf)).
    rewrite (proj2 (Z.ltb_ge _ _)) by lia.
    destruct (_detect_images _); [discriminate|].
    destruct (200 <? _); discriminate.
Qed.

(** The loop in closed form. *)
Lemma split_loop_closed_form (w pages : Z) (avg : Q) :
  1 <= w ->
  forall (fuel : nat) (s k : Z) (cs : list ChunkInfo),
    s <= pages + 1 ->
    split_loop fuel w 0 pages avg s k = Some cs ->
    Z.of_nat (List.length cs) = (pages - s + w) / w /\
    forall (i : nat) (c : ChunkInfo),
      nth_error cs i = Some c ->
      chunk_id c = chunk_name (k + Z.of_nat i) /\
      start_page c = s + Z.of_nat i * w /\
      end_page c = Z.min (s + (Z.of_nat i + 1) * w - 1) pages /\
      page_count c = end_page c - start_page c + 1 /\
      estimated_size_mb c = (inject_Z (page_count c) * avg)%Q.
Proof.
  intros Hw fuel. induction fuel as [|fuel IH]; intros s k cs Hs Hrun.
  - cbn in Hrun. destruct (s <=? pages) eqn:Hle; [discriminate|].
    apply Z.leb_gt in Hle. injection Hrun as <-.
    assert (s = pages + 1) by lia. subst s. split.
    + cbn. replace (pages - (pages + 1) + w) with (w - 1) by lia.
      symmetry. apply Z.div_small. lia.
    + intros [|i] c Hc; discriminate.
  - cbn [split_loop] in Hrun. destruct (s <=? pages) eqn:Hle.
    + apply Z.leb_le in Hle.
      set (e := Z.min (s + w - 1) pages) in *.
      destruct (split_loop fuel w 0 pages avg (e + 1 - 0) (k + 1)) as [rest|] eqn:Hrest;
        [|discriminate].
      injection Hrun as <-.
      destruct (IH (e + 1 - 0) (k + 1) rest) as (Hlen & Hnth); [unfold e; lia|exact Hrest|].
      split.
      * cbn [List.length]. rewrite Nat2Z.inj_succ, Hlen.
        destruct (Z_le_gt_dec pages (s + w - 1)) as [Hlast|Hmore].
        -- replace e with pages by (unfold e; lia).
           replace (pages + 1 - 0) with (pages + 1) by lia.
           replace (pages - (pages + 1) + w) with (w - 1) by lia.
           rewrite Z.div_small by lia.
           change (Z.succ 0) with 1.
           apply (Z.div_unique _ _ 1 (pages - s)); lia.
        -- replace e with (s + w - 1) by (unfold e; lia).
           replace (pages - (s + w - 1 + 1 - 0) + w) with (pages - s) by lia.
           replace (pages - s + w) with (pages - s + 1 * w) by lia.
           rewrite Z.div_add by lia. lia.
      * intros [|i] c Hc; cbn in Hc.
        -- injection Hc as <-. unfold new_chunk.
           cbn [chunk_id start_page end_page page_count estimated_size_mb].
           change (Z.of_nat 0) with 0.
           rewrite Z.add_0_r, Z.mul_0_l, Z.add_0_r, Z.add_0_l, Z.mul_1_l.
           repeat split; reflexivity.
        -- destruct (Hnth i c Hc) as (Hid & Hst & Hen & Hpc & Hsz).
           rewrite Nat2Z.inj_succ.
           repeat split; auto.
           ++ rewrite Hid. f_equal. lia.
           ++ rewrite Hst.
              destruct (Z_le_gt_dec pages (s + w - 1)) as [Hlast|Hmore].
              ** (* the rest is empty *)
                 exfalso. assert (He : e = pages) by (unfold e; lia).
                 rewrite He in Hlen.
                 replace (pages - (pages + 1 - 0) + w) with (w - 1) in Hlen by lia.
                 rewrite Z.div_small in Hlen by lia.
                 destruct rest; [destruct i; discriminate|cbn in Hlen; lia].
              ** unfold e. lia.
           ++ rewrite Hen.
              destruct (Z_le_gt_dec pages (s + w - 1)) as [Hlast|Hmore].
              ** exfalso. assert (He : e = pages) by (unfold e; lia).
                 rewrite He in Hlen.
                 replace (pages - (pages + 1 - 0) + w) with (w - 1) in Hlen by lia.
                 rewrite Z.div_small in Hlen by lia.
                 destruct rest; [destruct i; discriminate|cbn in Hlen; lia].
              ** replace e with (s + w - 1) by (unfold e; lia). f_equal. lia.
    + apply Z.leb_gt in Hle. injection Hrun as <-.
      assert (s = pages + 1) by lia. subst s. split.
      * cbn. replace (pages - (pages + 1) + w) with (w - 1) by lia.
        symmetry. apply Z.div_small. lia.
      * intros [|i] c Hc; discriminate.
Qed.

Lemma split_loop_windows (w n : Z) (avg : Q) :
  1 <= w -> 0 <= n ->
  exists cs, split_loop (Z.to_nat n) w 0 n avg 1 1 = Some cs /\ windows_of w n avg cs.
Proof.
  intros Hw Hn.
  destruct (split_loop_plan w n avg Hw Hn) as (cs & Hrun & _).
  exists cs. split; [exact Hrun|].
  destruct (split_loop_closed_form w n avg Hw _ 1 1 cs ltac:(lia) Hrun) as (Hlen & Hnth).
  split.
  - rewrite Hlen. f_equal. lia.
  - intros i c Hc. destruct (Hnth i c Hc) as (Hid & Hst & Hen & Hpc & Hsz).
    repeat split; auto.
    + rewrite Hid. f_equal. lia.
    + rewrite Hen. f_equal. lia.
Qed.



(** *** The order of a plan and the order of its ids *)

(** From [chunk_001] to [chunk_999] each id is below the next. *)
Lemma chunk_names_ascend (i : Z) :
  1 <= i <= 998 -> (chunk_name i <=? chunk_name (i + 1))%string = true.
Proof.
  intros Hi.
  assert (Hall : forallb (fun n => (chunk_name (Z.of_nat n)
                                    <=? chunk_name (Z.of_nat n + 1))%string)
                   (seq 1 998) = true) by (vm_compute; reflexivity).
  rewrite forallb_forall in Hall.
  specialize (Hall (Z.to_nat i)). rewrite Z2Nat.id in Hall by lia.
  apply Hall, in_seq. lia.
Qed.

(** A list already in order is left as it is by [sorted]. *)
Lemma sort_by_in_order {A : Type} (le : A -> A -> bool) (l : list A) :
  Sorted (fun a b => le a b = true) l -> sort_by le l = l.
Proof.
  induction 1 as [|x l Hl IH Hhd]; [reflexivity|].
  cbn. fold (sort_by le l). rewrite IH.
  destruct Hhd as [|y l' Hxy]; cbn; [reflexivity|now rewrite Hxy].
Qed.

Lemma numbered_in_order (cs : list ChunkInfo) :
  forall k, 1 <= k -> k + Z.of_nat (List.length cs) - 1 <= 999 ->
            numbered_from k cs -> Sorted id_le cs.
Proof.
  induction cs as [|c rest IH]; intros k Hk Hlen Hnum; [constructor|].
  destruct Hnum as (Hc & Hrest). cbn [List.length] in Hlen.
  constructor.
  - apply (IH (k + 1)); [lia|lia|exact Hrest].
  - destruct rest as [|d rest']; constructor.
    destruct Hrest as (Hd & _). cbn [List.length] in Hlen.
    unfold id_le, id_leb. rewrite Hc, Hd. apply chunk_names_ascend. lia.
Qed.

Lemma strongly_sorted_nth {A : Type} (R : A -> A -> Prop) (l : list A) :
  StronglySorted R l ->
  forall i j a b, (i < j)%nat ->
                  nth_error l i = Some a -> nth_error l j = Some b -> R a b.
Proof.
  induction 1 as [|x l Hl IH Hall]; intros i j a b Hij Ha Hb.
  - destruct i; discriminate.
  - destruct j as [|j]; [lia|]. cbn in Hb. destruct i as [|i]; cbn in Ha.
    + injection Ha as <-. rewrite Forall_forall in Hall.
      apply Hall. eapply nth_error_In, Hb.
    + apply (IH i j); auto. lia.
Qed.

Lemma all_succeeded (cs : list ChunkInfo) :
  Forall (fun c => succeeded c = true) cs ->
  collect cs = (map result_text cs, []).
Proof.
  induction 1 as [|c cs Hc _ IH]; [reflexivity|].
  cbn [collect map]. now rewrite IH, Hc.
Qed.

(** Chunks that carry the ids a plan gives them, [chunk_001] onwards in
    page order: up to 999 chunks the order of the ids is the order of the
    pages, so [merge_ocr_results] leaves the chunks as they stand, and
    when all of them completed with a text the merge without structure
    is their texts in page order, joined by blank lines.  From 1000
    chunks on the ids have four digits and sort as strings before
    shorter ones ([chunk_1000] before [chunk_101]): sorting by id then
    changes the order of the pages. *)
Theorem plan_order_is_id_order (cs : list ChunkInfo) :
  numbered_from 1 cs ->
  ((List.length cs <= 999)%nat ->
   sorted_by_id cs = cs /\
   (cs <> [] -> Forall (fun c => succeeded c = true) cs ->
    merge_ocr_results cs false = Ok (join (LF ++ LF) (map result_text cs)))) /\
  ((1000 <= List.length cs)%nat -> sorted_by_id cs <> cs).
Proof.
  intros Hnum. split.
  - intros Hlen.
    assert (Hsame : sorted_by_id cs = cs).
    { apply sort_by_in_order. apply (numbered_in_order cs 1); [lia|lia|exact Hnum]. }
    split; [exact Hsame|]. intros Hne Hall.
    unfold merge_ocr_results. destruct cs as [|c rest]; [congruence|].
    rewrite Hsame, (all_succeeded _ Hall). reflexivity.
  - intros Hlen Hsame.
    assert (Hs := MergeFacts.sorted_by_id_sorted cs). rewrite Hsame in Hs.
    destruct (nth_error cs 100) as [a|] eqn:Ha;
      [|apply nth_error_None in Ha; lia].
    destruct (nth_error cs 999) as [b|] eqn:Hb;
      [|apply nth_error_None in Hb; lia].
    assert (Hab : id_le a b)
      by (apply (strongly_sorted_nth id_le cs Hs 100 999); auto; lia).
    unfold id_le, id_leb in Hab.
    rewrite (SplitterFacts.numbered_from_nth cs 1 100 a Hnum Ha) in Hab.
    rewrite (SplitterFacts.numbered_from_nth cs 1 999 b Hnum Hb) in Hab.
    vm_compute in Hab. discriminate.
Qed.

Lemma plan_order_is_id_order_witness :
  sorted_by_id (sorted_by_id merge_example) = sorted_by_id merge_example.
Proof.
  apply (plan_order_is_id_order (sorted_by_id merge_example)).
  - vm_compute. repeat split.
  - vm_compute. lia.
Defined.

(** *** The chunks of a task *)

Import Backend.

(** Cutting a tiling of [from .. to_] down to the pages [s .. e] leaves a
    tiling of what the two ranges share, and nothing when they share
    nothing. *)
Lemma filtered_chunks_tile (chunks : list ChunkInfo) (s e to_ : Z) :
  forall from,
    tiles from to_ chunks ->
    Forall (fun c => page_count c = end_page c - start_page c + 1) chunks ->
    (Z.min to_ e < Z.max from s -> filtered_chunks chunks s e = Ok []) /\
    (Z.max from s <= Z.min to_ e ->
     exists c cs,
       filtered_chunks chunks s e = Ok (c :: cs) /\
       tiles (Z.max from s) (Z.min to_ e) (c :: cs) /\
       Forall (fun c => page_count c = end_page c - start_page c + 1) (c :: cs) /\
       Forall (fun c' => exists c0, In c0 chunks /\ chunk_id c' = chunk_id c0) (c :: cs)).
Proof.
  induction chunks as [|c rest IH]; intros from Ht Hpc.
  - cbn in Ht. split; [reflexivity|]. intros Hshare. lia.
  - cbn in Ht. destruct Ht as (Hs & Hse & Het & Hrest).
    apply Forall_cons_iff in Hpc. destruct Hpc as (Hc & Hpc).
    destruct (IH (end_page c + 1) Hrest Hpc) as (IHnone & IHsome).
    cbn [filtered_chunks]. split.
    + intros Hnone.
      rewrite (proj2 (Z.leb_gt _ _)) by lia. apply IHnone. lia.
    + intros Hshare.
      destruct (Z.max (start_page c) s <=? Z.min (end_page c) e) eqn:Hkeep.
      * apply Z.leb_le in Hkeep.
        rewrite (proj2 (Z.eqb_neq (page_count c) 0)) by lia.
        destruct (Z_lt_ge_dec (Z.min (end_page c) e) (Z.min to_ e)) as [Hmore|Hlast].
        -- destruct IHsome as (d & ds & Hrun & Htd & Hpd & Hid); [lia|].
           rewrite Hrun. eexists. eexists. split; [reflexivity|].
           split; [|split].
           ++ cbn [tiles]. unfold new_chunk. cbn [start_page end_page].
              split; [lia|]. split; [lia|]. split; [lia|].
              replace (Z.min (end_page c) e + 1) with (Z.max (end_page c + 1) s) by lia.
              exact Htd.
           ++ constructor; [reflexivity|exact Hpd].
           ++ constructor.
              ** exists c. split; [now left|reflexivity].
              ** eapply Forall_impl; [|exact Hid]. cbn.
                 intros c' (c0 & Hin & Heq). exists c0. split; [now right|exact Heq].
        -- rewrite IHnone by lia.
           eexists. eexists. split; [reflexivity|].
           split; [|split].
           ++ cbn [tiles]. unfold new_chunk. cbn [start_page end_page]. lia.
           ++ constructor; [reflexivity|constructor].
           ++ constructor; [|constructor].
              exists c. split; [now left|reflexivity].
      * apply Z.leb_gt in Hkeep.
        destruct IHsome as (d & ds & Hrun & Htd & Hpd & Hid); [lia|].
        exists d, ds. split; [exact Hrun|].
        replace (Z.max from s) with (Z.max (end_page c + 1) s) by lia.
        split; [exact Htd|]. split; [exact Hpd|].
        eapply Forall_impl; [|exact Hid]. cbn.
        intros c' (c0 & Hin & Heq). exists c0. split; [now right|exact Heq].
Qed.

(** The chunks a task processes, for a document of [n >= 1] pages, a
    request whose [max_pages_per_chunk] is at least 1 and the pages
    [start_page .. end_page] asked for: when the request shares pages with
    the document the chunks are returned and tile exactly the shared pages
    [max(1, start_page) .. min(n, end_page)], each page in one chunk, each
    chunk under the id of a chunk of the plan; when it shares none the
    task raises that there is nothing to process.  Planning always ends:
    the configuration a task builds has no overlap. *)
Theorem task_chunks_tile_request (rq : SplitConfigRequest) (pdf : Pdf)
    (start_page_ end_page_ : Z) :
  let n := Z.of_nat (List.length (pdf_pages pdf)) in
  let lo := Z.max 1 start_page_ in
  let hi := Z.min n end_page_ in
  1 <= rq_max_pages_per_chunk rq ->
  1 <= n ->
  (hi < lo ->
   task_chunks (Z.to_nat n) rq pdf start_page_ end_page_
   = Some (Raise "没有需要处理的页面")) /\
  (lo <= hi ->
   exists cs,
     task_chunks (Z.to_nat n) rq pdf start_page_ end_page_ = Some (Ok cs) /\
     tiles lo hi cs /\
     Forall (fun c => page_count c = end_page c - start_page c + 1) cs /\
     forall p, lo <= p <= hi ->
               List.length (filter (fun c => covers c p) cs) = 1%nat).
Proof.
  intros n lo hi Hmax Hn.
  destruct (plan_well_formed (split_config_of rq) pdf
              (Some (analyze_pdf (split_config_of rq) pdf)))
    as (plan & Hrun & Ht & Hpc & _); try (cbn; lia).
  change (an_page_count (numbers (analyze_pdf (split_config_of rq) pdf))) with n in *.
  destruct (filtered_chunks_tile plan start_page_ end_page_ n 1 Ht Hpc)
    as (Hnone & Hsome).
  unfold task_chunks. rewrite Hrun. split.
  - intros Hempty. now rewrite Hnone.
  - intros Hshare. destruct (Hsome Hshare) as (c & cs & Hf & Htc & Hpcc & _).
    rewrite Hf. exists (c :: cs).
    split; [reflexivity|]. split; [exact Htc|]. split; [exact Hpcc|].
    intros p Hp. now apply (SplitterFacts.tiles_cover_once (c :: cs) lo hi p).
Qed.

Lemma task_chunks_tile_request_witness :
  exists cs,
    task_chunks 120 (mkSplitConfigRequest ADAPTIVE 50 100 512 true true)
      (plain_pdf 120 1048576) 30 70 = Some (Ok cs) /\
    tiles 30 70 cs /\
    Forall (fun c => page_count c = end_page c - start_page c + 1) cs /\
    forall p, 30 <= p <= 70 ->
              List.length (filter (fun c => covers c p) cs) = 1%nat.
Proof.
  apply (task_chunks_tile_request (mkSplitConfigRequest ADAPTIVE 50 100 512 true true)
           (plain_pdf 120 1048576) 30 70); vm_compute; try reflexivity; discriminate.
Defined.

End PlanFacts.
(** ** Properties of the cache operations *)

Module CacheOps.
Import Cache.
Import CacheFacts.

(** *** Failures and retries *)

Lemma mark_failed_entry (m : CacheManager) (key msg : string) (md : CacheMetadata) :
  dict_get key (metadata m) = Some md ->
  dict_get key (metadata (mark_failed m key msg)) = Some (fail_with msg md).
Proof.
  intros Hmd. unfold mark_failed. rewrite Hmd. cbn. apply dict_get_set_same.
Qed.

Lemma mark_failed_times_entry (n : nat) :
  forall (m : CacheManager) (key msg : string) (md : CacheMetadata),
    dict_get key (metadata m) = Some md ->
    exists md',
      dict_get key (metadata (mark_failed_times n m key msg)) = Some md' /\
      retry_count md' = retry_count md + Z.of_nat n /\
      max_retries md' = max_retries md /\
      (n <> 0%nat -> status md' = FAILED /\ error_message md' = Some msg).
Proof.
  induction n as [|n IH]; intros m key msg md Hmd.
  - exists md. cbn. repeat split; auto; try lia; congruence.
  - cbn [mark_failed_times].
    destruct (IH (mark_failed m key msg) key msg (fail_with msg md)
                (mark_failed_entry m key msg md Hmd))
      as (md' & Hget & Hcount & Hmax & Hst).
    exists md'. split; [exact Hget|]. cbn in Hcount, Hmax.
    split; [lia|]. split; [exact Hmax|]. intros _.
    destruct n; [|now apply Hst].
    cbn in Hget. rewrite (mark_failed_entry m key msg md Hmd) in Hget.
    injection Hget as <-. split; reflexivity.
Qed.

(** *** What [cleanup] leaves *)

(** The keys [cleanup] deletes: those of the entries its first loop
    condemns, and no others when what is left fits [max_entries]. *)
Lemma cleanup_metadata (m : CacheManager) (now : Z) :
  NoDup (map fst (metadata m)) ->
  exists to_remove,
    (forall it, In it (metadata m) -> doomed m now it = true ->
                In (fst it) to_remove) /\
    metadata (snd (cleanup m now))
    = filter (fun it => negb (str_in (fst it) to_remove)) (metadata m) /\
    (forall k, ~ In k to_remove ->
               dict_get k (payloads (snd (cleanup m now))) = dict_get k (payloads m)) /\
    (Z.of_nat (List.length (remaining m now)) <= max_entries (config m) ->
     to_remove = map fst (filter (doomed m now) (metadata m))).
Proof.
  intros Hnd. unfold cleanup.
  destruct (fold_left (examine m now) (metadata m) ([], no_stats)) as [tr st] eqn:Hfold.
  assert (Htr : tr = map fst (filter (doomed m now) (metadata m))).
  { pose proof (examine_keys m now (metadata m) ([], no_stats)) as H.
    now rewrite Hfold in H. }
  assert (Hlen : Z.of_nat (List.length (metadata m)) - Z.of_nat (List.length tr)
                 = Z.of_nat (List.length (remaining m now))).
  { rewrite Htr, length_map.
    pose proof (filter_split_length (doomed m now) (metadata m)) as H.
    unfold remaining. lia. }
  assert (Hin : forall it, In it (metadata m) -> doomed m now it = true ->
                           In (fst it) tr).
  { intros it Hit Hd. rewrite Htr. apply in_map, filter_In. now split. }
  rewrite Hlen.
  destruct (max_entries (config m) <? Z.of_nat (List.length (remaining m now))) eqn:Hmany;
    cbn [fst snd].
  - eexists. split; [|split; [|split]].
    + intros it Hit Hd. apply in_or_app. left. now apply Hin.
    + now apply drop_entries_metadata.
    + intros k Hk. now apply drop_entries_payloads.
    + apply Z.ltb_lt in Hmany. lia.
  - exists tr. split; [exact Hin|]. split; [|split].
    + now apply drop_entries_metadata.
    + intros k Hk. now apply drop_entries_payloads.
    + intros _. exact Htr.
Qed.

Lemma not_doomed_spec (m : CacheManager) (now : Z) (it : string * CacheMetadata) :
  doomed m now it = false ->
  _is_expired (config m) now (snd it) = false /\
  dict_has (fst it) (payloads m) = true /\
  status (snd it) <> CORRUPTED /\
  (status (snd it) = FAILED -> retry_count (snd it) < max_retries (snd it)).
Proof.
  destruct it as [k md]. unfold doomed, verdict. cbn [fst snd].
  destruct (_is_expired (config m) now md); [discriminate|].
  destruct (dict_has k (payloads m)); cbn [negb]; [|discriminate].
  destruct (status md); cbn; try discriminate;
    intros H; repeat split; try discriminate; try congruence.
  intros _. destruct (max_retries md <=? retry_count md) eqn:E; [discriminate|].
  now apply Z.leb_gt in E.
Qed.

(** With distinct keys, every entry [cleanup] leaves was in the cache
    before, has not aged past [max_cache_age_days], still has its payload
    file (which [cleanup] has not touched), is not marked corrupted, and,
    if marked failed, has retries left.  When the entries of that kind
    number no more than [max_entries], they are exactly what is left, in
    their order. *)
Theorem cleanup_survivors (m : CacheManager) (now : Z) :
  NoDup (map fst (metadata m)) ->
  (forall it,
      In it (metadata (snd (cleanup m now))) ->
      In it (metadata m) /\
      _is_expired (config m) now (snd it) = false /\
      dict_has (fst it) (payloads m) = true /\
      dict_get (fst it) (payloads (snd (cleanup m now)))
      = dict_get (fst it) (payloads m) /\
      status (snd it) <> CORRUPTED /\
      (status (snd it) = FAILED -> retry_count (snd it) < max_retries (snd it))) /\
  (Z.of_nat (List.length (remaining m now)) <= max_entries (config m) ->
   metadata (snd (cleanup m now)) = remaining m now).
Proof.
  intros Hnd.
  destruct (cleanup_metadata m now Hnd) as (tr & Hdoomed & Hmeta & Hpay & Hfit).
  split.
  - intros it Hit. rewrite Hmeta in Hit. apply filter_In in Hit.
    destruct Hit as (Hin & Hout). apply negb_true_iff in Hout.
    assert (Hnot : ~ In (fst it) tr).
    { intros H. apply str_in_In in H. congruence. }
    assert (Hd : doomed m now it = false).
    { destruct (doomed m now it) eqn:E; [|reflexivity].
      exfalso. now apply Hnot, Hdoomed. }
    destruct (not_doomed_spec m now it Hd) as (He & Hp & Hc & Hf).
    repeat split; auto.
  - intros Hle. rewrite Hmeta, (Hfit Hle).
    now apply survivors_not_doomed.
Qed.

Lemma cleanup_survivors_witness :
  metadata (snd (cleanup (numbered_manager 3) 5)) = remaining (numbered_manager 3) 5.
Proof.
  apply (cleanup_survivors (numbered_manager 3) 5).
  - cbn. repeat constructor; cbn; intuition discriminate.
  - vm_compute. discriminate.
Defined.

Section Marks.

Variable md5 : string -> string.
Variable sha256 : string -> string.
Variable str_float : Q -> string.
Variable json_config : Config -> string.
Variable json_key_data :
  string -> string -> string -> string -> Z * Z -> string -> string.
Variable stored_size : bool -> string -> Z.

Local Abbreviation key_of :=
  (_generate_cache_key md5 sha256 str_float json_config json_key_data).
Local Abbreviation has_cache_ :=
  (has_cache md5 sha256 str_float json_config json_key_data).
Local Abbreviation get_cache_ :=
  (get_cache md5 sha256 str_float json_config json_key_data).
Local Abbreviation set_cache_ :=
  (set_cache md5 sha256 str_float json_config json_key_data stored_size).
Local Abbreviation mark_processing_ :=
  (mark_processing md5 sha256 str_float json_config json_key_data).

(** What [mark_processing] leaves under the key it returns. *)
Lemma mark_processing_entry (m m1 : CacheManager) (now : Z) (f : SourceFile)
    (conf : Config) (service terminology : string) (pages : Z * Z) (key : string) :
  mark_processing_ m now f conf service terminology pages = Ok (key, m1) ->
  key_of (config m) f conf service terminology pages = Ok key /\
  config m1 = config m /\
  payloads m1 = payloads m /\
  exists md,
    metadata m1 = dict_set key md (metadata m) /\
    status md = PROCESSING /\ retry_count md = 0 /\ max_retries md = 3 /\
    created_time md = now /\ last_accessed md = now.
Proof.
  unfold mark_processing. intros H.
  destruct (key_of (config m) f conf service terminology pages) as [k|e] eqn:Hk;
    [|discriminate].
  destruct (stat f) as [st|]; [|destruct (_calculate_file_hash _ _ f); discriminate].
  destruct (_calculate_file_hash md5 str_float f) as [fh|e]; [|discriminate].
  injection H as <- <-. repeat split; auto.
  eexists. split; [reflexivity|]. repeat split; reflexivity.
Qed.

(** A job marked as being processed may be retried, and stays so until
    [mark_failed] has been called three times for it: the entry counts
    the calls, [can_retry] compares the count with the entry's
    [max_retries], which is always 3.  Marking the job as being processed
    again starts the count afresh.  For a key the cache does not hold,
    [mark_failed] records nothing and [can_retry] is true. *)
Theorem retries_counted_per_mark (m m1 : CacheManager) (now : Z) (f : SourceFile)
    (conf : Config) (service terminology : string) (pages : Z * Z)
    (key msg : string) (n : nat) :
  mark_processing_ m now f conf service terminology pages = Ok (key, m1) ->
  let failed := mark_failed_times n m1 key msg in
  can_retry failed key = (Z.of_nat n <? 3) /\
  (forall now', exists m2,
      mark_processing_ failed now' f conf service terminology pages = Ok (key, m2) /\
      can_retry m2 key = true) /\
  (forall (m0 : CacheManager) (k : string),
      dict_get k (metadata m0) = None ->
      mark_failed m0 k msg = m0 /\ can_retry m0 k = true).
Proof.
  intros Hmark failed.
  destruct (mark_processing_entry _ _ _ _ _ _ _ _ _ Hmark)
    as (Hkey & Hcfg & Hpay & md & Hmd & Hst & Hrc & Hmr & _).
  assert (Hget : dict_get key (metadata m1) = Some md)
    by (rewrite Hmd; apply dict_get_set_same).
  destruct (mark_failed_times_entry n m1 key msg md Hget)
    as (md' & Hget' & Hcount & Hmax & _).
  split; [|split].
  - unfold can_retry. fold failed in Hget'. rewrite Hget'. f_equal; lia.
  - intros now'.
    assert (Hcfg' : config failed = config m).
    { unfold failed. clear -Hcfg. revert m1 Hcfg.
      induction n as [|k IH]; intros m1 Hcfg; cbn; [exact Hcfg|].
      apply IH. unfold mark_failed. now destruct (dict_get key (metadata m1)). }
    unfold mark_processing in *. rewrite Hcfg', Hkey in *.
    destruct (stat f) as [st|]; [|destruct (_calculate_file_hash _ _ f); discriminate].
    destruct (_calculate_file_hash md5 str_float f) as [fh|e]; [|discriminate].
    eexists. split; [reflexivity|].
    unfold can_retry. cbn [metadata with_metadata]. now rewrite dict_get_set_same.
  - intros m0 k Hnone. unfold mark_failed, can_retry. now rewrite Hnone.
Qed.

(** An entry whose key the first loop of [cleanup] condemns is gone
    afterwards. *)
Lemma cleanup_drops_doomed (m : CacheManager) (now : Z) (key : string)
    (md : CacheMetadata) :
  NoDup (map fst (metadata m)) ->
  dict_get key (metadata m) = Some md ->
  doomed m now (key, md) = true ->
  dict_get key (metadata (snd (cleanup m now))) = None.
Proof.
  intros Hnd Hget Hd.
  destruct (cleanup_metadata m now Hnd) as (tr & Hdoomed & Hmeta & _ & _).
  assert (Hin : In key tr) by (apply (Hdoomed (key, md)); [now apply dict_get_In|exact Hd]).
  destruct (dict_get key (metadata (snd (cleanup m now)))) as [v|] eqn:E; [|reflexivity].
  apply dict_get_In in E. rewrite Hmeta in E. apply filter_In in E.
  destruct E as (_ & Hout). cbn in Hout. apply negb_true_iff in Hout.
  apply str_in_In in Hin. congruence.
Qed.

(** A job marked as being processed has an entry but, unless an earlier
    result for the same key is still on disk, no payload file; a
    [cleanup] that runs before the job ends takes the entry for one whose
    payload is missing and deletes it.  The [mark_failed] that follows a
    failure of the job then records nothing, and [can_retry] answers
    true. *)
Theorem cleanup_forgets_job_in_progress (m m1 : CacheManager) (now now' : Z)
    (f : SourceFile) (conf : Config) (service terminology : string)
    (pages : Z * Z) (key msg : string) :
  NoDup (map fst (metadata m)) ->
  dict_has key (payloads m) = false ->
  mark_processing_ m now f conf service terminology pages = Ok (key, m1) ->
  let m2 := snd (cleanup m1 now') in
  dict_has key (metadata m1) = true /\
  dict_get key (metadata m2) = None /\
  mark_failed m2 key msg = m2 /\
  can_retry m2 key = true.
Proof.
  intros Hnd Hpay Hmark m2.
  destruct (mark_processing_entry _ _ _ _ _ _ _ _ _ Hmark)
    as (Hkey & Hcfg & Hpay1 & md & Hmd & _).
  assert (Hget : dict_get key (metadata m1) = Some md)
    by (rewrite Hmd; apply dict_get_set_same).
  assert (Hnone : dict_get key (metadata m2) = None).
  { apply (cleanup_drops_doomed m1 now' key md).
    - rewrite Hmd. now apply dict_set_keys.
    - exact Hget.
    - unfold doomed, verdict. rewrite Hpay1, Hpay. cbn.
      now destruct (_is_expired (config m1) now' md). }
  split; [unfold dict_has; now rewrite Hget|].
  split; [exact Hnone|].
  unfold mark_failed, can_retry. now rewrite Hnone.
Qed.

(** A text that [get_cache] returns is the content of the payload file of
    an entry that is marked completed, was made for a file of the size the
    file has now and of a modification time within a second of the
    present one, and is not older than [max_cache_age_days]; the call
    leaves the cache as it was but for that entry's [last_accessed],
    set to the time of the call, and its [access_count], one higher. *)
Theorem get_cache_serves_only_fresh (m m' : CacheManager) (now : Z) (f : SourceFile)
    (conf : Config) (service terminology : string) (pages : Z * Z)
    (result : string) :
  get_cache_ m now f conf service terminology pages = Ok (Some result, m') ->
  exists key md st size,
    key_of (config m) f conf service terminology pages = Ok key /\
    dict_get key (metadata m) = Some md /\
    status md = COMPLETED /\
    stat f = Some st /\
    st_size st = file_size md /\
    (Qabs (st_mtime st - file_mtime md) <= 1)%Q /\
    now - created_time md <= days (max_cache_age_days (config m)) /\
    dict_get key (payloads m) = Some (mkPayload (Some result) size) /\
    m' = with_metadata m (dict_set key (touch now md) (metadata m)) /\
    last_accessed (touch now md) = now /\
    access_count (touch now md) = access_count md + 1.
Proof.
  unfold get_cache, has_cache. intros H.
  destruct (key_of (config m) f conf service terminology pages) as [key|e] eqn:Hkey;
    [|discriminate].
  destruct (dict_get key (metadata m)) as [md|] eqn:Hmd; [|discriminate].
  destruct (status_eqb (status md) COMPLETED) eqn:Hst; cbn [negb] in H; [|discriminate].
  destruct (stat f) as [st|] eqn:Hstat; [|discriminate].
  destruct (st_size st =? file_size md) eqn:Hsize; cbn [negb orb] in H; [|discriminate].
  destruct (differs_by_more_than_1 (st_mtime st) (file_mtime md)) eqn:Hmt; [discriminate|].
  destruct (dict_has key (payloads m)) eqn:Hhas; cbn [negb] in H; [|discriminate].
  destruct (_is_expired (config m) now md) eqn:Hexp; [discriminate|].
  destruct (dict_get key (payloads m)) as [[[text|] size]|] eqn:Hpay; try discriminate.
  injection H as <- <-.
  exists key, md, st, size. repeat split; auto.
  - destruct (status md); cbn in Hst; congruence.
  - now apply Z.eqb_eq.
  - unfold differs_by_more_than_1 in Hmt. apply negb_false_iff in Hmt.
    now apply Qle_bool_iff.
  - unfold _is_expired in Hexp. now apply Z.ltb_ge in Hexp.
Qed.

(** When the payload file of an entry that passes every check of
    [has_cache] cannot be unpickled, [get_cache] returns nothing and marks
    the entry corrupted; from then on [has_cache] is false for it, and the
    next [cleanup] deletes it. *)
Theorem unreadable_payload_marks_corrupted (m : CacheManager) (now : Z)
    (f : SourceFile) (conf : Config) (service terminology : string)
    (pages : Z * Z) (key : string) (size : Z) :
  NoDup (map fst (metadata m)) ->
  key_of (config m) f conf service terminology pages = Ok key ->
  has_cache_ m now f conf service terminology pages = Ok true ->
  dict_get key (payloads m) = Some (mkPayload None size) ->
  exists m',
    get_cache_ m now f conf service terminology pages = Ok (None, m') /\
    (exists md, dict_get key (metadata m') = Some md /\ status md = CORRUPTED) /\
    (forall now', has_cache_ m' now' f conf service terminology pages = Ok false) /\
    (forall now', dict_get key (metadata (snd (cleanup m' now'))) = None).
Proof.
  intros Hnd Hkey Hhas Hpay. unfold get_cache. rewrite Hhas, Hkey, Hpay.
  assert (Hmd : exists md, dict_get key (metadata m) = Some md).
  { unfold has_cache in Hhas. rewrite Hkey in Hhas.
    destruct (dict_get key (metadata m)) as [md|]; [now exists md|discriminate]. }
  destruct Hmd as (md & Hmd). rewrite Hmd.
  eexists. split; [reflexivity|].
  assert (Hget : dict_get key
                   (metadata (with_metadata m
                                (dict_set key (set_status CORRUPTED md) (metadata m))))
                 = Some (set_status CORRUPTED md))
    by (cbn; apply dict_get_set_same).
  split; [|split].
  - eexists. split; [exact Hget|reflexivity].
  - intros now'. unfold has_cache. cbn [config with_metadata].
    rewrite Hkey. cbn [metadata] in *. now rewrite Hget.
  - intros now'.
    apply (cleanup_drops_doomed _ now' key (set_status CORRUPTED md)).
    + cbn. now apply dict_set_keys.
    + exact Hget.
    + unfold doomed, verdict. cbn [payloads with_metadata config].
      unfold dict_has. rewrite Hpay. cbn.
      now destruct (_is_expired (config m) now' (set_status CORRUPTED md)),
                   (max_retries md <=? retry_count md).
Qed.

(** Taking the first [r] entries of a list with distinct keys out of it by
    their keys leaves the others. *)
Lemma filter_out_firstn (sorted : list (string * CacheMetadata)) (r : nat) :
  NoDup (map fst sorted) ->
  filter (fun it => negb (str_in (fst it) (map fst (firstn r sorted))))
    (firstn r sorted ++ skipn r sorted)
  = skipn r sorted.
Proof.
  intros Hkeys. rewrite <- (firstn_skipn r sorted) in Hkeys.
  rewrite filter_app, filter_none, filter_all; [reflexivity| |].
  - intros it Hit. apply negb_true_iff.
    destruct (str_in (fst it) (map fst (firstn r sorted))) eqn:Hin; [|reflexivity].
    apply str_in_In, in_map_iff in Hin. destruct Hin as (x & Ex & Hx).
    exfalso. now apply (keys_app_disjoint _ _ x it Hkeys Hx Hit).
  - intros it Hit. apply negb_false_iff, str_in_In. now apply in_map.
Qed.

(** What [_cleanup_old_entries] leaves of a cache that holds more than
    [max_entries >= 0] entries: all but the [len - max_entries] least
    recently accessed. *)
Lemma cleanup_old_entries_result (m : CacheManager) :
  NoDup (map fst (metadata m)) ->
  max_entries (config m) < Z.of_nat (List.length (metadata m)) ->
  let r := Z.to_nat (Z.of_nat (List.length (metadata m)) - max_entries (config m)) in
  let sorted := sort_by older_first (metadata m) in
  Permutation (metadata (fst (_cleanup_old_entries m))) (skipn r sorted) /\
  metadata (fst (_cleanup_old_entries m))
  = filter (fun it => negb (str_in (fst it) (map fst (firstn r sorted)))) (metadata m) /\
  snd (_cleanup_old_entries m) = (max_entries (config m) <? 0).
Proof.
  intros Hnd Hmany r sorted. unfold _cleanup_old_entries.
  rewrite (proj2 (Z.leb_gt _ _)) by lia. cbn [fst snd].
  fold sorted. fold r.
  assert (Hperm : Permutation sorted (metadata m)) by apply PyFacts.sort_by_perm.
  assert (Hkeys : NoDup (map fst sorted)).
  { eapply Permutation_NoDup; [apply Permutation_map, Permutation_sym, Hperm|exact Hnd]. }
  rewrite drop_entries_metadata by assumption.
  split; [|split].
  - rewrite (PyFacts.filter_perm _ _ _ (Permutation_sym Hperm)).
    pose proof (filter_out_firstn sorted r Hkeys) as E.
    rewrite firstn_skipn in E. now rewrite E.
  - reflexivity.
  - destruct (Z.ltb_spec (max_entries (config m)) 0);
      [apply Z.ltb_lt|apply Z.ltb_ge]; lia.
Qed.


(** The entries that a list of keys names go, whatever the size limit. *)
Lemma drop_entries_size_limit (ks : list string) (gb : Q) :
  forall m, fold_left drop_entry ks (with_size_limit m gb)
            = with_size_limit (fold_left drop_entry ks m) gb.
Proof.
  induction ks as [|k ks IH]; intros m; cbn [fold_left]; [reflexivity|].
  now rewrite <- IH.
Qed.

(** [max_cache_size_gb] is never enforced: [set_cache] and [cleanup] do
    under any size limit what they do under any other, whatever the
    payload files weigh. *)
Theorem size_limit_never_enforced (m : CacheManager) (gb : Q) (now : Z)
    (f : SourceFile) (conf : Config) (service terminology : string)
    (pages : Z * Z) (result : string) (time : Q) :
  cleanup (with_size_limit m gb) now
  = (fst (cleanup m now), with_size_limit (snd (cleanup m now)) gb) /\
  set_cache_ (with_size_limit m gb) now f conf service terminology pages result time
  = (fst (set_cache_ m now f conf service terminology pages result time),
     with_size_limit
       (snd (set_cache_ m now f conf service terminology pages result time)) gb).
Proof.
  split.
  - unfold cleanup.
    change (fold_left (examine (with_size_limit m gb) now)
              (metadata (with_size_limit m gb)) ([], no_stats))
      with (fold_left (examine m now) (metadata m) ([], no_stats)).
    destruct (fold_left (examine m now) (metadata m) ([], no_stats)) as [tr st].
    change (metadata (with_size_limit m gb)) with (metadata m).
    change (max_entries (config (with_size_limit m gb))) with (max_entries (config m)).
    change (preserve_recent (config (with_size_limit m gb)))
      with (preserve_recent (config m)).
    change (survivors (with_size_limit m gb) tr) with (survivors m tr).
    destruct (max_entries (config m) <? _); cbn [fst snd];
      now rewrite drop_entries_size_limit.
  - unfold set_cache.
    change (key_of (config (with_size_limit m gb)) f conf service terminology pages)
      with (key_of (config m) f conf service terminology pages).
    destruct (key_of (config m) f conf service terminology pages) as [key|e];
      [|reflexivity].
    destruct (stat f) as [st|]; [|reflexivity].
    destruct (_calculate_file_hash md5 str_float f) as [fh|e]; [|reflexivity].
    cbn [config metadata payloads with_size_limit max_entries enable_compression].
    destruct (max_entries (config m) <? _); [|reflexivity].
    unfold _cleanup_old_entries.
    cbn [config metadata payloads max_entries].
    destruct (_ <=? max_entries (config m)); cbn [fst snd]; [reflexivity|].
    f_equal.
    match goal with
    | |- fold_left drop_entry ?ks ?m0 = _ =>
        change m0 with (with_size_limit
                          (mkCacheManager (config m) (metadata m0) (payloads m0)) gb)
    end.
    now rewrite drop_entries_size_limit.
Qed.

End Marks.

(** The theorems above on [report.pdf], with the stand-ins for the
    digests. *)
Lemma retries_counted_per_mark_witness :
  match mark_processing toy_hash toy_hash toy_float toy_json_config toy_json_key_data
          empty_manager 0 report_pdf [] "dashscope" "" (1, 3) with
  | Ok (key, m1) =>
      can_retry (mark_failed_times 2 m1 key "boom") key = true /\
      can_retry (mark_failed_times 3 m1 key "boom") key = false
  | Raise _ => False
  end.
Proof.
  destruct (mark_processing toy_hash toy_hash toy_float toy_json_config
              toy_json_key_data empty_manager 0 report_pdf [] "dashscope" "" (1, 3))
    as [[key m1]|e] eqn:H; [|vm_compute in H; discriminate].
  split.
  - exact (proj1 (retries_counted_per_mark toy_hash toy_hash toy_float toy_json_config
                    toy_json_key_data empty_manager m1 0 report_pdf [] "dashscope" ""
                    (1, 3) key "boom" 2 H)).
  - exact (proj1 (retries_counted_per_mark toy_hash toy_hash toy_float toy_json_config
                    toy_json_key_data empty_manager m1 0 report_pdf [] "dashscope" ""
                    (1, 3) key "boom" 3 H)).
Defined.

Lemma cleanup_forgets_job_in_progress_witness :
  match mark_processing toy_hash toy_hash toy_float toy_json_config toy_json_key_data
          empty_manager 0 report_pdf [] "dashscope" "" (1, 3) with
  | Ok (key, m1) =>
      dict_has key (metadata m1) = true /\
      dict_get key (metadata (snd (cleanup m1 5))) = None
  | Raise _ => False
  end.
Proof.
  destruct (mark_processing toy_hash toy_hash toy_float toy_json_config
              toy_json_key_data empty_manager 0 report_pdf [] "dashscope" "" (1, 3))
    as [[key m1]|e] eqn:H; [|vm_compute in H; discriminate].
  destruct (cleanup_forgets_job_in_progress toy_hash toy_hash toy_float toy_json_config
              toy_json_key_data empty_manager m1 0 5 report_pdf [] "dashscope" ""
              (1, 3) key "boom") as (Hin & Hout & _).
  - constructor.
  - reflexivity.
  - exact H.
  - split; [exact Hin|exact Hout].
Defined.

Lemma get_cache_serves_only_fresh_witness :
  match get_cache toy_hash toy_hash toy_float toy_json_config toy_json_key_data
          stored_report 1000000 report_pdf [] "dashscope" "" (1, 3) with
  | Ok (Some result, m') =>
      result = "result text" /\
      exists key md, dict_get key (metadata stored_report) = Some md /\
                     status md = COMPLETED /\
                     dict_get key (metadata m') = Some (touch 1000000 md)
  | _ => False
  end.
Proof.
  destruct (get_cache toy_hash toy_hash toy_float toy_json_config toy_json_key_data
              stored_report 1000000 report_pdf [] "dashscope" "" (1, 3))
    as [[[result|] m']|e] eqn:H; try (vm_compute in H; discriminate).
  split; [vm_compute in H; congruence|].
  destruct (get_cache_serves_only_fresh toy_hash toy_hash toy_float toy_json_config
              toy_json_key_data stored_report m' 1000000 report_pdf [] "dashscope" ""
              (1, 3) result H)
    as (key & md & st & size & _ & Hmd & Hst & _ & _ & _ & _ & _ & Hm' & _).
  exists key, md. split; [exact Hmd|]. split; [exact Hst|].
  rewrite Hm'. unfold with_metadata. cbn [metadata]. apply dict_get_set_same.
Defined.

Lemma unreadable_payload_marks_corrupted_witness :
  exists m',
    get_cache toy_hash toy_hash toy_float toy_json_config toy_json_key_data
      damaged_report 1000000 report_pdf [] "dashscope" "" (1, 3) = Ok (None, m') /\
    has_cache toy_hash toy_hash toy_float toy_json_config toy_json_key_data
      m' 2000000 report_pdf [] "dashscope" "" (1, 3) = Ok false.
Proof.
  destruct (_generate_cache_key toy_hash toy_hash toy_float toy_json_config
              toy_json_key_data (config damaged_report) report_pdf [] "dashscope" ""
              (1, 3)) as [key|e] eqn:Hkey; [|vm_compute in Hkey; discriminate].
  destruct (unreadable_payload_marks_corrupted toy_hash toy_hash toy_float
              toy_json_config toy_json_key_data damaged_report 1000000 report_pdf []
              "dashscope" "" (1, 3) key 10) as (m' & Hget & _ & Hhas & _).
  - vm_compute. repeat constructor. intros [].
  - exact Hkey.
  - vm_compute. reflexivity.
  - vm_compute in Hkey. injection Hkey as <-. vm_compute. reflexivity.
  - exists m'. split; [exact Hget|apply Hhas].
Defined.


(** *** [get_stats] *)

Lemma status_value_injective (a b : CacheStatus) :
  status_value a = status_value b -> a = b.
Proof. destruct a, b; cbn; intros H; try reflexivity; discriminate. Qed.

Lemma counts_get_set_same (k : string) (v : Z) (d : list (string * Z)) :
  counts_get k (dict_set k v d) = v.
Proof. unfold counts_get. now rewrite dict_get_set_same. Qed.

Lemma counts_get_set_other (k k2 : string) (v : Z) (d : list (string * Z)) :
  k2 <> k -> counts_get k2 (dict_set k v d) = counts_get k2 d.
Proof. intros H. unfold counts_get. now rewrite dict_get_set_other. Qed.

Lemma sum_counts_set (k : string) (d : list (string * Z)) :
  sum_counts (dict_set k (counts_get k d + 1) d) = sum_counts d + 1.
Proof.
  induction d as [|[k' v'] d IH]; [reflexivity|].
  unfold counts_get in *. cbn [dict_get dict_set].
  destruct (k =? k')%string; cbn [sum_counts fold_right snd] in *.
  - lia.
  - fold (sum_counts d). fold (sum_counts (dict_set k
        (match dict_get k d with Some n => n | None => 0 end + 1) d)).
    rewrite IH. lia.
Qed.

(** What the loop of [get_stats] has gathered after the entries [l]. *)
Lemma tally_invariant (m : CacheManager) (l : list CacheMetadata) :
  let t := fold_left (tally m) l (mkTally 0 [] None None 0 0) in
  sum_counts (t_counts t) = Z.of_nat (List.length l) /\
  (forall s, counts_get (status_value s) (t_counts t)
             = Z.of_nat (List.length (filter (fun md => status_eqb (status md) s) l))) /\
  match l with
  | [] => t_oldest t = None /\ t_newest t = None
  | _ :: _ =>
      exists o n,
        t_oldest t = Some o /\ t_newest t = Some n /\
        (forall md, In md l -> o <= created_time md <= n) /\
        (exists md, In md l /\ created_time md = o) /\
        (exists md, In md l /\ created_time md = n)
  end.
Proof.
  induction l as [|x l IH] using rev_ind; [cbn; repeat split; reflexivity|].
  cbv zeta in *. rewrite fold_left_app. cbn [fold_left].
  set (t := fold_left (tally m) l (mkTally 0 [] None None 0 0)) in *.
  destruct IH as (Hsum & Hcount & Hdates).
  split; [|split].
  - unfold tally. cbn [t_counts]. rewrite sum_counts_set, Hsum, length_app. cbn. lia.
  - intros s. unfold tally. cbn [t_counts].
    rewrite filter_app, length_app. cbn [filter].
    destruct (status_eqb (status x) s) eqn:E.
    + assert (status x = s) by (destruct (status x), s; cbn in E; congruence).
      subst s. rewrite counts_get_set_same, Hcount. cbn. lia.
    + rewrite counts_get_set_other, Hcount; [cbn; lia|].
      intros H. apply status_value_injective in H. subst s.
      destruct (status x); discriminate.
  - unfold tally. cbn [t_oldest t_newest].
    destruct l as [|z l0].
    + cbn [app]. destruct Hdates as (Ho & Hn). rewrite Ho, Hn.
      exists (created_time x), (created_time x).
      split; [reflexivity|]. split; [reflexivity|]. split; [|split].
      * intros md [<-|[]]. lia.
      * exists x. split; [now left|reflexivity].
      * exists x. split; [now left|reflexivity].
    + destruct Hdates as (o & n & Ho & Hn & Hall & (mo & Hmo & Emo) & (mn & Hmn & Emn)).
      rewrite Ho, Hn.
      change (match ((z :: l0) ++ [x])%list with
              | [] => ?a
              | _ :: _ => ?b
              end) with b.
      exists (if created_time x <? o then created_time x else o),
             (if n <? created_time x then created_time x else n).
      split; [now destruct (created_time x <? o)|].
      split; [now destruct (n <? created_time x)|].
      split; [|split].
      * intros md Hmd. apply in_app_or in Hmd.
        destruct (Z.ltb_spec (created_time x) o), (Z.ltb_spec n (created_time x));
          destruct Hmd as [Hmd|[<-|[]]]; try (specialize (Hall md Hmd)); lia.
      * destruct (Z.ltb_spec (created_time x) o).
        -- exists x. split; [apply in_or_app; right; now left|reflexivity].
        -- exists mo. split; [apply in_or_app; now left|exact Emo].
      * destruct (Z.ltb_spec n (created_time x)).
        -- exists x. split; [apply in_or_app; right; now left|reflexivity].
        -- exists mn. split; [apply in_or_app; now left|exact Emn].
Qed.

Lemma filter_values_length {K V : Type} (f : V -> bool) (l : list (K * V)) :
  List.length (filter f (map snd l))
  = List.length (filter (fun it => f (snd it)) l).
Proof.
  induction l as [|it l IH]; [reflexivity|].
  cbn [map filter]. destruct (f (snd it)); cbn [List.length]; [f_equal|]; exact IH.
Qed.

(** The statistics agree with the cache: [total_entries] is the number of
    entries, the status counts add up to it, the count under each status
    is the number of entries with that status, and the two dates are the
    earliest and the latest creation time of an entry (none for an empty
    cache). *)
Theorem get_stats_consistent (m : CacheManager) :
  let s := get_stats m in
  total_entries s = Z.of_nat (List.length (metadata m)) /\
  sum_counts (status_counts s) = total_entries s /\
  (forall st, counts_get (status_value st) (status_counts s) = entries_with st m) /\
  match metadata m with
  | [] => oldest_cache s = None /\ newest_cache s = None
  | _ :: _ =>
      exists o n,
        oldest_cache s = Some o /\ newest_cache s = Some n /\
        (forall it, In it (metadata m) -> o <= created_time (snd it) <= n) /\
        (exists it, In it (metadata m) /\ created_time (snd it) = o) /\
        (exists it, In it (metadata m) /\ created_time (snd it) = n)
  end.
Proof.
  cbv zeta. unfold get_stats. cbn [total_entries status_counts oldest_cache newest_cache].
  destruct (tally_invariant m (map snd (metadata m))) as (Hsum & Hcount & Hdates).
  split; [reflexivity|]. split; [now rewrite Hsum, length_map|]. split.
  - intros st. rewrite Hcount. unfold entries_with. f_equal.
    apply (filter_values_length (fun md => status_eqb (status md) st)).
  - destruct (metadata m) as [|it l]; [exact Hdates|].
    cbn [map] in Hdates.
    destruct Hdates as (o & n & Ho & Hn & Hall & (mo & Hmo & Emo) & (mn & Hmn & Emn)).
    exists o, n. split; [exact Ho|]. split; [exact Hn|]. split; [|split].
    + intros x Hx. apply Hall. change (snd it :: map snd l) with (map snd (it :: l)).
      now apply in_map.
    + change (snd it :: map snd l) with (map snd (it :: l)) in Hmo.
      apply in_map_iff in Hmo. destruct Hmo as (x & <- & Hx). now exists x.
    + change (snd it :: map snd l) with (map snd (it :: l)) in Hmn.
      apply in_map_iff in Hmn. destruct Hmn as (x & <- & Hx). now exists x.
Qed.

End CacheOps.
(** ** Properties of the retry manager's other operations *)

Module RetryOps.
Import Retry.

(** *** The classification of errors *)

(** No error is ever classified as a processing error.  A message that
    mentions a timeout makes the error a network error, the keyword being
    in the first list tried; the class [TIMEOUT] is left to exceptions
    whose type name contains [timeouterror] and whose message does not
    mention a timeout.  Under the default list of retryable classes,
    memory, file and unknown errors are never retried. *)
Theorem classify_error_reasons (e : PyError) :
  _classify_error e <> PROCESSING_ERROR /\
  (contains "timeout" (lower (message e)) = true ->
   _classify_error e = NETWORK_ERROR) /\
  (_classify_error e = TIMEOUT ->
   contains "timeouterror" (lower (type_name e)) = true /\
   contains "timeout" (lower (message e)) = false) /\
  (forall cfg n,
      retry_on_errors cfg = retry_on_errors default_config ->
      _classify_error e = MEMORY_ERROR \/ _classify_error e = FILE_ERROR \/
      _classify_error e = UNKNOWN_ERROR ->
      _should_retry cfg e n = false).
Proof.
  assert (Hnet : contains "timeout" (lower (message e)) = true ->
                 any_in ["connection"; "network"; "timeout"; "unreachable"]
                   (lower (message e)) = true).
  { intros H. unfold any_in. cbn [existsb]. rewrite H.
    now rewrite !orb_true_r. }
  unfold _should_retry, _classify_error.
  remember (any_in ["connection"; "network"; "timeout"; "unreachable"]
              (lower (message e))) as net.
  remember (contains "timeout" (lower (message e))) as timeout.
  remember (any_in ["rate limit"; "too many requests"; "429"] (lower (message e)))
    as rate.
  remember (any_in ["api"; "invalid"; "unauthorized"; "401"; "403"; "500"; "502"; "503"]
              (lower (message e))) as api.
  remember (contains "timeouterror" (lower (type_name e))) as timeout_type.
  remember (contains "memory" (lower (message e))
            || contains "memoryerror" (lower (type_name e))) as memory.
  remember (any_in ["file"; "directory"; "permission"] (lower (message e))
            || contains "ioerror" (lower (type_name e))) as file.
  destruct net, timeout; try (specialize (Hnet eq_refl); discriminate);
    destruct rate, api, timeout_type, memory, file; cbn [orb];
    repeat split; try discriminate;
    try (intros cfg n Hcfg [H|[H|H]]; try discriminate H;
         rewrite Hcfg; destruct (max_retries cfg <=? n); reflexivity).
Qed.

(** *** The circuit breaker counts every failure *)

Lemma calls_app {A : Type} (l1 l2 : list (Z * Z * (unit -> Result A))) :
  forall cb, calls cb (l1 ++ l2) = calls (calls cb l1) l2.
Proof.
  induction l1 as [|[[now after] f] l1 IH]; intros cb; cbn; [reflexivity|apply IH].
Qed.

Lemma calls_closed {A : Type} (l : list (Z * Z * (unit -> Result A))) :
  forall cb,
    state cb = closed ->
    failure_count cb + failures l < failure_threshold cb ->
    state (calls cb l) = closed /\
    failure_count (calls cb l) = failure_count cb + failures l /\
    failure_threshold (calls cb l) = failure_threshold cb.
Proof.
  unfold failures.
  induction l as [|[[now after] f] l IH]; intros cb Hst Hlt.
  - cbn in *. repeat split; auto. lia.
  - cbn [calls filter snd] in *. unfold call. rewrite Hst. unfold attempt_call.
    destruct (f tt) as [a|msg]; rewrite Hst.
    + cbn [breaker]. apply IH; assumption.
    + cbn [breaker List.length] in *.
      match goal with
      | |- context [calls ?cb' l] => destruct (IH cb') as (H1 & H2 & H3)
      end; cbn [state failure_count failure_threshold].
      * destruct (Z.leb_spec (failure_threshold cb) (failure_count cb + 1)); [lia|reflexivity].
      * lia.
      * rewrite H1, H2, H3. cbn [failure_count failure_threshold]. repeat split; lia.
Qed.

(** A breaker counts failures, not failures in a row: a success while it
    is closed leaves the count as it is.  So after any run of calls of
    which fewer than [failure_threshold] fail the breaker is closed with
    the number of failures as its count, and the failure that brings the
    total to the threshold opens it, however many successes lie between
    the failures. *)
Theorem breaker_counts_all_failures {A : Type} (threshold recovery : Z)
    (l : list (Z * Z * (unit -> Result A))) :
  failures l < threshold ->
  let cb := calls (new_breaker threshold recovery) l in
  state cb = closed /\
  failure_count cb = failures l /\
  (forall now after f msg,
      f tt = Raise msg ->
      failures l + 1 = threshold ->
      state (calls (new_breaker threshold recovery) (l ++ [(now, after, f)])) = open).
Proof.
  intros Hlt cb.
  destruct (calls_closed l (new_breaker threshold recovery) eq_refl) as (Hst & Hc & Ht);
    [cbn; lia|].
  fold cb in Hst, Hc, Ht. cbn in Hc, Ht.
  split; [exact Hst|]. split; [exact Hc|].
  intros now after f msg Hf Hlast. rewrite calls_app. fold cb.
  cbn [calls]. unfold call. rewrite Hst. unfold attempt_call. rewrite Hf.
  cbn [breaker state]. rewrite Ht, Hc.
  now rewrite (proj2 (Z.leb_le _ _)) by lia.
Qed.

Lemma breaker_counts_all_failures_witness :
  let l := [(0, 0, failing); (1, 1, succeeding); (2, 2, failing); (3, 3, succeeding)] in
  state (calls (new_breaker 3 300) l) = closed /\
  failure_count (calls (new_breaker 3 300) l) = 2 /\
  state (calls (new_breaker 3 300) (l ++ [(4, 4, failing)])) = open.
Proof.
  cbv zeta.
  destruct (breaker_counts_all_failures 3 300
              [(0, 0, failing); (1, 1, succeeding); (2, 2, failing); (3, 3, succeeding)])
    as (Hst & Hc & Hopen).
  - vm_compute. reflexivity.
  - split; [exact Hst|]. split; [exact Hc|].
    apply (Hopen 4 4 failing "connection refused"); reflexivity.
Defined.

(** *** Checkpoints keep their texts under string keys *)

Lemma str_of_int_injective (a b : Z) : str_of_int a = str_of_int b -> a = b.
Proof.
  unfold str_of_int. intros H.
  assert (Hn : forall z, Z.to_int z <> Decimal.Pos Decimal.Nil /\
                         Z.to_int z <> Decimal.Neg Decimal.Nil).
  { intros z. split; intros E; pose proof (DecimalZ.of_to z) as Hz;
      rewrite E in Hz; cbn in Hz; subst z; discriminate. }
  apply DecimalZ.to_int_inj.
  pose proof (NilZero.isi (Z.to_int a) (proj1 (Hn a)) (proj2 (Hn a))) as Ha.
  pose proof (NilZero.isi (Z.to_int b) (proj1 (Hn b)) (proj2 (Hn b))) as Hb.
  rewrite H in Ha. congruence.
Qed.

Lemma key_eqb_eq (a b : PyKey) : key_eqb a b = true <-> a = b.
Proof.
  destruct a as [x|x], b as [y|y]; cbn; split; intros H; try discriminate.
  - apply Z.eqb_eq in H. now subst.
  - injection H as ->. apply Z.eqb_refl.
  - apply String.eqb_eq in H. now subst.
  - injection H as ->. apply String.eqb_refl.
Qed.

Lemma pk_get_set (k k' : PyKey) (v : string) (d : list (PyKey * string)) :
  pk_get k (pk_set k' v d) = if key_eqb k k' then Some v else pk_get k d.
Proof.
  induction d as [|[k0 v0] d IH]; cbn.
  - destruct (key_eqb k k'); reflexivity.
  - destruct (key_eqb k' k0) eqn:E0; cbn.
    + apply key_eqb_eq in E0. subst k0.
      destruct (key_eqb k k'); reflexivity.
    + rewrite IH. destruct (key_eqb k k') eqn:E; [|reflexivity].
      apply key_eqb_eq in E. subst k'. now rewrite E0.
Qed.

Lemma through_json_fold (d : list (PyKey * string)) :
  forall acc,
    (forall p, pk_get (KInt p) acc = None) ->
    int_keys d ->
    NoDup (map fst d) ->
    let r := fold_left (fun acc kv => pk_set (KStr (json_key (fst kv))) (snd kv) acc)
               d acc in
    (forall p, pk_get (KInt p) r = None) /\
    (forall p, pk_get (KStr (str_of_int p)) r
               = match pk_get (KInt p) d with
                 | Some v => Some v
                 | None => pk_get (KStr (str_of_int p)) acc
                 end).
Proof.
  induction d as [|[k v] d IH]; intros acc Hacc Hint Hnd; cbn [fold_left].
  - split; [exact Hacc|]. intros p. reflexivity.
  - apply Forall_cons_iff in Hint. destruct Hint as ((q & Hq) & Hint).
    cbn [fst] in Hq. subst k. cbn [fst snd json_key map] in *.
    inversion Hnd as [|? ? Hout Hnd']; subst.
    destruct (IH (pk_set (KStr (str_of_int q)) v acc)) as (Hnone & Hget); auto.
    { intros p. rewrite pk_get_set. cbn. exact (Hacc p). }
    split; [exact Hnone|].
    intros p. rewrite Hget. cbn [pk_get key_eqb].
    destruct (Z.eqb_spec p q) as [->|Hne].
    + assert (Habsent : pk_get (KInt q) d = None).
      { clear -Hout. induction d as [|[k0 v0] d IH]; [reflexivity|].
        cbn [pk_get map fst In] in *. destruct (key_eqb (KInt q) k0) eqn:E.
        - apply key_eqb_eq in E. subst k0. exfalso. apply Hout. now left.
        - apply IH. intros H. apply Hout. now right. }
      rewrite Habsent, pk_get_set. cbn. now rewrite String.eqb_refl.
    + rewrite pk_get_set. cbn.
      destruct (String.eqb_spec (str_of_int p) (str_of_int q)) as [E|_]; [|reflexivity].
      apply str_of_int_injective in E. contradiction.
Qed.

(** What a checkpoint's [partial_results] are once they have been saved
    and loaded again: JSON writes the page numbers as strings, so no text
    is found under a page number any more, while every text is still
    there under the decimal digits of its page.  A state that is loaded
    therefore offers nothing to the merge, which asks by page number. *)
Theorem checkpoint_keys_become_strings (s : ProcessingState) :
  int_keys (partial_results s) ->
  NoDup (map fst (partial_results s)) ->
  (forall p, pk_get (KInt p) (partial_results (saved s)) = None) /\
  (forall p, pk_get (KStr (str_of_int p)) (partial_results (saved s))
             = pk_get (KInt p) (partial_results s)) /\
  (forall pages, collected (saved s) pages = []).
Proof.
  intros Hint Hnd.
  destruct (through_json_fold (partial_results s) [] (fun _ => eq_refl) Hint Hnd)
    as (Hnone & Hget).
  cbn [saved partial_results]. unfold through_json.
  split; [exact Hnone|]. split.
  - intros p. rewrite Hget. now destruct (pk_get (KInt p) (partial_results s)).
  - intros pages. unfold collected. cbn [partial_results]. unfold through_json.
    induction pages as [|p pages IH]; [reflexivity|].
    cbn [flat_map]. now rewrite Hnone, IH.
Qed.

Lemma checkpoint_keys_become_strings_witness :
  let s := mkProcessingState "report.pdf" "k" 2 [1] [2] (Some 2) 0 0 [] [] "dashscope"
             "" (1, 2) [(KInt 1, "A")] in
  pk_get (KInt 1) (partial_results (saved s)) = None /\
  pk_get (KStr "1") (partial_results (saved s)) = Some "A".
Proof.
  cbv zeta.
  destruct (checkpoint_keys_become_strings
              (mkProcessingState "report.pdf" "k" 2 [1] [2] (Some 2) 0 0 [] []
                 "dashscope" "" (1, 2) [(KInt 1, "A")]))
    as (Hnone & Hget & _).
  - repeat constructor. now exists 1.
  - repeat constructor. intros [].
  - split; [apply Hnone|apply (Hget 1)].
Defined.

(** *** execute_with_retry *)

(** A call that the breaker does not let through raises and leaves the
    breaker as it was. *)
Lemma call_not_invoked {A : Type} (cb : CircuitBreaker) (now after : Z)
    (f : unit -> Result A) :
  invoked (call cb now after f) = false ->
  breaker (call cb now after f) = cb /\
  exists msg, outcome (call cb now after f) = Raise msg.
Proof.
  unfold call, attempt_call.
  destruct (state cb) eqn:Hst.
  - destruct (f tt); rewrite ?Hst; discriminate.
  - destruct (last_failure_time cb) as [last|].
    + destruct (timedelta_seconds (now - last) <? recovery_time cb).
      * intros _. split; [reflexivity|]. eexists. reflexivity.
      * destruct (f tt); discriminate.
    + intros _. split; [reflexivity|]. eexists. reflexivity.
  - destruct (f tt); rewrite ?Hst; discriminate.
Qed.

Lemma page_numbers_cons (a b : Z) :
  a <= b -> page_numbers a b = a :: page_numbers (a + 1) b.
Proof.
  intros Hab. unfold page_numbers.
  replace (Z.to_nat (b + 1 - a)) with (S (Z.to_nat (b + 1 - (a + 1)))) by lia.
  cbn [seq map]. f_equal; [lia|].
  rewrite <- seq_shift, map_map. apply map_ext. intros i. lia.
Qed.

Lemma page_numbers_empty (a b : Z) : b < a -> page_numbers a b = [].
Proof.
  intros Hab. unfold page_numbers.
  now replace (Z.to_nat (b + 1 - a)) with 0%nat by lia.
Qed.

Section ExecuteFacts.

Variable A : Type.
Variable cfg : RetryConfig.
Variable service_key : string.
Variable context : string.
Variable func : Z -> Outcome A.
Variable clock : Z -> Z * Z.
Variable rnd : Z -> Q.

Local Abbreviation try_once_ := (try_once cfg service_key func clock).
Local Abbreviation execute_loop_ :=
  (execute_loop cfg service_key context func clock rnd).
Local Abbreviation execute_with_retry_ :=
  (execute_with_retry cfg service_key context func clock rnd).

(** A turn yields a value only by invoking [func]. *)
Lemma try_once_gave (attempt : Z) (breakers breakers' : list (string * CircuitBreaker))
    (was_invoked : bool) (a : A) :
  try_once_ attempt breakers = (breakers', was_invoked, Gave a) ->
  func attempt = Gave a.
Proof.
  unfold try_once. destruct (enable_circuit_breaker cfg).
  - destruct (_get_circuit_breaker cfg breakers service_key) as [cb brs].
    set (c := call cb _ _ _). intros H. injection H as _ Hinv Ho.
    destruct (invoked c) eqn:E; [exact Ho|].
    destruct (call_not_invoked cb _ _ _ E) as (_ & msg & Hmsg).
    fold c in Hmsg. rewrite Hmsg in Ho. discriminate.
  - intros H. now injection H as _ _ Ho.
Qed.

Lemma execute_loop_bounded (fuel : nat) :
  forall (attempt : Z) (last_error : option PyError)
         (breakers : list (string * CircuitBreaker)) (calls_made : nat)
         (delays : list Q),
    (Z.to_nat (max_retries cfg + 1 - attempt) <= fuel)%nat ->
    exists run,
      execute_loop_ fuel attempt last_error breakers calls_made delays = Some run /\
      (invocations run <= calls_made + Z.to_nat (max_retries cfg + 1 - attempt))%nat /\
      (List.length (slept run)
       <= List.length delays + Z.to_nat (max_retries cfg - attempt))%nat /\
      (forall a, returned run = Ok a ->
                 exists i, attempt <= i <= max_retries cfg /\ func i = Gave a).
Proof.
  induction fuel as [|fuel IH]; intros attempt last breakers calls_made delays Hfuel;
    cbn [execute_loop]; destruct (attempt <=? max_retries cfg) eqn:Hle;
    try (apply Z.leb_le in Hle; lia);
    try (eexists; split; [reflexivity|]; cbn; repeat split; try lia;
         intros a Ha; discriminate).
  apply Z.leb_le in Hle.
  destruct (try_once_ attempt breakers) as [[brs inv] o] eqn:Htry.
  destruct o as [a|e].
  - eexists. split; [reflexivity|]. cbn.
    split; [destruct inv; lia|]. split; [lia|].
    intros a' Ha. injection Ha as <-. exists attempt. split; [lia|].
    eapply try_once_gave, Htry.
  - destruct (negb (_should_retry cfg e attempt)).
    + eexists. split; [reflexivity|]. cbn.
      split; [destruct inv; lia|]. split; [lia|]. intros a Ha. discriminate.
    + destruct (attempt <? max_retries cfg) eqn:Hlt;
        [apply Z.ltb_lt in Hlt; destruct (Qle_bool 0 _)|];
        try (eexists; split; [reflexivity|]; cbn;
             split; [destruct inv; lia|]; split; [lia|]; intros a Ha; discriminate);
        match goal with
        | |- context [execute_loop _ _ _ _ _ _ fuel ?j ?l ?b ?c ?d] =>
            destruct (IH j l b c d) as (run & Hrun & Hinv & Hslept & Hok); [lia|]
        end;
        (exists run; split; [exact Hrun|];
         split; [destruct inv; lia|]; split;
         [try (rewrite length_app in Hslept; cbn in Hslept); lia|];
         intros a Ha; destruct (Hok a Ha) as (i & Hi & Hf); exists i;
         split; [lia|exact Hf]).
Qed.

(** [execute_with_retry] always ends, within [max_retries + 1] turns of
    its loop.  It invokes the wrapped function at most [max_retries + 1]
    times and sleeps at most [max_retries] times; what it returns is what
    one of those invocations returned; with a negative [max_retries] it
    invokes nothing and raises at once, with [None] for the last error. *)
Theorem execute_with_retry_bounded (breakers : list (string * CircuitBreaker)) :
  let fuel := Z.to_nat (max_retries cfg + 1) in
  exists run,
    execute_with_retry_ fuel breakers = Some run /\
    (invocations run <= fuel)%nat /\
    (List.length (slept run) <= Z.to_nat (max_retries cfg))%nat /\
    (forall a, returned run = Ok a ->
               exists i, 0 <= i <= max_retries cfg /\ func i = Gave a) /\
    (max_retries cfg < 0 ->
     run = mkExecuted (Raise (context ++ "失败，已重试 0 次: None")) breakers 0 []).
Proof.
  intros fuel. unfold execute_with_retry.
  destruct (execute_loop_bounded fuel 0 None breakers 0 [])
    as (run & Hrun & Hinv & Hslept & Hok); [unfold fuel; lia|].
  exists run. split; [exact Hrun|].
  replace (max_retries cfg + 1 - 0) with (max_retries cfg + 1) in Hinv by lia.
  replace (max_retries cfg - 0) with (max_retries cfg) in Hslept by lia.
  split; [exact Hinv|]. split; [exact Hslept|]. split; [exact Hok|].
  intros Hneg. unfold fuel in Hrun.
  replace (Z.to_nat (max_retries cfg + 1)) with 0%nat in Hrun by lia.
  cbn in Hrun. rewrite (proj2 (Z.leb_gt 0 (max_retries cfg))) in Hrun by lia.
  now injection Hrun as <-.
Qed.

(** The delay slept after attempt [i]. *)
Local Abbreviation delay_after :=
  (fun i => match func i with
            | Threw e => _calculate_delay cfg i (_classify_error e) (rnd i)
            | Gave _ => 0%Q
            end).

Lemma execute_loop_disabled (k : Z) :
  enable_circuit_breaker cfg = false ->
  k <= max_retries cfg ->
  forall (fuel : nat) (j : Z) (last_error : option PyError)
         (breakers : list (string * CircuitBreaker)) (calls_made : nat)
         (delays : list Q),
    0 <= j <= k ->
    (Z.to_nat (k - j + 1) <= fuel)%nat ->
    (forall i, j <= i < k -> retried cfg func i) ->
    Forall (fun d => (0 <= d)%Q) (map delay_after (page_numbers j (k - 1))) ->
    (forall a, func k = Gave a ->
               execute_loop_ fuel j last_error breakers calls_made delays
               = Some (mkExecuted (Ok a) breakers
                         (calls_made + Z.to_nat (k - j + 1))
                         (delays ++ map delay_after (page_numbers j (k - 1))))) /\
    (forall e, func k = Threw e ->
               _should_retry cfg e k = false ->
               execute_loop_ fuel j last_error breakers calls_made delays
               = Some (mkExecuted (Raise (gave_up context k (Some e))) breakers
                         (calls_made + Z.to_nat (k - j + 1))
                         (delays ++ map delay_after (page_numbers j (k - 1))))).
Proof.
  intros Hoff Hk fuel.
  induction fuel as [|fuel IH];
    intros j last breakers calls_made delays Hj Hfuel Hretried Hdelays; [lia|].
  cbn [execute_loop]. rewrite (proj2 (Z.leb_le j (max_retries cfg))) by lia.
  unfold try_once. rewrite Hoff.
  destruct (Z.eq_dec j k) as [->|Hne].
  - rewrite page_numbers_empty by lia. cbn [map]. rewrite app_nil_r.
    replace (Z.to_nat (k - k + 1)) with 1%nat by lia.
    replace (calls_made + 1)%nat with (S calls_made) by lia.
    split.
    + intros a Ha. now rewrite Ha.
    + intros e He Hstop. now rewrite He, Hstop.
  - destruct (Hretried j) as (e & He & Hin); [lia|].
    rewrite He.
    assert (Hgo : _should_retry cfg e j = true).
    { unfold _should_retry. now rewrite (proj2 (Z.leb_gt _ _)) by lia. }
    rewrite Hgo. cbn [negb].
    rewrite (proj2 (Z.ltb_lt j (max_retries cfg))) by lia.
    rewrite (page_numbers_cons j (k - 1)) in Hdelays |- * by lia.
    cbn [map] in Hdelays |- *. rewrite He in Hdelays |- *.
    inversion Hdelays as [|d ds Hd Hds]; subst.
    rewrite (proj2 (Qle_bool_iff _ _) Hd).
    destruct (IH (j + 1) (Some e) breakers (S calls_made)
                (delays ++ [_calculate_delay cfg j (_classify_error e) (rnd j)])%list)
      as (Hgave & Hthrew); [lia|lia|intros i Hi; apply Hretried; lia|exact Hds|].
    replace (calls_made + Z.to_nat (k - j + 1))%nat
      with (S calls_made + Z.to_nat (k - (j + 1) + 1))%nat by lia.
    split.
    + intros a Ha. rewrite (Hgave a Ha). now rewrite <- app_assoc.
    + intros e' He' Hstop. rewrite (Hthrew e' He' Hstop). now rewrite <- app_assoc.
Qed.


Lemma dict_set_same {V : Type} (key : string) (v : V) (d : list (string * V)) :
  dict_get key d = Some v -> dict_set key v d = d.
Proof.
  induction d as [|[k' v'] d IH]; cbn; [discriminate|].
  destruct (String.eqb_spec key k') as [->|Hne].
  - now intros [= ->].
  - intros H. now rewrite IH.
Qed.

(** While the breaker of the service is open and its recovery time has
    not passed, [execute_with_retry] does not invoke the wrapped function:
    the breaker's own exception is classified as an unknown error, which
    (unless the configuration retries unknown errors) ends the run at
    once, after no retry, with the breakers as they were. *)
Theorem open_breaker_stops_retries (breakers : list (string * CircuitBreaker))
    (cb : CircuitBreaker) (last : Z) (fuel : nat) :
  enable_circuit_breaker cfg = true ->
  0 <= max_retries cfg ->
  existsb (reason_eqb UNKNOWN_ERROR) (retry_on_errors cfg) = false ->
  dict_get service_key breakers = Some cb ->
  state cb = open ->
  last_failure_time cb = Some last ->
  timedelta_seconds (fst (clock 0) - last) < recovery_time cb ->
  execute_with_retry_ (S fuel) breakers
  = Some (mkExecuted (Raise (context ++ "失败，已重试 0 次: Circuit breaker is open"))
            breakers 0 []).
Proof.
  intros Hon Hmax Hunknown Hcb Hopen Hlast Hsoon.
  unfold execute_with_retry. cbn [execute_loop].
  rewrite (proj2 (Z.leb_le 0 (max_retries cfg))) by lia.
  unfold try_once, _get_circuit_breaker. rewrite Hon, Hcb.
  unfold call. rewrite Hopen, Hlast.
  rewrite (proj2 (Z.ltb_lt _ _) Hsoon). cbn [breaker invoked outcome].
  rewrite (dict_set_same _ _ _ Hcb).
  unfold _should_retry.
  change (_classify_error (mkPyError "Exception" "Circuit breaker is open"))
    with UNKNOWN_ERROR.
  rewrite Hunknown. now destruct (max_retries cfg <=? 0).
Qed.

End ExecuteFacts.


Lemma open_breaker_stops_retries_witness :
  let cb := mkCircuitBreaker 5 300 5 (Some (seconds 4)) open in
  execute_with_retry default_config "dashscope" "OCR" (fun _ => Gave "text")
    (fun _ => (seconds 10, seconds 10)) (fun _ => 1%Q) 4 [("dashscope", cb)]
  = Some (mkExecuted (Raise "OCR失败，已重试 0 次: Circuit breaker is open")
            [("dashscope", cb)] 0 []).
Proof.
  cbv zeta.
  apply (open_breaker_stops_retries string default_config "dashscope" "OCR"
           (fun _ => Gave "text") (fun _ => (seconds 10, seconds 10)) (fun _ => 1%Q)
           [("dashscope", mkCircuitBreaker 5 300 5 (Some (seconds 4)) open)]
           (mkCircuitBreaker 5 300 5 (Some (seconds 4)) open) (seconds 4) 3);
    try reflexivity; cbn; lia.
Defined.

End RetryOps.
(** ** A run in which a page yields no text *)

Module PartialRun.
Import Retry.
Import RetryFacts.

Lemma remove_first_keeps (p q : Z) (xs : list Z) :
  p <> q -> In p xs -> In p (remove_first q xs).
Proof.
  intros Hne. induction xs as [|y xs IH]; cbn; [auto|].
  destruct (Z.eqb_spec q y) as [->|Hqy]; intros [->|H]; auto.
  - contradiction.
  - now left.
  - right. now apply IH.
Qed.

Section Partial.

Variable md5 : string -> string.
Variable sha256 : string -> string.
Variable str_float : Q -> string.
Variable json_config : Cache.Config -> string.
Variable json_key_data :
  string -> string -> string -> string -> Z * Z -> string -> string.
Variable stored_size : bool -> string -> Z.
Variable cfg : RetryConfig.
Variable now : Z.
Variable rnd : Q.
Variable process_func : PageProcessor.

(** The page that never yields a text: whenever it is asked for,
    [process_func] raises, returns [None], or returns the empty string. *)
Variable p : Z.
Hypothesis never_yields :
  forall n, match process_func n p with
            | Returned (Some (String _ _)) => False
            | _ => True
            end.

Local Abbreviation retry_ := (_process_page_with_retry cfg now rnd process_func).
Local Abbreviation process_page_ := (process_page cfg now rnd process_func).

(** The retry loop of a page touches neither list of pages, and a text
    it returns is one [process_func] returned for that page. *)
Lemma retry_keeps_lists (fuel : nat) :
  forall (attempt page : Z) (s : ProcessingState) (n : nat),
    let r := retry_ fuel attempt page s n in
    completed_pages (snd (fst r)) = completed_pages s /\
    failed_pages (snd (fst r)) = failed_pages s /\
    (forall t, fst (fst r) = Some t ->
               exists n0, process_func n0 page = Returned (Some t)).
Proof.
  induction fuel as [|fuel IH]; intros attempt page s n; cbn [_process_page_with_retry].
  - cbn. repeat split; auto. discriminate.
  - destruct (attempt <=? max_retries cfg); [|cbn; repeat split; auto; discriminate].
    destruct (process_func n page) as [result|e] eqn:Hcall.
    + cbn [fst snd]. split; [now destruct (0 <? attempt)|].
      split; [now destruct (0 <? attempt)|].
      intros t ->. now exists n.
    + destruct (negb (_should_retry cfg e attempt)).
      * cbn. repeat split; auto. discriminate.
      * match goal with
        | |- context [_process_page_with_retry _ _ _ _ fuel ?a ?pg ?s' ?n'] =>
            destruct (IH a pg s' n') as (Hc & Hf & Ht)
        end.
        cbv zeta. rewrite Hc, Hf. repeat split; auto.
Qed.

(** One turn of the loop over the pages. *)
Lemma process_page_step (key : string) (s : ProcessingState)
    (disk : list (string * ProcessingState)) (n : nat) (q : Z) :
  NoDup (completed_pages s) ->
  ~ In p (completed_pages s) ->
  let r := process_page_ key (s, disk, n) q in
  NoDup (completed_pages (fst (fst r))) /\
  ~ In p (completed_pages (fst (fst r))) /\
  incl (completed_pages (fst (fst r))) (completed_pages s ++ [q]) /\
  ((In p (failed_pages s) /\ dict_get key disk = Some (saved s)) \/ q = p ->
   In p (failed_pages (fst (fst r))) /\
   dict_get key (snd (fst r)) = Some (saved (fst (fst r)))).
Proof.
  intros Hnd Hp. unfold process_page.
  destruct (int_in q (completed_pages s)) eqn:Hskip.
  - cbn [fst snd]. apply int_in_In in Hskip.
    split; [exact Hnd|]. split; [exact Hp|].
    split; [intros x Hx; apply in_or_app; now left|].
    intros [H| ->]; [exact H|contradiction].
  - assert (Hq : ~ In q (completed_pages s)).
    { intros H. apply int_in_In in H. congruence. }
    destruct (retry_keeps_lists (attempts_fuel cfg) 0 q (start_page s q now) n)
      as (Hc & Hf & Ht).
    destruct (retry_ (attempts_fuel cfg) 0 q (start_page s q now) n)
      as [[res s2] n'].
    cbn [fst snd] in *. cbn [start_page completed_pages failed_pages] in Hc, Hf.
    assert (Hdone : forall t, res = Some t -> t <> "" -> q <> p).
    { intros t Hres Hne ->. destruct (Ht t Hres) as (n0 & Hcall).
      pose proof (never_yields n0) as Hnever. rewrite Hcall in Hnever.
      destruct t; [congruence|exact Hnever]. }
    destruct res as [[|c rest]|].
    + (* the empty string *)
      cbn [page_failed completed_pages failed_pages]. rewrite Hc, Hf.
      split; [exact Hnd|]. split; [exact Hp|].
      split; [intros x Hx; apply in_or_app; now left|].
      intros Hpre. split; [|apply CacheFacts.dict_get_set_same].
      apply in_or_app. destruct Hpre as [[H _]| ->]; [now left|right; now left].
    + cbn [page_done completed_pages failed_pages]. rewrite Hc, Hf.
      assert (Hqp : q <> p) by (apply (Hdone _ eq_refl); discriminate).
      split.
      { apply NoDup_app; [exact Hnd|repeat constructor; intros []|].
        intros x Hx [<-|[]]. contradiction. }
      split.
      { intros H. apply in_app_or in H. destruct H as [H|[H|[]]]; [contradiction|].
        now apply Hqp. }
      split; [apply incl_refl|].
      intros Hpre. split; [|apply CacheFacts.dict_get_set_same].
      destruct Hpre as [[H _]|H]; [|contradiction].
      destruct (int_in q (failed_pages s)); [|exact H].
      apply remove_first_keeps; [congruence|exact H].
    + cbn [page_failed completed_pages failed_pages]. rewrite Hc, Hf.
      split; [exact Hnd|]. split; [exact Hp|].
      split; [intros x Hx; apply in_or_app; now left|].
      intros Hpre. split; [|apply CacheFacts.dict_get_set_same].
      apply in_or_app. destruct Hpre as [[H _]| ->]; [now left|right; now left].
Qed.

(** The loop over the pages [l]. *)
Lemma pages_loop_partial (key : string) (l : list Z) :
  forall (s : ProcessingState) (disk : list (string * ProcessingState)) (n : nat),
    NoDup (completed_pages s) ->
    ~ In p (completed_pages s) ->
    let r := fold_left (process_page_ key) l (s, disk, n) in
    NoDup (completed_pages (fst (fst r))) /\
    ~ In p (completed_pages (fst (fst r))) /\
    incl (completed_pages (fst (fst r))) (completed_pages s ++ l) /\
    ((In p (failed_pages s) /\ dict_get key disk = Some (saved s)) \/ In p l ->
     In p (failed_pages (fst (fst r))) /\
     dict_get key (snd (fst r)) = Some (saved (fst (fst r)))).
Proof.
  induction l as [|q l IH]; intros s disk n Hnd Hp; cbn [fold_left].
  - cbn [fst snd]. split; [exact Hnd|]. split; [exact Hp|].
    split; [now rewrite app_nil_r; apply incl_refl|].
    intros [H|[]]. exact H.
  - destruct (process_page_step key s disk n q Hnd Hp) as (Hnd1 & Hp1 & Hincl1 & Hkeep1).
    destruct (process_page_ key (s, disk, n) q) as [[s1 disk1] n1].
    cbn [fst snd] in *.
    destruct (IH s1 disk1 n1 Hnd1 Hp1) as (Hnd2 & Hp2 & Hincl2 & Hkeep2).
    split; [exact Hnd2|]. split; [exact Hp2|]. split.
    + intros x Hx. apply Hincl2 in Hx. apply in_app_or in Hx.
      destruct Hx as [Hx|Hx].
      * apply Hincl1 in Hx. apply in_app_or in Hx. apply in_or_app.
        destruct Hx as [Hx|[<-|[]]]; [now left|right; now left].
      * apply in_or_app. right. now right.
    + intros Hpre. apply Hkeep2.
      destruct Hpre as [H|[->|H]]; [left; apply Hkeep1; now left| |now right].
      left. apply Hkeep1. now right.
Qed.


End Partial.


End PartialRun.
(** ** Properties of the page selection and of the processing of a file *)

Module MainFacts.
Import Correction.
Import Main.

(** *** select_page_range *)

Section Interactive.

Variable int_of_str : string -> option Z.

Lemma select_loop_valid (total_pages : Z) (inputs : list string) :
  forall s e,
    select_loop int_of_str total_pages inputs = Ok (s, e) ->
    1 <= s /\ s <= e /\ e <= total_pages.
Proof.
  induction inputs as [inputs IH] using (well_founded_induction
    (Wf_nat.well_founded_ltof _ (@List.length string))).
  intros s e. destruct inputs as [|start_input rest]; cbn [select_loop]; [discriminate|].
  assert (IHrest : select_loop int_of_str total_pages rest = Ok (s, e) ->
                   1 <= s /\ s <= e /\ e <= total_pages)
    by (apply IH; unfold ltof; cbn; lia).
  destruct (typed_or int_of_str 1 (py_strip start_input)) as [start_page|];
    [|exact IHrest].
  destruct ((1 <=? start_page) && (start_page <=? total_pages)) eqn:Hs;
    cbn [negb]; [|exact IHrest].
  destruct rest as [|end_input rest']; [discriminate|].
  assert (IHrest' : select_loop int_of_str total_pages rest' = Ok (s, e) ->
                    1 <= s /\ s <= e /\ e <= total_pages)
    by (apply IH; unfold ltof; cbn; lia).
  destruct (typed_or int_of_str start_page (py_strip end_input)) as [end_page|];
    [|exact IHrest'].
  destruct ((start_page <=? end_page) && (end_page <=? total_pages)) eqn:He;
    cbn [negb]; [|exact IHrest'].
  intros H. injection H as <- <-. lia.
Qed.

(** Whatever the user types, a range that [select_page_range] returns for
    a document of [total_pages >= 1] pages lies within the document,
    [1 <= start <= end <= total_pages]; for a file whose pages cannot be
    counted (0 pages) it is [(1, 1)], without asking.  Two empty lines
    choose page 1 alone, and a first pair of numbers that is a range of
    the document is returned as typed. *)
Theorem select_page_range_valid (total_pages : Z) (inputs : list string) :
  0 <= total_pages ->
  (forall s e,
      select_page_range int_of_str total_pages inputs = Ok (s, e) ->
      (total_pages = 0 /\ s = 1 /\ e = 1) \/ (1 <= s /\ s <= e /\ e <= total_pages)) /\
  (total_pages = 0 -> select_page_range int_of_str total_pages inputs = Ok (1, 1)) /\
  (1 <= total_pages ->
   forall rest, select_page_range int_of_str total_pages ("" :: "" :: rest) = Ok (1, 1)) /\
  (forall a b s e rest,
      int_of_str (py_strip a) = Some s -> int_of_str (py_strip b) = Some e ->
      py_strip a <> "" -> py_strip b <> "" ->
      1 <= s -> s <= e -> e <= total_pages ->
      select_page_range int_of_str total_pages (a :: b :: rest) = Ok (s, e)).
Proof.
  intros Htotal. unfold select_page_range. split; [|split; [|split]].
  - intros s e. destruct (Z.eqb_spec total_pages 0) as [->|Hne].
    + intros H. injection H as <- <-. now left.
    + intros H. right. now apply (select_loop_valid total_pages inputs).
  - intros ->. reflexivity.
  - intros Hpos rest. rewrite (proj2 (Z.eqb_neq _ _)) by lia.
    cbn. rewrite (proj2 (Z.leb_le 1 total_pages)) by lia. reflexivity.
  - intros a b s e rest Ha Hb Hna Hnb H1 H2 H3.
    rewrite (proj2 (Z.eqb_neq _ _)) by lia.
    cbn [select_loop]. unfold typed_or.
    destruct (py_strip a) as [|c1 r1] eqn:Ea; [congruence|].
    destruct (py_strip b) as [|c2 r2] eqn:Eb; [congruence|].
    cbn [is_empty]. rewrite Ha, Hb.
    rewrite (proj2 (Z.leb_le 1 s)), (proj2 (Z.leb_le s total_pages)) by lia.
    rewrite (proj2 (Z.leb_le s e)), (proj2 (Z.leb_le e total_pages)) by lia.
    reflexivity.
Qed.

End Interactive.

Lemma select_page_range_valid_witness :
  select_page_range (fun _ => None) 12 [""; ""] = Ok (1, 1).
Proof.
  destruct (select_page_range_valid (fun _ => None) 12 [""; ""]) as (_ & _ & H & _);
    [lia|].
  apply H. lia.
Defined.

(** *** process_single_file *)

Section ProcessFile.

Variable Image : Type.
Variable available : string -> bool.
Variable get_images_for_page : Z -> Result (list Image).
Variable pil_to_data_uri : Image -> Result string.
Variable process_image : string -> Result (string * Usage).
Variable primary : Primary.
Variable can_write : string -> bool.
Variable stem : string.

Local Abbreviation process_page_ :=
  (process_file_page Image get_images_for_page pil_to_data_uri process_image primary
     can_write stem).
Local Abbreviation process_single_file_ :=
  (process_single_file Image available get_images_for_page pil_to_data_uri
     process_image primary can_write stem).
Local Abbreviation ocr_text_of_ :=
  (ocr_text_of Image get_images_for_page pil_to_data_uri process_image can_write stem).

Lemma count_ocr_balanced (u : Usage) (c : Counters) :
  balanced c -> balanced (count_ocr u c).
Proof. unfold balanced, count_ocr. destruct u; cbn; lia. Qed.

Lemma count_gemini_balanced (u : Usage) (c : Counters) :
  balanced c -> balanced (count_gemini u c).
Proof. unfold balanced, count_gemini. destruct u; cbn; lia. Qed.

Lemma file_page_step (terms : string) (acc : Progress) (page_idx : Z) :
  balanced (counters acc) ->
  let acc' := process_page_ terms acc page_idx in
  balanced (counters acc') /\
  (all_pages_text acc' = all_pages_text acc \/
   exists t, all_pages_text acc' = (all_pages_text acc ++ [t])%list) /\
  ((forall prompt, exists e, primary prompt = Raise e) ->
   all_pages_text acc'
   = (all_pages_text acc
      ++ match ocr_text_of_ page_idx with Some t => [t] | None => [] end)%list /\
   gemini_total_tokens (counters acc') = gemini_total_tokens (counters acc)).
Proof.
  intros Hbal. unfold process_file_page, ocr_text_of.
  destruct (get_images_for_page page_idx) as [[|img imgs]|e];
    try (cbn; rewrite app_nil_r; auto).
  destruct (pil_to_data_uri img) as [data_uri|e];
    try (cbn; rewrite app_nil_r; auto).
  destruct (process_image data_uri) as [[ocr_text ocr_usage]|e];
    try (cbn; rewrite app_nil_r; auto).
  pose proof (count_ocr_balanced ocr_usage _ Hbal) as Hocr.
  assert (Hgem : gemini_total_tokens (count_ocr ocr_usage (counters acc))
                 = gemini_total_tokens (counters acc))
    by (unfold count_ocr; now destruct ocr_usage).
  unfold correct_text_with_gemini, catch.
  destruct (primary (primary_prompt ocr_text terms)) as [response|e] eqn:Hprimary.
  - assert (Hup : ~ (forall prompt, exists e, primary prompt = Raise e)).
    { intros H. destruct (H (primary_prompt ocr_text terms)) as (e & He). congruence. }
    destruct (choices response) as [|[content|] rest];
      destruct (can_write (page_file_name stem page_idx)); cbn;
      (split; [try apply count_gemini_balanced; assumption|]);
      (split; [eauto|intros H; contradiction]).
  - destruct (can_write (page_file_name stem page_idx)); cbn.
    + split; [exact Hocr|]. split; [right; eauto|]. intros _. split; [reflexivity|exact Hgem].
    + rewrite app_nil_r. split; [exact Hocr|]. split; [now left|].
      intros _. split; [reflexivity|exact Hgem].
Qed.

Lemma pages_loop (terms : string) (l : list Z) :
  forall acc,
    balanced (counters acc) ->
    let acc' := fold_left (process_page_ terms) l acc in
    balanced (counters acc') /\
    (List.length (all_pages_text acc')
     <= List.length (all_pages_text acc) + List.length l)%nat /\
    ((forall prompt, exists e, primary prompt = Raise e) ->
     all_pages_text acc'
     = (all_pages_text acc
        ++ flat_map (fun i => match ocr_text_of_ i with Some t => [t] | None => [] end)
             l)%list /\
     gemini_total_tokens (counters acc') = gemini_total_tokens (counters acc)).
Proof.
  induction l as [|i l IH]; intros acc Hbal; cbn [fold_left flat_map].
  - cbn. rewrite app_nil_r. repeat split; auto. lia.
  - destruct (file_page_step terms acc i Hbal) as (Hbal1 & Hlen1 & Hdown1).
    destruct (IH _ Hbal1) as (Hbal2 & Hlen2 & Hdown2).
    split; [exact Hbal2|]. split.
    + cbn [List.length]. destruct Hlen1 as [E|(t & E)]; rewrite E in Hlen2;
        [|rewrite length_app in Hlen2; cbn in Hlen2]; lia.
    + intros Hdown. destruct (Hdown1 Hdown) as (E1 & G1).
      destruct (Hdown2 Hdown) as (E2 & G2).
      split; [now rewrite E2, E1, <- app_assoc|congruence].
Qed.

(** When the OCR service asked for is available and the combined file
    can be written, [process_single_file] returns, whatever goes wrong on
    single pages: a page whose image, OCR or page file fails is left out
    without a trace in the text, so the text holds at most one part per
    page of the range, and it is empty for an empty range.  The token
    total of the run is the OCR total plus the correction total.  When
    the correction service fails on every request, the text returned is
    the uncorrected OCR text of the pages that came through, in page
    order, and no correction tokens are counted.  With an unavailable
    OCR service the function raises before touching any page. *)
Theorem process_single_file_best_effort (start_page end_page : Z)
    (terms key : string) :
  let r := process_single_file_ start_page end_page terms key in
  (available key = false ->
   r = (Raise ("OCR服务 '" ++ key ++ "' 不可用"), mkProgress [] no_tokens [])) /\
  (available key = true ->
   can_write (stem ++ "_combined.md") = true ->
   fst r = Ok (join (LF ++ LF) (all_pages_text (snd r))) /\
   (List.length (all_pages_text (snd r))
    <= List.length (page_indexes start_page end_page))%nat /\
   (end_page < start_page -> fst r = Ok "") /\
   run_total_tokens (counters (snd r))
   = ocr_total_tokens (counters (snd r)) + gemini_total_tokens (counters (snd r)) /\
   ((forall prompt, exists e, primary prompt = Raise e) ->
    all_pages_text (snd r)
    = flat_map (fun i => match ocr_text_of_ i with Some t => [t] | None => [] end)
        (page_indexes start_page end_page) /\
    gemini_total_tokens (counters (snd r)) = 0)).
Proof.
  cbv zeta. unfold process_single_file. split.
  - intros ->. reflexivity.
  - intros -> ->. cbn [negb fst snd all_pages_text counters].
    destruct (pages_loop terms (page_indexes start_page end_page)
                (mkProgress [] no_tokens []) eq_refl) as (Hbal & Hlen & Hdown).
    cbn [all_pages_text counters List.length plus app] in *.
    split; [reflexivity|]. split; [exact Hlen|]. split; [|split; [exact Hbal|exact Hdown]].
    intros Hempty. unfold page_indexes.
    replace (Z.to_nat (end_page - (start_page - 1))) with 0%nat by lia.
    reflexivity.
Qed.

End ProcessFile.

End MainFacts.
(** ** Properties of the mode presets *)

Module PreprocessorOps.
Import Preprocessor.

(** Applying a preset to a configuration that already went through it
    changes nothing. *)
Lemma preset_idempotent (c : PreprocessingConfig) :
  _apply_mode_preset (_apply_mode_preset c) = _apply_mode_preset c.
Proof. destruct c as [[] ? ? ? ? ? ? ? ? ? ? ? ? ? ?]; reflexivity. Qed.

(** Outside mode [none] the preset sets the three strengths itself. *)
Lemma preset_sets_strengths (c : PreprocessingConfig) (noise sharpen contrast : Q) :
  mode c <> NONE ->
  _apply_mode_preset (set_strengths c noise sharpen contrast) = _apply_mode_preset c.
Proof.
  destruct c as [[] ? ? ? ? ? ? ? ? ? ? ? ? ? ?]; cbn; intros H;
    try reflexivity; congruence.
Qed.

Section Pipeline.

Variable convert_rgb : PILImage -> PILImage.
Variable _detect_skew_angle : CvImage -> Q.
Variable _rotate_image : CvImage -> Q -> CvImage.
Variable _correct_perspective : CvImage -> option CvImage.
Variable format_angle : Q -> string.
Variable _reduce_noise : PreprocessingConfig -> CvImage -> CvImage.
Variable _enhance_contrast : PreprocessingConfig -> CvImage -> CvImage.
Variable _sharpen_image : PreprocessingConfig -> CvImage -> CvImage.
Variable _binarize_image : CvImage -> CvImage.
Variable to_gray : CvImage -> CvImage.
Variable _adjust_dpi : PreprocessingConfig -> PILImage -> PILImage.
Variable _calculate_quality_score : CvImage -> Q.

Local Abbreviation preprocess :=
  (preprocess_image convert_rgb _detect_skew_angle _rotate_image
     _correct_perspective format_angle _reduce_noise _enhance_contrast
     _sharpen_image _binarize_image to_gray _adjust_dpi _calculate_quality_score).

(** What a call does depends on the configuration only through the
    preset applied to it. *)
Lemma preprocess_by_preset (self_config self_config' c c' : PreprocessingConfig)
    (image : PILImage) :
  _apply_mode_preset c = _apply_mode_preset c' ->
  preprocess self_config image (Some c) = preprocess self_config' image (Some c').
Proof. intros H. unfold preprocess_image. now rewrite H. Qed.

(** [preprocess_image] writes the preset into the configuration object it
    is given and keeps that object.  The object can be used again as it
    is left: processing the next image with it, passed again or left to
    the preprocessor's own [self.config], does what the configuration as
    first given would have done. *)
Theorem preset_applied_once (self_config c : PreprocessingConfig)
    (image1 image2 : PILImage) :
  let left := snd (preprocess self_config image1 (Some c)) in
  left = _apply_mode_preset c /\
  _apply_mode_preset left = left /\
  preprocess self_config image2 (Some left) = preprocess self_config image2 (Some c) /\
  preprocess left image2 None = preprocess self_config image2 (Some c).
Proof.
  cbv zeta.
  assert (Hleft : snd (preprocess self_config image1 (Some c)) = _apply_mode_preset c).
  { unfold preprocess_image.
    destruct (output_dpi (_apply_mode_preset c) =? 300); reflexivity. }
  rewrite Hleft. split; [reflexivity|]. split; [apply preset_idempotent|].
  split.
  - apply preprocess_by_preset, preset_idempotent.
  - unfold preprocess_image. now rewrite preset_idempotent.
Qed.

(** In every mode but [none] the noise, sharpening and contrast strengths
    a caller sets are overwritten by the preset before any stage reads
    them: the call does what it does without them.  The document and
    aggressive presets overwrite the brightness as well and switch
    binarization on. *)
Theorem preset_overrides_strengths (self_config c : PreprocessingConfig)
    (image : PILImage) (noise sharpen contrast brightness : Q) :
  mode c <> NONE ->
  preprocess self_config image (Some (set_strengths c noise sharpen contrast))
  = preprocess self_config image (Some c) /\
  (mode c = DOCUMENT \/ mode c = AGGRESSIVE ->
   preprocess self_config image (Some (set_brightness c brightness))
   = preprocess self_config image (Some c) /\
   binarization (_apply_mode_preset c) = true).
Proof.
  intros Hmode. split.
  - now apply preprocess_by_preset, preset_sets_strengths.
  - intros Hdoc. split.
    + apply preprocess_by_preset.
      destruct c as [[] ? ? ? ? ? ? ? ? ? ? ? ? ? ?]; cbn in *;
        try reflexivity; destruct Hdoc; congruence.
    + destruct c as [[] ? ? ? ? ? ? ? ? ? ? ? ? ? ?]; cbn in *;
        try reflexivity; destruct Hdoc; congruence.
Qed.

End Pipeline.

Lemma preset_overrides_strengths_witness :
  preprocess_plain (set_strengths (config_with_mode BASIC) 2 3 (15 # 10)) rgba_image
  = preprocess_plain (config_with_mode BASIC) rgba_image.
Proof.
  unfold preprocess_plain.
  destruct (preset_overrides_strengths (fun im => im) (fun _ => 0%Q) (fun cv _ => cv)
              (fun _ => None) (fun _ => "0.0") (fun _ => same_cv) (fun _ => same_cv)
              (fun _ => same_cv) same_cv same_cv (fun _ im => im) (fun _ => 50%Q)
              (config_with_mode DOCUMENT) (config_with_mode BASIC) rgba_image
              2 3 (15 # 10) 1) as (H & _).
  - cbn. discriminate.
  - exact H.
Defined.

End PreprocessorOps.
